(** * Job board backend: authorization and application workflow

    A shallow embedding of the Express route handlers of the job board
    (routes/applicationRoutes.js, routes/jobRoutes.js, routes/authRoutes.js)
    and of the Mongoose schemas they persist through
    (models/applicationModel.js, models/jobModel.js).

    Handlers are functions in a state-and-exception monad over the three
    collections.  A rejected promise or a thrown error is an abrupt
    completion that keeps whatever was written before it, exactly as the
    [try { ... } catch (error) { ... }] blocks of the handlers see it.
    Where requests overlap, a handler is the sequence of the database
    operations it awaits, and requests in flight take turns at the
    database. *)

From Stdlib Require Import String Ascii List ZArith Bool Arith Lia.
From Stdlib Require Import Permutation Sorted.
Import ListNotations.
Open Scope string_scope.

(* ===================================================================== *)
(** * JavaScript strings *)
(* ===================================================================== *)

(** Strings are sequences of code units below 256 (the Latin-1 range of
    JavaScript's UTF-16).  On that range the ECMAScript WhiteSpace and
    LineTerminator code points are TAB, LF, VT, FF, CR, SP and NBSP; they are
    what [String.prototype.trim] strips and what the regular expression
    class [\s] matches. *)
Module JsString.

Definition isWhiteSpace (c : ascii) : bool :=
  let n := nat_of_ascii c in
  ((n =? 9) || (n =? 10) || (n =? 11) || (n =? 12) || (n =? 13)
   || (n =? 32) || (n =? 160))%nat.

Fixpoint allWhiteSpace (s : string) : bool :=
  match s with
  | EmptyString => true
  | String c s' => isWhiteSpace c && allWhiteSpace s'
  end.

Fixpoint trimStart (s : string) : string :=
  match s with
  | EmptyString => EmptyString
  | String c s' => if isWhiteSpace c then trimStart s' else s
  end.

Fixpoint trimEnd (s : string) : string :=
  match s with
  | EmptyString => EmptyString
  | String c s' =>
      match trimEnd s' with
      | EmptyString => if isWhiteSpace c then EmptyString else String c EmptyString
      | t => String c t
      end
  end.

(** [s.trim()] *)
Definition trim (s : string) : string := trimEnd (trimStart s).

Definition toLowerChar (c : ascii) : ascii :=
  let n := nat_of_ascii c in
  if (((65 <=? n) && (n <=? 90))
      || ((192 <=? n) && (n <=? 222) && negb (n =? 215)))%nat
  then ascii_of_nat (n + 32) else c.

(** [s.toLowerCase()] *)
Fixpoint toLowerCase (s : string) : string :=
  match s with
  | EmptyString => EmptyString
  | String c s' => String (toLowerChar c) (toLowerCase s')
  end.

(** Truthiness of a string: the empty string is falsy. *)
Definition truthy (s : string) : bool :=
  match s with EmptyString => false | _ => true end.

(** A body or parameter field that may be absent ([undefined]). *)
Definition truthyField (f : option string) : bool :=
  match f with Some s => truthy s | None => false end.

(** [f || ''] *)
Definition orEmpty (f : option string) : string :=
  match f with
  | Some s => s
  | None => ""
  end.

(** [f || d] *)
Definition orDefault (f : option string) (d : string) : string :=
  match f with
  | Some s => if truthy s then s else d
  | None => d
  end.

(** [f?.trim()] : optional chaining leaves [undefined] alone. *)
Definition optTrim (f : option string) : option string := option_map trim f.

Definition isAt (c : ascii) : bool := (nat_of_ascii c =? 64)%nat.
Definition isDot (c : ascii) : bool := (nat_of_ascii c =? 46)%nat.

(** A character of the class [[^\s@]]. *)
Definition isLocalChar (c : ascii) : bool := negb (isWhiteSpace c) && negb (isAt c).

Fixpoint allLocal (s : string) : bool :=
  match s with
  | EmptyString => true
  | String c s' => isLocalChar c && allLocal s'
  end.

(** [[^\s@]+\.[^\s@]+$] on the part after the at sign: only class
    characters, with a dot that is neither first nor last. *)
Fixpoint hasInnerDot (s : string) : bool :=
  match s with
  | String _ ((String d (String _ _)) as rest) =>
      isDot d || hasInnerDot rest
  | _ => false
  end.

Definition domainPart (s : string) : bool := allLocal s && hasInnerDot s.

(** [[^\s@]+@] then the domain part: the local part is not empty and stops
    at the first at sign, since the class excludes it. *)
Fixpoint localThenDomain (seen : bool) (s : string) : bool :=
  match s with
  | EmptyString => false
  | String c s' =>
      if isAt c then seen && domainPart s'
      else if isWhiteSpace c then false
      else localThenDomain true s'
  end.

(** [/^[^\s@]+@[^\s@]+\.[^\s@]+$/.test(s)] *)
Definition emailRegex_test (s : string) : bool := localThenDomain false s.

(** The regular expression read as a shape: three non-empty runs of class
    characters, an at sign after the first and a dot after the second. *)
Definition emailShape (s : string) : Prop :=
  exists a b c,
    s = a ++ "@" ++ b ++ "." ++ c
    /\ a <> "" /\ b <> "" /\ c <> ""
    /\ allLocal a = true /\ allLocal b = true /\ allLocal c = true.

End JsString.

(* ===================================================================== *)
(** * Data model *)
(* ===================================================================== *)

(** An ObjectId is kept as the string [toString()] gives for it. *)
Definition ObjectId := string.

(** Timestamps, as ticks of the server clock. *)
Definition Date := nat.

(** A document of the users collection (name, email, password, role; the
    password is a bcrypt hash). *)
Record User := mkUser {
  user_id : ObjectId;
  user_name : string;
  user_email : string;
  user_password : string;
  user_role : string
}.

(** models/jobModel.js, [jobSchema] with [timestamps: true]. *)
Record Job := mkJob {
  job_id : ObjectId;
  title : string;
  company : string;
  salary : string;
  location : string;
  description : string;
  postedBy : ObjectId;
  applicationCount : Z;
  skillsRequired : list string;
  jobType : string;
  job_createdAt : Date;
  job_updatedAt : Date
}.

(** models/applicationModel.js, [applicationSchema] with [timestamps: true]. *)
Record Application := mkApplication {
  app_id : ObjectId;
  app_job : ObjectId;
  app_user : ObjectId;
  resume : string;
  coverLetter : string;
  status : string;
  createdAt : Date;
  updatedAt : Date
}.

(** The database: three collections, each in insertion order. *)
Record Db := mkDb {
  users : list User;
  jobs : list Job;
  applications : list Application
}.

Definition emptyDb : Db := mkDb [] [] [].

(** The upload directory, as the set of paths at which a file exists. *)
Definition Fs := string -> bool.

(* ===================================================================== *)
(** * Requests and responses *)
(* ===================================================================== *)

Inductive Method := GET | POST | PUT.

(** [req.file] as multer's [upload.single('resume')] leaves it. *)
Record File := mkFile { filename : string }.

(** The outcome of multer on the request: an error passed to the callback,
    or the parsed file, if any was sent. *)
Inductive Upload :=
| MulterError (message : string)
| OtherError (message : string)
| Uploaded (file : option File).

(** An HTTP request below the mount point of its router.  The body is a
    JSON object, or a form, whose fields are texts: a field is a string or
    absent.  Bodies with numbers, booleans, arrays or objects for fields
    are outside the model. *)
Record Request := mkRequest {
  req_method : Method;
  req_path : list string;
  req_token : option string;
  req_body : list (string * string);
  req_upload : Upload
}.

(** [req.user], set by the [protect] middleware. *)
Record AuthUser := mkAuthUser { id : ObjectId; auth_role : string }.

(** A request on its way through a route: [req.params], [req.user] and
    [req.file] are filled in by the router and the middleware. *)
Record Context := mkContext {
  req : Request;
  params : list (string * string);
  req_user : option AuthUser;
  req_file : option File
}.

Fixpoint lookup (k : string) (l : list (string * string)) : option string :=
  match l with
  | [] => None
  | (k', v) :: l' => if String.eqb k k' then Some v else lookup k l'
  end.

(** [req.body.k] *)
Definition bodyField (c : Context) (k : string) : option string :=
  lookup k (req_body (req c)).

(** [req.params.k] *)
Definition param (c : Context) (k : string) : option string :=
  lookup k (params c).

(** The selected fields of a populated reference. *)
Record JobSummary := mkJobSummary {
  js_id : ObjectId; js_title : string; js_company : string }.
Record UserSummary := mkUserSummary {
  us_id : ObjectId; us_name : string; us_email : string }.
Record PublicUser := mkPublicUser {
  pu_id : ObjectId; pu_name : string; pu_email : string; pu_role : string }.

(** The bodies the handlers send.  [Failure] is
    [{ success: false, message, error }], where [error] may be left out. *)
Inductive Body :=
| Failure (message : string) (error : option string)
| ApplicationSubmitted (message : string) (_id : ObjectId) (resume : string)
    (job : option JobSummary) (user : option UserSummary)
    (status : string) (createdAt : Date)
| JobApplications (job : JobSummary) (count : nat)
    (applications : list (Application * option UserSummary))
| JobList (jobs : list (Job * option UserSummary))
| OwnJobs (jobs : list Job)
| JobPosted (message : string) (job : Job)
| JobDetail (job : Job) (postedBy : option UserSummary)
| Authenticated (token : string) (role : string) (user : PublicUser)
    (message : string)
| SentFile (contentType : string) (contentDisposition : string) (path : string).

Record Response := mkResponse { statusCode : nat; body : Body }.

(** [res.status(code).json({ success: false, message })] *)
Definition failure (code : nat) (message : string) : Response :=
  mkResponse code (Failure message None).

(* ===================================================================== *)
(** * The environment of one request *)
(* ===================================================================== *)

(** The database operations a handler awaits. *)
Inductive DbCall :=
| JobFind | JobFindOne | JobFindById | JobSave | JobFindByIdAndUpdate
| ApplicationFindOne | ApplicationFindById | ApplicationFind
| ApplicationSave
| UserFindOne | UserCreate.

(** What a request gets from outside the handler: the clock, the ObjectId
    and the salt generated for it, the operations on which the database
    fails (with the error message), and [process.env.NODE_ENV]. *)
Record Env := mkEnv {
  now : Date;
  newId : ObjectId;
  salt : string;
  fault : DbCall -> option string;
  NODE_ENV : string
}.

Definition noFault : DbCall -> option string := fun _ => None.

(** [process.env.NODE_ENV === 'development' ? error.message : undefined] *)
Definition devError (env : Env) (e : string) : option string :=
  if String.eqb (NODE_ENV env) "development" then Some e else None.

(* ===================================================================== *)
(** * Handlers: state and exceptions *)
(* ===================================================================== *)

(** A computation either completes with a value or throws; in both cases
    it leaves a database behind. *)
Inductive Completion (A : Type) : Type :=
| Normal (a : A)
| Thrown (errorMessage : string).
Arguments Normal {A} a.
Arguments Thrown {A} errorMessage.

Definition M (A : Type) : Type := Db -> Completion A * Db.

Definition ret {A} (a : A) : M A := fun db => (Normal a, db).

Definition throw {A} (e : string) : M A := fun db => (Thrown e, db).

Definition bind {A B} (m : M A) (k : A -> M B) : M B :=
  fun db =>
    match m db with
    | (Normal a, db') => k a db'
    | (Thrown e, db') => (Thrown e, db')
    end.

(** [try { body } catch (error) { handler(error.message) }] *)
Definition tryCatch {A} (body : M A) (handler : string -> M A) : M A :=
  fun db =>
    match body db with
    | (Normal a, db') => (Normal a, db')
    | (Thrown e, db') => handler e db'
    end.

Definition getDb : M Db := fun db => (Normal db, db).
Definition putDb (db' : Db) : M unit := fun _ => (Normal tt, db').

Declare Scope handler_scope.
Delimit Scope handler_scope with handler.
Notation "x <- m ;; k" := (bind m (fun x => k))
  (at level 61, m at next level, right associativity) : handler_scope.
Notation "m ;;; k" := (bind m (fun _ => k))
  (at level 61, right associativity) : handler_scope.
Open Scope handler_scope.

(** An awaited database operation: it throws when the database fails on
    it, and otherwise runs on the collections. *)
Definition await {A} (env : Env) (call : DbCall) (op : M A) : M A :=
  match fault env call with
  | Some e => throw e
  | None => op
  end.

(* ===================================================================== *)
(** * Libraries and process configuration *)
(* ===================================================================== *)

(** What the handlers call in mongoose, bcryptjs, jsonwebtoken and Node's
    [path], and the parts of this repository that are configuration rather
    than logic (the messages of the two authorization middlewares, the
    validators of the user schema, the upload directory). *)
Class Platform := {
  (** [mongoose.Types.ObjectId.isValid(s)] *)
  ObjectId_isValid : string -> bool;
  (** the ObjectId a query casts a valid string to *)
  castObjectId : string -> ObjectId;
  (** [bcrypt.hash(password, salt)] *)
  bcrypt_hash : string -> string -> string;
  (** [bcrypt.compare(password, hash)] *)
  bcrypt_compare : string -> string -> bool;
  (** [jwt.sign({ id, role }, JWT_SECRET, { expiresIn })] at a given time *)
  jwt_sign : ObjectId -> string -> Date -> string;
  (** [jwt.verify(token, JWT_SECRET)] at a given time *)
  jwt_verify : string -> Date -> option AuthUser;
  (** [path.extname(p)] *)
  path_extname : string -> string;
  (** [path.join(__dirname, '../../uploads', filename)] *)
  uploadsPath : string -> string;
  (** [res.sendFile(path)] without a callback, on a file that exists and
      for a request without conditions or ranges: [None] when the file is
      sent, with status 200, and the message of the error it passes to
      [next(err)] when the transfer is refused (a dot file, a read error) *)
  res_sendFile : string -> option string;
  (** the response of [protect] to a missing or bad token *)
  authError : Response;
  (** the message of [roleAuthorization] for a role outside the list *)
  forbiddenMessage : string;
  (** the validation of the user schema: the error of a rejected document *)
  userSchema_validate : User -> option string;
  (** [new Job({ ...req.body, postedBy })]: casting and validation of a body
      against [jobSchema], with the generated [_id] and the time *)
  jobSchema_build :
    list (string * string) -> ObjectId -> ObjectId -> Date -> string + Job
}.

(* ===================================================================== *)
(** * Schemas and queries *)
(* ===================================================================== *)

Definition dquote : string := String (ascii_of_nat 34) EmptyString.

Fixpoint join (sep : string) (l : list string) : string :=
  match l with
  | [] => ""
  | [x] => x
  | x :: l' => x ++ sep ++ join sep l'
  end.

(** The [enum] of [applicationSchema.status]. *)
Definition statusEnum : list string :=
  ["pending"; "reviewed"; "rejected"; "accepted"].

Definition requiredError (path : string) : string :=
  path ++ ": Path `" ++ path ++ "` is required.".

Definition enumError (path value : string) : string :=
  path ++ ": `" ++ value ++ "` is not a valid enum value for path `"
       ++ path ++ "`.".

(** The validators of models/applicationModel.js.  [job] and [user] are
    ObjectIds in every document built here; [required: true] on a String
    path rejects the empty string. *)
Definition applicationSchema_errors (a : Application) : list string :=
  (if JsString.truthy (resume a) then [] else [requiredError "resume"])
  ++ (if JsString.truthy (coverLetter a) then []
      else [requiredError "coverLetter"])
  ++ (if existsb (String.eqb (status a)) statusEnum then []
      else [enumError "status" (status a)]).

Definition applicationSchema_validate (a : Application) : option string :=
  match applicationSchema_errors a with
  | [] => None
  | errs => Some ("Application validation failed: " ++ join ", " errs)
  end.

Definition duplicateKey (collection : string) : string :=
  "E11000 duplicate key error collection: " ++ collection.

(** [Number.isSafeInteger]: the integers that a double, which is what a
    Number path holds, keeps apart from their neighbours. *)
Definition isSafeInteger (n : Z) : Prop := (- 2 ^ 53 < n < 2 ^ 53)%Z.

(** [$inc: { applicationCount: 1 }] on a schema with [timestamps: true]:
    the update also sets [updatedAt].  The count is an integer, as the
    default 0 and the increments make it; the sum is the one the database
    computes as long as the count is a safe integer, and a statement about
    the value of an incremented count asks for that. *)
Definition incApplicationCount (t : Date) (j : Job) : Job :=
  mkJob (job_id j) (title j) (company j) (salary j) (location j)
        (description j) (postedBy j) (applicationCount j + 1)
        (skillsRequired j) (jobType j) (job_createdAt j) t.

(** The first document a predicate selects is replaced. *)
Fixpoint updateFirst {A} (p : A -> bool) (f : A -> A) (l : list A) : list A :=
  match l with
  | [] => []
  | x :: l' => if p x then f x :: l' else x :: updateFirst p f l'
  end.

Definition hasJobId (i : ObjectId) (j : Job) : bool := String.eqb (job_id j) i.
Definition hasUserId (i : ObjectId) (u : User) : bool := String.eqb (user_id u) i.
Definition hasAppId (i : ObjectId) (a : Application) : bool :=
  String.eqb (app_id a) i.

Definition jobSummary (j : Job) : JobSummary :=
  mkJobSummary (job_id j) (title j) (company j).
Definition userSummary (u : User) : UserSummary :=
  mkUserSummary (user_id u) (user_name u) (user_email u).
Definition publicUser (u : User) : PublicUser :=
  mkPublicUser (user_id u) (user_name u) (user_email u) (user_role u).

(** [.populate('job', 'title company')] *)
Definition populateJob (db : Db) (i : ObjectId) : option JobSummary :=
  option_map jobSummary (find (hasJobId i) (jobs db)).

(** [.populate('user', 'name email')] and [.populate('postedBy', 'name email')] *)
Definition populateUser (db : Db) (i : ObjectId) : option UserSummary :=
  option_map userSummary (find (hasUserId i) (users db)).

(** [.sort({ createdAt: -1 })] as an insertion sort on the creation time. *)
Fixpoint insertNewestFirst {A} (key : A -> Date) (x : A) (l : list A) : list A :=
  match l with
  | [] => [x]
  | y :: l' =>
      if (key y <? key x)%nat then x :: l
      else y :: insertNewestFirst key x l'
  end.

Definition sortNewestFirst {A} (key : A -> Date) (l : list A) : list A :=
  fold_right (insertNewestFirst key) [] l.

Section Queries.
Context {P : Platform}.
Variable env : Env.

(** [Job.findById(id)] *)
Definition Job_findById (i : ObjectId) : M (option Job) :=
  await env JobFindById
    (db <- getDb ;; ret (find (hasJobId i) (jobs db))).

(** [Job.findById(id).populate('postedBy', 'name email').lean()] *)
Definition Job_findById_populated (i : ObjectId)
  : M (option (Job * option UserSummary)) :=
  await env JobFindById
    (db <- getDb ;;
     ret (option_map (fun j => (j, populateUser db (postedBy j)))
                     (find (hasJobId i) (jobs db)))).

(** [Job.findOne(filter)] *)
Definition Job_findOne (filter : Job -> bool) : M (option Job) :=
  await env JobFindOne (db <- getDb ;; ret (find filter (jobs db))).

(** [Job.find(filter)] *)
Definition Job_find (filter : Job -> bool) : M (list Job) :=
  await env JobFind (db <- getDb ;; ret (List.filter filter (jobs db))).

(** [Job.find().populate('postedBy', 'name email')] *)
Definition Job_find_populated : M (list (Job * option UserSummary)) :=
  await env JobFind
    (db <- getDb ;;
     ret (map (fun j => (j, populateUser db (postedBy j))) (jobs db))).

(** [Job.find(filter).distinct('_id')] *)
Definition Job_distinct_id (filter : Job -> bool) : M (list ObjectId) :=
  await env JobFind
    (db <- getDb ;;
     ret (nodup string_dec (map job_id (List.filter filter (jobs db))))).

(** [job.save()] on a new document: the [_id] index rejects a duplicate. *)
Definition Job_save (j : Job) : M unit :=
  await env JobSave
    (db <- getDb ;;
     if existsb (hasJobId (job_id j)) (jobs db)
     then throw (duplicateKey "jobs")
     else putDb (mkDb (users db) (jobs db ++ [j]) (applications db))).

(** [Job.findByIdAndUpdate(id, { $inc: { applicationCount: 1 } })] *)
Definition Job_findByIdAndUpdate_inc (i : ObjectId) : M unit :=
  await env JobFindByIdAndUpdate
    (db <- getDb ;;
     putDb (mkDb (users db)
                 (updateFirst (hasJobId i) (incApplicationCount (now env))
                              (jobs db))
                 (applications db))).

(** [Application.findOne(filter)] *)
Definition Application_findOne (filter : Application -> bool)
  : M (option Application) :=
  await env ApplicationFindOne
    (db <- getDb ;; ret (find filter (applications db))).

(** [Application.findById(id).populate('job', 'title company')
      .populate('user', 'name email')] *)
Definition Application_findById_populated (i : ObjectId)
  : M (option (Application * option JobSummary * option UserSummary)) :=
  await env ApplicationFindById
    (db <- getDb ;;
     ret (option_map
            (fun a => (a, populateJob db (app_job a), populateUser db (app_user a)))
            (find (hasAppId i) (applications db)))).

(** [Application.find(filter).populate('user', 'name email')
      .sort({ createdAt: -1 }).lean()] *)
Definition Application_find_withUser (filter : Application -> bool)
  : M (list (Application * option UserSummary)) :=
  await env ApplicationFind
    (db <- getDb ;;
     ret (map (fun a => (a, populateUser db (app_user a)))
              (sortNewestFirst createdAt
                 (List.filter filter (applications db))))).

(** [new Application({ job, user, resume, coverLetter, status })]: the
    [_id] is generated with the document, and with [timestamps: true] the
    first save stamps [createdAt] and [updatedAt] with the time of the
    request. *)
Definition newApplication (job user : ObjectId) (resume coverLetter status : string)
  : Application :=
  mkApplication (newId env) job user resume coverLetter status
                (now env) (now env).

(** [application.save()] on a new document: validation against the schema,
    then an insert that the [_id] index may reject. *)
Definition Application_save (a : Application) : M unit :=
  await env ApplicationSave
    (match applicationSchema_validate a with
     | Some e => throw e
     | None =>
         db <- getDb ;;
         if existsb (hasAppId (app_id a)) (applications db)
         then throw (duplicateKey "applications")
         else putDb (mkDb (users db) (jobs db) (applications db ++ [a]))
     end).

(** [User.findOne({ email })] *)
Definition User_findOne (email : string) : M (option User) :=
  await env UserFindOne
    (db <- getDb ;;
     ret (find (fun u => String.eqb (user_email u) email) (users db))).

(** Modelled from the spec: models/userModel.js is not among the sources.
    A User has an identifier, name, email (unique), password hash and role;
    [User.create] validates the document against the schema and inserts it
    under the generated identifier, and the unique email rejects a second
    document with the same address. *)
Definition User_create (name email password role : string) : M User :=
  await env UserCreate
    (let u := mkUser (newId env) name email password role in
     match userSchema_validate u with
     | Some e => throw e
     | None =>
         db <- getDb ;;
         if existsb (fun v => String.eqb (user_email v) email
                              || String.eqb (user_id v) (newId env)) (users db)
         then throw (duplicateKey "users")
         else putDb (mkDb (users db ++ [u]) (jobs db) (applications db)) ;;;
              ret u
     end).

End Queries.

(* ===================================================================== *)
(** * Middleware and routing *)
(* ===================================================================== *)

(** A layer of a route either answers the request or calls [next()] with
    the request as it has extended it. *)
Definition Middleware : Type := Env -> Context -> M (Response + Context).

Definition respond (r : Response) : M (Response + Context) := ret (inl r).
Definition next (c : Context) : M (Response + Context) := ret (inr c).

(** The last layer of a route: a handler that always answers. *)
Definition handle (h : Env -> Context -> M Response) : Middleware :=
  fun env c => r <- h env c ;; respond r.

(** [req.user]: reading a property of it throws when no layer has set it. *)
Definition reqUser (c : Context) : M AuthUser :=
  match req_user c with
  | Some u => ret u
  | None => throw "Cannot read properties of undefined (reading 'id')"
  end.

(** The identifiers a module binds at its top level. *)
Definition applicationRoutes_scope : list string :=
  ["express"; "router"; "protect"; "roleAuthorization"; "Application"; "Job";
   "User"; "upload"; "path"; "fs"; "mongoose"; "multer"].

Definition jobRoutes_scope : list string :=
  ["express"; "Job"; "protect"; "roleAuthorization"; "router"].

(** Evaluating an identifier: a ReferenceError when the module does not
    bind it. *)
Definition identifier (scope : list string) (x : string) : M unit :=
  if existsb (String.eqb x) scope then ret tt
  else throw (x ++ " is not defined").

Section Middlewares.
Context {P : Platform}.

(** Modelled from the spec: middleware/authMiddleware.js is not among the
    sources.  [resolveToken] verifies signature and expiry; it fails with
    AuthError if the token is missing, malformed or expired, and on success
    yields the user id and role used by the layers after it. *)
Definition protect : Middleware :=
  fun env c =>
    match req_token (req c) with
    | None => respond authError
    | Some token =>
        match jwt_verify token (now env) with
        | None => respond authError
        | Some u => next (mkContext (req c) (params c) (Some u) (req_file c))
        end
    end.

(** Modelled from the spec: middleware/roleMiddleware.js is not among the
    sources.  The operation declares an allowed role set; the request is
    rejected with ForbiddenError (403) if the resolved role is not a
    member. *)
Definition roleAuthorization (roles : list string) : Middleware :=
  fun env c =>
    match req_user c with
    | Some u =>
        if existsb (String.eqb (auth_role u)) roles then next c
        else respond (failure 403 forbiddenMessage)
    | None => respond (failure 403 forbiddenMessage)
    end.

(** The wrapper around [upload.single('resume')] in applicationRoutes.js:
    an error of multer is answered with 400 and its message, otherwise the
    parsed file, if any, is on the request. *)
Definition uploadResume : Middleware :=
  fun env c =>
    match req_upload (req c) with
    | MulterError message => respond (failure 400 message)
    | OtherError message => respond (failure 400 message)
    | Uploaded file => next (mkContext (req c) (params c) (req_user c) file)
    end.

End Middlewares.

(** A segment of a route path: a literal or a named parameter. *)
Inductive Segment :=
| Lit (s : string)
| Param (name : string).

(** Matching a request path against a route path, binding the parameters. *)
Fixpoint matchPath (pattern : list Segment) (path : list string)
  : option (list (string * string)) :=
  match pattern, path with
  | [], [] => Some []
  | Lit s :: pattern', x :: path' =>
      if String.eqb s x then matchPath pattern' path' else None
  | Param name :: pattern', x :: path' =>
      if JsString.truthy x
      then option_map (cons (name, x)) (matchPath pattern' path')
      else None
  | _, _ => None
  end.

Definition eqMethod (a b : Method) : bool :=
  match a, b with
  | GET, GET | POST, POST | PUT, PUT => true
  | _, _ => false
  end.

Record Route := mkRoute {
  route_method : Method;
  route_path : list Segment;
  route_stack : list Middleware
}.

(** The layers of a route run in order until one answers; [inr] when every
    layer called [next()]. *)
Fixpoint runStack (env : Env) (stack : list Middleware) (c : Context)
  : M (Response + Context) :=
  match stack with
  | [] => next c
  | m :: stack' =>
      r <- m env c ;;
      match r with
      | inl response => respond response
      | inr c' => runStack env stack' c'
      end
  end.

(** A router tries its routes in the order of their registration; the
    first route that matches and answers ends the request, and a route
    whose layers all call [next()] hands the request, as they left it, to
    the routes after it.  [None] when no route answered. *)
Fixpoint dispatch (env : Env) (routes : list Route) (c : Context)
  : M (option Response) :=
  match routes with
  | [] => ret None
  | route :: routes' =>
      if eqMethod (route_method route) (req_method (req c)) then
        match matchPath (route_path route) (req_path (req c)) with
        | Some ps =>
            out <- runStack env (route_stack route)
                     (mkContext (req c) ps (req_user c) (req_file c)) ;;
            match out with
            | inl response => ret (Some response)
            | inr c' => dispatch env routes' c'
            end
        | None => dispatch env routes' c
        end
      else dispatch env routes' c
  end.

(** A request entering a router. *)
Definition serve (env : Env) (routes : list Route) (r : Request)
  : M (option Response) :=
  dispatch env routes (mkContext r [] None None).

(* ===================================================================== *)
(** * routes/applicationRoutes.js *)
(* ===================================================================== *)

Section ApplicationRoutes.
Context {P : Platform}.

(** POST /api/applications, the handler after [protect],
    [roleAuthorization(['jobSeeker'])] and the upload. *)
Definition submitApplication (env : Env) (c : Context) : M Response :=
  tryCatch
    (let jobId := bodyField c "jobId" in
     let coverLetter := bodyField c "coverLetter" in
     match req_file c with
     | None => ret (failure 400 "Resume file is required")
     | Some file =>
     if negb (JsString.truthyField jobId)
     then ret (failure 400 "Job ID is required")
     else
     let jobId := JsString.orEmpty jobId in
     identifier applicationRoutes_scope "mongoose" ;;;
     if negb (ObjectId_isValid jobId)
     then ret (failure 400 "Invalid job ID format")
     else
     job <- Job_findById env (castObjectId jobId) ;;
     match job with
     | None => ret (failure 404 "Job not found")
     | Some _ =>
     u <- reqUser c ;;
     existingApplication <-
       Application_findOne env
         (fun a => String.eqb (app_job a) (castObjectId jobId)
                   && String.eqb (app_user a) (id u)) ;;
     match existingApplication with
     | Some _ => ret (failure 400 "You have already applied for this job")
     | None =>
     let application :=
       newApplication env (castObjectId jobId) (id u) (filename file)
                      (JsString.orDefault coverLetter "") "pending" in
     Application_save env application ;;;
     Job_findByIdAndUpdate_inc env (castObjectId jobId) ;;;
     populatedApplication <-
       Application_findById_populated env (app_id application) ;;
     match populatedApplication with
     | None => throw "Cannot read properties of null (reading '_id')"
     | Some (a, job, user) =>
         ret (mkResponse 201
                (ApplicationSubmitted "Application submitted successfully"
                   (app_id a) (resume a) job user (status a) (createdAt a)))
     end
     end
     end
     end)
    (fun error =>
       ret (mkResponse 500
              (Failure "Server error during application submission"
                       (devError env error)))).

(** The content type of a résumé, by the extension of its name. *)
Definition contentTypeOf (filename : string) : string :=
  let ext := JsString.toLowerCase (path_extname filename) in
  if String.eqb ext ".pdf" then "application/pdf"
  else if String.eqb ext ".doc" then "application/msword"
  else if String.eqb ext ".docx"
  then "application/vnd.openxmlformats-officedocument.wordprocessingml.document"
  else "application/octet-stream".

(** The characters Node takes in the value of a header: TAB and the code
    units from 32 to 255 but 127. *)
Definition isHeaderChar (c : ascii) : bool :=
  let n := nat_of_ascii c in
  ((n =? 9) || ((32 <=? n) && negb (n =? 127)))%nat.

Fixpoint validHeaderValue (s : string) : bool :=
  match s with
  | EmptyString => true
  | String c s' => isHeaderChar c && validHeaderValue s'
  end.

Definition invalidHeader (name : string) : string :=
  "Invalid character in header content [" ++ dquote ++ name ++ dquote ++ "]".

(** [res.setHeader(name, value)] throws on a value with another
    character. *)
Definition setHeader (name value : string) : M unit :=
  if validHeaderValue value then ret tt else throw (invalidHeader name).

(** server.js, the error-handling middleware of the app: what a request
    is answered when a route passes an error to [next]. *)
Definition errorHandler (env : Env) (errorMessage : string) : Response :=
  mkResponse 500 (Failure "Internal server error" (devError env errorMessage)).

(** GET /api/applications/resume/:filename, the handler after [protect].
    [res.sendFile] has no callback: when it refuses the file, the error
    goes to [next] and the app answers with its error handler. *)
Definition getResume (fs : Fs) (env : Env) (c : Context) : M Response :=
  tryCatch
    (let filename := JsString.orEmpty (param c "filename") in
     let filePath := uploadsPath filename in
     u <- reqUser c ;;
     ownJobs <- Job_distinct_id env (fun j => String.eqb (postedBy j) (id u)) ;;
     (* the populate of job.postedBy feeds nothing the handler reads *)
     application <-
       Application_findOne env
         (fun a => String.eqb (resume a) filename
                   && (String.eqb (app_user a) (id u)
                       || existsb (String.eqb (app_job a)) ownJobs)) ;;
     match application with
     | None => ret (failure 403 "Not authorized to access this file")
     | Some _ =>
         if negb (fs filePath)
         then ret (failure 404 "Resume file not found")
         else
           let contentType := contentTypeOf filename in
           let disposition :=
             "inline; filename=" ++ dquote ++ filename ++ dquote in
           setHeader "Content-Type" contentType ;;;
           setHeader "Content-Disposition" disposition ;;;
           match res_sendFile filePath with
           | None =>
               ret (mkResponse 200 (SentFile contentType disposition filePath))
           | Some e => ret (errorHandler env e)
           end
     end)
    (fun error =>
       ret (mkResponse 500
              (Failure "Server error during resume download"
                       (devError env error)))).

(** GET /api/applications/job/:jobId, the handler after [protect] and
    [roleAuthorization(['company'])]. *)
Definition getJobApplications (env : Env) (c : Context) : M Response :=
  tryCatch
    (let jobId := JsString.orEmpty (param c "jobId") in
     identifier applicationRoutes_scope "mongoose" ;;;
     if negb (ObjectId_isValid jobId)
     then ret (failure 400 "Invalid job ID format")
     else
     u <- reqUser c ;;
     job <- Job_findOne env
              (fun j => String.eqb (job_id j) (castObjectId jobId)
                        && String.eqb (postedBy j) (id u)) ;;
     match job with
     | None => ret (failure 404 "Job not found or not authorized")
     | Some job =>
         applications <-
           Application_find_withUser env
             (fun a => String.eqb (app_job a) (castObjectId jobId)) ;;
         ret (mkResponse 200
                (JobApplications (jobSummary job) (length applications)
                                 applications))
     end)
    (fun error =>
       ret (mkResponse 500
              (Failure "Server error fetching applications"
                       (devError env error)))).

(** POST /api/applications with its layers. *)
Definition submitRoute : Route :=
  mkRoute POST []
    [protect; roleAuthorization ["jobSeeker"]; uploadResume;
     handle submitApplication].

(** GET /api/applications/resume/:filename with its layers. *)
Definition resumeRoute (fs : Fs) : Route :=
  mkRoute GET [Lit "resume"; Param "filename"]
    [protect; handle (getResume fs)].

(** GET /api/applications/job/:jobId with its layers. *)
Definition jobApplicationsRoute : Route :=
  mkRoute GET [Lit "job"; Param "jobId"]
    [protect; roleAuthorization ["company"]; handle getJobApplications].

End ApplicationRoutes.

(* ===================================================================== *)
(** * routes/jobRoutes.js *)
(* ===================================================================== *)

Section JobRoutes.
Context {P : Platform}.

(** GET /api/jobs *)
Definition getJobs (env : Env) (c : Context) : M Response :=
  tryCatch
    (jobs <- Job_find_populated env ;;
     ret (mkResponse 200 (JobList jobs)))
    (fun error =>
       ret (mkResponse 500 (Failure "Error fetching jobs" (Some error)))).

(** POST /api/jobs, the handler after [protect] and
    [roleAuthorization(['company'])]. *)
Definition postJob (env : Env) (c : Context) : M Response :=
  tryCatch
    (u <- reqUser c ;;
     match jobSchema_build (req_body (req c)) (id u) (newId env) (now env) with
     | inl e => throw e
     | inr job =>
         Job_save env job ;;;
         ret (mkResponse 201 (JobPosted "Job posted successfully" job))
     end)
    (fun error =>
       ret (mkResponse 500 (Failure "Error posting job" (Some error)))).

(** GET /api/jobs/:id, the handler after [protect], in a module with the
    given top-level bindings. *)
Definition getJobIn (scope : list string) (env : Env) (c : Context)
  : M Response :=
  tryCatch
    (identifier scope "mongoose" ;;;
     let id' := JsString.orEmpty (param c "id") in
     if negb (ObjectId_isValid id')
     then ret (failure 400 "Invalid job ID format")
     else
     job <- Job_findById_populated env (castObjectId id') ;;
     match job with
     | None => ret (failure 404 "Job not found")
     | Some (job, poster) =>
         u <- reqUser c ;;
         if String.eqb (auth_role u) "company" then
           match poster with
           | None => throw "Cannot read properties of null (reading '_id')"
           | Some p =>
               if negb (String.eqb (us_id p) (id u))
               then ret (failure 403 "Not authorized to view this job")
               else ret (mkResponse 200 (JobDetail job poster))
           end
         else ret (mkResponse 200 (JobDetail job poster))
     end)
    (fun error =>
       ret (mkResponse 500
              (Failure "Server error while fetching job" (Some error)))).

(** The handler as routes/jobRoutes.js has it. *)
Definition getJob : Env -> Context -> M Response := getJobIn jobRoutes_scope.

(** GET /api/jobs/my, the handler after [protect] and
    [roleAuthorization(['company'])]. *)
Definition getMyJobs (env : Env) (c : Context) : M Response :=
  tryCatch
    (u <- reqUser c ;;
     jobs <- Job_find env (fun j => String.eqb (postedBy j) (id u)) ;;
     ret (mkResponse 200 (OwnJobs jobs)))
    (fun error =>
       ret (mkResponse 500 (Failure "Error fetching your jobs" (Some error)))).

(** The router of the file: its four routes in the order they are
    registered. *)
Definition jobRouterIn (scope : list string) : list Route :=
  [ mkRoute GET [] [handle getJobs];
    mkRoute POST [] [protect; roleAuthorization ["company"]; handle postJob];
    mkRoute GET [Param "id"] [protect; handle (getJobIn scope)];
    mkRoute GET [Lit "my"]
      [protect; roleAuthorization ["company"]; handle getMyJobs] ].

Definition jobRouter : list Route := jobRouterIn jobRoutes_scope.

End JobRoutes.

(* ===================================================================== *)
(** * routes/authRoutes.js *)
(* ===================================================================== *)

Section AuthRoutes.
Context {P : Platform}.

(** The input validation in front of the signup handler. *)
Definition validateSignup : Middleware :=
  fun env c =>
    let name := bodyField c "name" in
    let email := bodyField c "email" in
    let password := bodyField c "password" in
    if negb (JsString.truthyField name) || negb (JsString.truthyField email)
       || negb (JsString.truthyField password)
    then respond (failure 400 "All fields are required")
    else if negb (JsString.emailRegex_test (JsString.orEmpty email))
    then respond (failure 400 "Invalid email format")
    else if (String.length (JsString.orEmpty password) <? 6)%nat
    then respond (failure 400 "Password must be at least 6 characters")
    else next c.

(** Calling a method on a body field throws when the field is absent. *)
Definition method (f : option string) (m : string) : M string :=
  match f with
  | Some s => ret s
  | None =>
      throw ("Cannot read properties of undefined (reading '" ++ m ++ "')")
  end.

(** POST /api/auth/signup, the handler after [validateSignup]. *)
Definition signup (env : Env) (c : Context) : M Response :=
  tryCatch
    (let role := bodyField c "role" in
     name <- method (bodyField c "name") "trim" ;;
     let name := JsString.trim name in
     email <- method (bodyField c "email") "trim" ;;
     let email := JsString.toLowerCase (JsString.trim email) in
     password <- method (bodyField c "password") "trim" ;;
     let password := JsString.trim password in
     let role := JsString.trim (JsString.orDefault role "jobSeeker") in
     existingUser <- User_findOne env email ;;
     match existingUser with
     | Some _ => ret (failure 400 "Email already registered")
     | None =>
         let hashedPassword := bcrypt_hash password (salt env) in
         newUser <- User_create env name email hashedPassword role ;;
         let token := jwt_sign (user_id newUser) (user_role newUser) (now env) in
         ret (mkResponse 201
                (Authenticated token (user_role newUser) (publicUser newUser)
                               "Registration successful"))
     end)
    (fun error =>
       ret (mkResponse 500
              (Failure "Server error during registration" (Some error)))).

(** POST /api/auth/login *)
Definition login (env : Env) (c : Context) : M Response :=
  tryCatch
    (let email :=
       option_map JsString.toLowerCase (JsString.optTrim (bodyField c "email")) in
     let password := JsString.optTrim (bodyField c "password") in
     if negb (JsString.truthyField email) || negb (JsString.truthyField password)
     then ret (failure 400 "Email and password required")
     else
     user <- User_findOne env (JsString.orEmpty email) ;;
     match user with
     | None => ret (failure 400 "Invalid credentials")
     | Some user =>
         if negb (JsString.truthy (user_password user))
         then ret (failure 400 "Invalid credentials")
         else
         if negb (bcrypt_compare (JsString.orEmpty password) (user_password user))
         then ret (failure 400 "Invalid credentials")
         else
           let token := jwt_sign (user_id user) (user_role user) (now env) in
           ret (mkResponse 200
                  (Authenticated token (user_role user) (publicUser user)
                                 "Login successful"))
     end)
    (fun error =>
       ret (mkResponse 500 (Failure "Server error during login" (Some error)))).

Definition signupRoute : Route :=
  mkRoute POST [Lit "signup"] [validateSignup; handle signup].

Definition loginRoute : Route :=
  mkRoute POST [Lit "login"] [handle login].

End AuthRoutes.

(* ===================================================================== *)
(** * Properties of the stores *)
(* ===================================================================== *)

(** The (job, user) pair of an application. *)
Definition pairOf (a : Application) : ObjectId * ObjectId :=
  (app_job a, app_user a).

(** At most one Application per (job, user) pair. *)
Definition onePerPair (db : Db) : Prop :=
  NoDup (map pairOf (applications db)).

(** The filter of the duplicate check in the submission handler. *)
Definition isFor (job user : ObjectId) (a : Application) : bool :=
  String.eqb (app_job a) job && String.eqb (app_user a) user.

(** Some Application is stored for the pair. *)
Definition applied (db : Db) (job user : ObjectId) : bool :=
  existsb (isFor job user) (applications db).

(** The applications of a pair. *)
Definition applicationsOf (db : Db) (job user : ObjectId) : list Application :=
  List.filter (isFor job user) (applications db).

(** Two versions of a job that agree on every field but the application
    count and the time of the last update. *)
Definition sameJobButCount (j j' : Job) : Prop :=
  job_id j' = job_id j /\ title j' = title j /\ company j' = company j
  /\ salary j' = salary j /\ location j' = location j
  /\ description j' = description j /\ postedBy j' = postedBy j
  /\ skillsRequired j' = skillsRequired j /\ jobType j' = jobType j
  /\ job_createdAt j' = job_createdAt j.

(** The database a computation leaves, and what it completes with. *)
Definition stateAfter {A} (m : M A) (db : Db) : Db := snd (m db).
Definition completion {A} (m : M A) (db : Db) : Completion A := fst (m db).

Section Runs.
Context {P : Platform}.

(** A sequence of requests to POST /api/applications, each with the
    environment it is served in. *)
Fixpoint submissions (rs : list (Env * Request)) (db : Db) : Db :=
  match rs with
  | [] => db
  | (env, r) :: rs' =>
      submissions rs' (stateAfter (serve env [submitRoute] r) db)
  end.

(** What the submission handler answers when something is thrown. *)
Definition submitError (env : Env) (e : string) : Response :=
  mkResponse 500
    (Failure "Server error during application submission" (devError env e)).

(** The document the submission handler builds. *)
Definition submitted (env : Env) (c : Context) (u : AuthUser) (file : File)
    (jid : string) : Application :=
  newApplication env (castObjectId jid) (id u) (filename file)
    (JsString.orDefault (bodyField c "coverLetter") "") "pending".

(** The requester may read the résumé of an application: as its applicant,
    or as the poster of its job. *)
Definition mayRead (db : Db) (u : AuthUser) (a : Application) : bool :=
  String.eqb (app_user a) (id u)
  || existsb (fun j => String.eqb (postedBy j) (id u)
                       && String.eqb (job_id j) (app_job a)) (jobs db).

(** The filter of the résumé lookup: the application carries the file
    name and the requester may read it. *)
Definition readable (db : Db) (u : AuthUser) (name : string)
    (a : Application) : bool :=
  String.eqb (resume a) name && mayRead db u a.

End Runs.

(** No database operation fails during the request. *)
Definition faultless (env : Env) : Prop := forall call, fault env call = None.

(* ===================================================================== *)
(** * A concrete platform and sample data *)
(* ===================================================================== *)

Module Sample.

Definition isHexDigit (c : ascii) : bool :=
  let n := nat_of_ascii c in
  (((48 <=? n) && (n <=? 57)) || ((65 <=? n) && (n <=? 70))
   || ((97 <=? n) && (n <=? 102)))%nat.

Fixpoint allHex (s : string) : bool :=
  match s with
  | EmptyString => true
  | String c s' => isHexDigit c && allHex s'
  end.

(** A string of 24 hexadecimal digits: the form every version of the
    driver takes for an ObjectId. *)
Definition isValid (s : string) : bool :=
  (String.length s =? 24)%nat && allHex s.

Definition cast (s : string) : ObjectId := JsString.toLowerCase s.

(** The part of a string before, and after, the first occurrence of a
    character. *)
Fixpoint before (d : ascii) (s : string) : string :=
  match s with
  | EmptyString => EmptyString
  | String c s' => if Ascii.eqb c d then EmptyString else String c (before d s')
  end.

Fixpoint after (d : ascii) (s : string) : option string :=
  match s with
  | EmptyString => None
  | String c s' => if Ascii.eqb c d then Some s' else after d s'
  end.

Fixpoint dropWhile {A} (p : A -> bool) (l : list A) : list A :=
  match l with
  | [] => []
  | x :: l' => if p x then dropWhile p l' else l
  end.

Fixpoint takeWhile {A} (p : A -> bool) (l : list A) : list A :=
  match l with
  | [] => []
  | x :: l' => if p x then x :: takeWhile p l' else []
  end.

Definition isSlash (c : ascii) : bool := (nat_of_ascii c =? 47)%nat.
Definition notSlash (c : ascii) : bool := negb (isSlash c).
Definition notDot (c : ascii) : bool := negb (JsString.isDot c).

(** The last segment of a POSIX path, its characters in reverse; slashes
    at the end of the path do not count. *)
Definition lastSegment (s : string) : list ascii :=
  takeWhile notSlash (dropWhile isSlash (rev (list_ascii_of_string s))).

(** [path.extname] of Node on a POSIX path: the last segment from its last
    dot on; empty when the segment has no dot, when its only dot is its
    first character, and for the segment [..]. *)
Definition extname (s : string) : string :=
  let segment := lastSegment s in
  let suffix := takeWhile notDot segment in
  match dropWhile notDot segment with
  | [] => ""
  | [_] => ""
  | _ :: prefix =>
      match prefix, suffix with
      | [d], [] => if JsString.isDot d then "" else "."
      | _, _ => string_of_list_ascii (rev (suffix ++ ["."%char]))
      end
  end.

(** The segments of a POSIX path, the last one first, each in reverse. *)
Fixpoint segmentsFrom (current : list ascii) (l : list ascii)
  : list (list ascii) :=
  match l with
  | [] => [current]
  | c :: l' =>
      if isSlash c then current :: segmentsFrom [] l'
      else segmentsFrom (c :: current) l'
  end.

Definition isDotFile (segment : list ascii) : bool :=
  match rev segment with
  | c :: _ :: _ => JsString.isDot c
  | _ => false
  end.

(** [res.sendFile] with the default [dotfiles: 'ignore']: a path with a
    segment of two characters or more that starts with a dot is refused
    as not found; the disk of the sample never fails. *)
Definition sendFile (p : string) : option string :=
  if existsb isDotFile (segmentsFrom [] (list_ascii_of_string p))
  then Some "Not Found" else None.

Definition hash (password salt : string) : string := salt ++ "$" ++ password.

Definition compare (password hashed : string) : bool :=
  match after "$"%char hashed with
  | Some p => String.eqb p password
  | None => false
  end.

Definition sign (i : ObjectId) (role : string) (t : Date) : string :=
  i ++ "." ++ role.

Definition verify (token : string) (t : Date) : option AuthUser :=
  match after "."%char token with
  | Some role => Some (mkAuthUser (before "."%char token) role)
  | None => None
  end.

(** models/jobModel.js on a body of strings.  The five texts are trimmed
    and required, and the title and the company hold at most 100
    characters. *)
Definition requiredText (fields : list (string * string)) (path message : string)
    (limit : option (nat * string)) : string * list string :=
  match option_map JsString.trim (lookup path fields) with
  | None => ("", [path ++ ": " ++ message])
  | Some text =>
      if negb (JsString.truthy text) then ("", [path ++ ": " ++ message])
      else match limit with
           | Some (n, tooLong) =>
               if (n <? String.length text)%nat
               then (text, [path ++ ": " ++ tooLong])
               else (text, [])
           | None => (text, [])
           end
  end.

Definition jobTypes : list string :=
  ["full-time"; "part-time"; "contract"; "internship"; "remote"].

(** [jobType]: one of the enum, ['full-time'] when the body has none. *)
Definition jobTypeOf (fields : list (string * string)) : string * list string :=
  match lookup "jobType" fields with
  | None => ("full-time", [])
  | Some t =>
      if existsb (String.eqb t) jobTypes then (t, [])
      else (t, [enumError "jobType" t])
  end.

Definition digit (c : ascii) : option Z :=
  let n := nat_of_ascii c in
  if ((48 <=? n) && (n <=? 57))%nat then Some (Z.of_nat (n - 48)) else None.

Fixpoint digits (value : Z) (s : string) : option Z :=
  match s with
  | EmptyString => Some value
  | String c s' =>
      match digit c with
      | Some d => digits (10 * value + d) s'
      | None => None
      end
  end.

(** The integer a string of decimal digits with an optional sign writes,
    white space around it left out. *)
Definition integer (s : string) : option Z :=
  match JsString.trim s with
  | EmptyString => None
  | String c s' =>
      if (nat_of_ascii c =? 45)%nat
      then if JsString.truthy s' then option_map Z.opp (digits 0 s') else None
      else if (nat_of_ascii c =? 43)%nat
      then if JsString.truthy s' then digits 0 s' else None
      else digits 0 (String c s')
  end.

(** The double nearest to an integer, ties to the even mantissa. *)
Definition toDouble (z : Z) : Z :=
  let a := Z.abs z in
  if (a <=? 2 ^ 53)%Z then z
  else
    let ulp := (2 ^ (Z.log2 a - 52))%Z in
    let q := (a / ulp)%Z in
    let r := (a mod ulp)%Z in
    let q' := if (2 * r <? ulp)%Z then q
              else if (ulp <? 2 * r)%Z then (q + 1)%Z
              else if Z.even q then q else (q + 1)%Z in
    (Z.sgn z * (q' * ulp))%Z.

Definition castError (kind value path : string) : string :=
  path ++ ": Cast to " ++ kind ++ " failed for value " ++ dquote ++ value
       ++ dquote ++ " (type string) at path " ++ dquote ++ path ++ dquote.

(** [applicationCount]: 0 when the body has none.  The sample reads a
    count written as a decimal integer below 2^1024 and turns every other
    text down, also the numerals of JavaScript it does not read (a
    fraction, an exponent, a hexadecimal numeral, the empty string). *)
Definition countOf (fields : list (string * string)) : Z * list string :=
  match lookup "applicationCount" fields with
  | None => (0%Z, [])
  | Some text =>
      match integer text with
      | Some n =>
          if (Z.abs n <? 2 ^ 1024)%Z then (toDouble n, [])
          else (0%Z, [castError "Number" text "applicationCount"])
      | None => (0%Z, [castError "Number" text "applicationCount"])
      end
  end.

(** [skillsRequired]: a text is cast to the array that holds it. *)
Definition skillsOf (fields : list (string * string)) : list string :=
  match lookup "skillsRequired" fields with
  | None => []
  | Some skill => [skill]
  end.

(** [_id] and [postedBy] are cast to ObjectIds; the body may bring its own
    [_id]. *)
Definition idOf (fields : list (string * string)) (generated : ObjectId)
  : ObjectId * list string :=
  match lookup "_id" fields with
  | None => (generated, [])
  | Some text =>
      if isValid text then (cast text, [])
      else (generated, [castError "ObjectId" text "_id"])
  end.

Definition posterOf (poster : string) : ObjectId * list string :=
  if isValid poster then (cast poster, [])
  else (poster, [castError "ObjectId" poster "postedBy"]).

(** [new Job({ ...req.body, postedBy })] followed by the validation of
    the save, on a body without [createdAt] and [updatedAt]; the sample
    turns a body that brings its own timestamps down. *)
Definition buildJob (fields : list (string * string)) (poster i : ObjectId)
    (t : Date) : string + Job :=
  let (title, e1) :=
    requiredText fields "title" "Job title is required"
      (Some (100, "Job title cannot exceed 100 characters")) in
  let (company, e2) :=
    requiredText fields "company" "Company name is required"
      (Some (100, "Company name cannot exceed 100 characters")) in
  let (salary, e3) :=
    requiredText fields "salary" "Salary information is required" None in
  let (location, e4) :=
    requiredText fields "location" "Location is required" None in
  let (description, e5) :=
    requiredText fields "description" "Job description is required" None in
  let (poster, e6) := posterOf poster in
  let (count, e7) := countOf fields in
  let (type, e8) := jobTypeOf fields in
  let (i, e9) := idOf fields i in
  let e10 :=
    match lookup "createdAt" fields, lookup "updatedAt" fields with
    | None, None => []
    | _, _ => ["createdAt: not read by the sample"]
    end in
  match (e9 ++ e6 ++ e7 ++ e1 ++ e2 ++ e3 ++ e4 ++ e5 ++ e8 ++ e10)%list with
  | [] => inr (mkJob i title company salary location description poster count
                     (skillsOf fields) type t t)
  | errors => inl ("Job validation failed: " ++ join ", " errors)
  end.

#[export] Instance platform : Platform := {|
  ObjectId_isValid := isValid;
  castObjectId := cast;
  bcrypt_hash := hash;
  bcrypt_compare := compare;
  jwt_sign := sign;
  jwt_verify := verify;
  path_extname := extname;
  uploadsPath := fun f => "/srv/uploads/" ++ f;
  res_sendFile := sendFile;
  authError := failure 401 "Not authorized";
  forbiddenMessage := "Access denied";
  userSchema_validate := fun _ => None;
  jobSchema_build := buildJob
|}.

Definition acmeId : ObjectId := "aaaaaaaaaaaaaaaaaaaaaaaa".
Definition bitsId : ObjectId := "bbbbbbbbbbbbbbbbbbbbbbbb".
Definition carolId : ObjectId := "cccccccccccccccccccccccc".
Definition jobId1 : ObjectId := "111111111111111111111111".
Definition appId1 : ObjectId := "eeeeeeeeeeeeeeeeeeeeeee1".
Definition appId2 : ObjectId := "eeeeeeeeeeeeeeeeeeeeeee2".

Definition acme : User :=
  mkUser acmeId "Acme" "hr@acme.example" (hash "acme-secret" "s1") "company".
Definition bits : User :=
  mkUser bitsId "Bits" "jobs@bits.example" (hash "bits-secret" "s2") "company".
Definition carol : User :=
  mkUser carolId "Carol" "carol@mail.example" (hash "hunter22" "s3") "jobSeeker".

Definition job1 : Job :=
  mkJob jobId1 "Engineer" "Acme" "100k" "Colombo" "Build things" acmeId 0 []
        "full-time" 5 5.

(** Two companies, a job seeker and one job of the first company. *)
Definition db0 : Db := mkDb [acme; bits; carol] [job1] [].

Definition env0 : Env := mkEnv 10 appId1 "s9" noFault "production".
Definition env1 : Env := mkEnv 11 appId2 "s9" noFault "production".

(** The database refuses the counter update. *)
Definition envNoInc : Env :=
  mkEnv 10 appId1 "s9"
        (fun call => match call with
                     | JobFindByIdAndUpdate => Some "connection lost"
                     | _ => None
                     end)
        "production".

Definition asUser (u : User) : AuthUser := mkAuthUser (user_id u) (user_role u).
Definition tokenOf (u : User) : string := sign (user_id u) (user_role u) 0.

(** The uploaded résumé, the cover letter and the fields of Carol's
    application. *)
Definition cv : File := mkFile "1700000000-cv.pdf".
Definition letter : string := "I would like to apply.".
Definition fields : list (string * string) :=
  [("jobId", jobId1); ("coverLetter", letter)].

(** Carol's submission to the job, as the handler receives it. *)
Definition submission (fields : list (string * string)) : Context :=
  mkContext (mkRequest POST [] (Some (tokenOf carol)) fields (Uploaded (Some cv)))
            [] (Some (asUser carol)) (Some cv).

Definition withLetter : Context := submission fields.

Definition withoutLetter : Context := submission [("jobId", jobId1)].

Definition emptyLetter : Context :=
  submission [("jobId", jobId1); ("coverLetter", "")].

(** The same submission as an HTTP request. *)
Definition submitRequest (fields : list (string * string)) : Request :=
  mkRequest POST [] (Some (tokenOf carol)) fields (Uploaded (Some cv)).

(** A GET request with a bearer token. *)
Definition get (path : list string) (u : User) : Request :=
  mkRequest GET path (Some (tokenOf u)) [] (Uploaded None).

Definition credentials (email password : string) : Context :=
  mkContext (mkRequest POST ["login"] None
                       [("email", email); ("password", password)]
                       (Uploaded None))
            [] None None.

Definition registration (name email password : string) : Context :=
  mkContext (mkRequest POST ["signup"] None
                       [("name", name); ("email", email); ("password", password)]
                       (Uploaded None))
            [] None None.

(** No file is stored. *)
Definition noFiles : Fs := fun _ => false.

End Sample.

(* ===================================================================== *)
(** * routes/applicationRoutes.js: the lists and the status update *)
(* ===================================================================== *)

(** The selected fields of a job populated with 'title company location'. *)
Record JobCard := mkJobCard {
  jc_id : ObjectId; jc_title : string; jc_company : string;
  jc_location : string }.

(** A job populated with 'title company location salary postedBy', its
    [postedBy] populated in turn with 'name'. *)
Record JobPosting := mkJobPosting {
  jp_id : ObjectId; jp_title : string; jp_company : string;
  jp_location : string; jp_salary : string;
  jp_postedBy : option (ObjectId * string) }.

(** A job populated with 'postedBy' alone. *)
Record JobOwner := mkJobOwner { jo_id : ObjectId; jo_postedBy : ObjectId }.

(** An entry of the applicant's own list. *)
Record OwnApplication := mkOwnApplication {
  oa_id : ObjectId;
  oa_job : option JobPosting;
  oa_status : string;
  oa_resume : string;
  oa_createdAt : Date;
  oa_updatedAt : Date
}.

(** The bodies of the three routes when they succeed. *)
Inductive Payload :=
| CompanyApplications (count : nat)
    (applications : list (Application * option JobCard * option UserSummary))
| OwnApplications (count : nat) (applications : list OwnApplication)
| StatusUpdated (message : string) (_id : ObjectId) (status : string)
    (job_id : ObjectId) (job_title : option string) (user : ObjectId).

(** What one of these routes sends: a failure body, or a success with its
    status code. *)
Inductive Reply :=
| Refused (r : Response)
| Answered (code : nat) (payload : Payload).

Definition replyCode (r : Reply) : nat :=
  match r with
  | Refused r => statusCode r
  | Answered code _ => code
  end.

(** [validStatuses] of the status route. *)
Definition validStatuses : list string :=
  ["pending"; "reviewed"; "rejected"; "accepted"].

(** [validStatuses.includes(status)] for a body field. *)
Definition includes (l : list string) (f : option string) : bool :=
  match f with
  | Some s => existsb (String.eqb s) l
  | None => false
  end.

Definition jobCard (j : Job) : JobCard :=
  mkJobCard (job_id j) (title j) (company j) (location j).

Definition jobOwner (j : Job) : JobOwner := mkJobOwner (job_id j) (postedBy j).

Definition jobPosting (db : Db) (j : Job) : JobPosting :=
  mkJobPosting (job_id j) (title j) (company j) (location j) (salary j)
    (option_map (fun u => (user_id u, user_name u))
                (find (hasUserId (postedBy j)) (users db))).

(** The assignment [application.status = status] on a stored document, with
    the [updatedAt] it has or gets: with [timestamps: true] the save of a
    modified document sets [updatedAt]. *)
Definition withStatus (s : string) (t : Date) (a : Application) : Application :=
  mkApplication (app_id a) (app_job a) (app_user a) (resume a) (coverLetter a)
                s (createdAt a) t.

(** The fields the applicant's list keeps of an application found with
    its job. *)
Definition ownApplication (app : Application * option JobPosting)
  : OwnApplication :=
  let (a, job) := app in
  mkOwnApplication (app_id a) job (status a) (resume a) (createdAt a)
                   (updatedAt a).

Section MoreQueries.
Variable env : Env.

(** [Application.find(filter).populate('job', 'title company location')
      .populate('user', 'name email').sort({ createdAt: -1 }).lean()] *)
Definition Application_find_withJobAndUser (filter : Application -> bool)
  : M (list (Application * option JobCard * option UserSummary)) :=
  await env ApplicationFind
    (db <- getDb ;;
     ret (map (fun a =>
                 (a,
                  option_map jobCard (find (hasJobId (app_job a)) (jobs db)),
                  populateUser db (app_user a)))
              (sortNewestFirst createdAt
                 (List.filter filter (applications db))))).

(** [Application.find(filter).populate({ path: 'job', select: ...,
      populate: { path: 'postedBy', select: 'name' } })
      .sort({ createdAt: -1 }).lean()] *)
Definition Application_find_withPosting (filter : Application -> bool)
  : M (list (Application * option JobPosting)) :=
  await env ApplicationFind
    (db <- getDb ;;
     ret (map (fun a =>
                 (a, option_map (jobPosting db)
                       (find (hasJobId (app_job a)) (jobs db))))
              (sortNewestFirst createdAt
                 (List.filter filter (applications db))))).

(** [Application.findById(id).populate('job', 'postedBy')] *)
Definition Application_findById_withOwner (i : ObjectId)
  : M (option (Application * option JobOwner)) :=
  await env ApplicationFindById
    (db <- getDb ;;
     ret (option_map
            (fun a => (a, option_map jobOwner
                            (find (hasJobId (app_job a)) (jobs db))))
            (find (hasAppId i) (applications db)))).

(** [application.save()] on a stored document after
    [application.status = status]: the document as loaded, with the new
    status, is validated against the schema; nothing is written when the
    status is the one stored; otherwise the document with this [_id] gets
    the status and a new [updatedAt]. *)
Definition Application_save_status (a : Application) (s : string) : M unit :=
  await env ApplicationSave
    (match applicationSchema_validate (withStatus s (updatedAt a) a) with
     | Some e => throw e
     | None =>
         if String.eqb (status a) s then ret tt
         else
           db <- getDb ;;
           putDb (mkDb (users db) (jobs db)
                       (updateFirst (hasAppId (app_id a))
                                    (withStatus s (now env))
                                    (applications db)))
     end).

End MoreQueries.

Section MoreApplicationRoutes.
Context {P : Platform}.

(** GET /api/applications/company, the handler after [protect] and
    [roleAuthorization(['company'])]. *)
Definition getCompanyApplications (env : Env) (c : Context) : M Reply :=
  tryCatch
    (u <- reqUser c ;;
     jobs <- Job_find env (fun j => String.eqb (postedBy j) (id u)) ;;
     let jobIds := map job_id jobs in
     applications <-
       Application_find_withJobAndUser env
         (fun a => existsb (String.eqb (app_job a)) jobIds) ;;
     ret (Answered 200
            (CompanyApplications (length applications) applications)))
    (fun error =>
       ret (Refused (mkResponse 500
                       (Failure "Server error fetching applications"
                                (devError env error))))).

(** GET /api/applications/my, the handler after [protect] and
    [roleAuthorization(['jobSeeker'])]. *)
Definition getMyApplications (env : Env) (c : Context) : M Reply :=
  tryCatch
    (u <- reqUser c ;;
     applications <-
       Application_find_withPosting env
         (fun a => String.eqb (app_user a) (id u)) ;;
     ret (Answered 200
            (OwnApplications (length applications)
                             (map ownApplication applications))))
    (fun error =>
       ret (Refused (mkResponse 500
                       (Failure "Server error fetching your applications"
                                (devError env error))))).

(** PUT /api/applications/:id/status, the handler after [protect] and
    [roleAuthorization(['company'])].  The job is populated with its
    [postedBy] alone, so the [title] the answer reads of it is undefined. *)
Definition updateApplicationStatus (env : Env) (c : Context) : M Reply :=
  tryCatch
    (let id' := JsString.orEmpty (param c "id") in
     let status := bodyField c "status" in
     if negb (includes validStatuses status)
     then ret (Refused (failure 400 "Invalid status value"))
     else
     let status := JsString.orEmpty status in
     identifier applicationRoutes_scope "mongoose" ;;;
     if negb (ObjectId_isValid id')
     then ret (Refused (failure 400 "Invalid application ID format"))
     else
     application <- Application_findById_withOwner env (castObjectId id') ;;
     match application with
     | None => ret (Refused (failure 404 "Application not found"))
     | Some (application, job) =>
         match job with
         | None => throw "Cannot read properties of null (reading 'postedBy')"
         | Some job =>
             u <- reqUser c ;;
             if negb (String.eqb (jo_postedBy job) (id u))
             then ret (Refused
                         (failure 403 "Not authorized to update this application"))
             else
               Application_save_status env application status ;;;
               ret (Answered 200
                      (StatusUpdated "Application status updated"
                         (app_id application) status (jo_id job) None
                         (app_user application)))
         end
     end)
    (fun error =>
       ret (Refused (mkResponse 500
                       (Failure "Server error updating application status"
                                (devError env error))))).

End MoreApplicationRoutes.

(* ===================================================================== *)
(** * Requests in flight *)
(* ===================================================================== *)

(** A handler is an async function: it runs until it awaits an operation
    of the database and goes on when the operation has answered; in
    between, the operations that other requests wait for reach the
    database.  A request in flight is what its handler has answered, what
    it has thrown, or the operation it waits for together with what it
    does with the outcome. *)
Inductive Task (A : Type) : Type :=
| Finished (a : A)
| Failed (errorMessage : string)
| Awaiting (X : Type) (operation : M X) (resume : Completion X -> Task A).
Arguments Finished {A} a.
Arguments Failed {A} errorMessage.
Arguments Awaiting {A X} operation resume.

(** [await operation]: a rejected promise is thrown where it is awaited. *)
Definition awaitT {X} (operation : M X) : Task X :=
  Awaiting operation
    (fun outcome =>
       match outcome with
       | Normal x => Finished x
       | Thrown e => Failed e
       end).

Fixpoint thenT {A B} (t : Task A) (k : A -> Task B) : Task B :=
  match t with
  | Finished a => k a
  | Failed e => Failed e
  | Awaiting operation resume =>
      Awaiting operation (fun outcome => thenT (resume outcome) k)
  end.

(** [try { body } catch (error) { handler(error.message) }] around a body
    that awaits. *)
Fixpoint tryCatchT {A} (body : Task A) (handler : string -> Task A) : Task A :=
  match body with
  | Finished a => Finished a
  | Failed e => handler e
  | Awaiting operation resume =>
      Awaiting operation (fun outcome => tryCatchT (resume outcome) handler)
  end.

Declare Scope task_scope.
Delimit Scope task_scope with task.
Notation "x <- t ;; k" := (thenT t (fun x => k))
  (at level 61, t at next level, right associativity) : task_scope.
Notation "t ;;; k" := (thenT t (fun _ => k))
  (at level 61, right associativity) : task_scope.

(** [req.user] and an identifier of the module, read between two awaits. *)
Definition reqUserT (c : Context) : Task AuthUser :=
  match req_user c with
  | Some u => Finished u
  | None => Failed "Cannot read properties of undefined (reading 'id')"
  end.

Definition identifierT (scope : list string) (x : string) : Task unit :=
  if existsb (String.eqb x) scope then Finished tt
  else Failed (x ++ " is not defined").

(** A handler served without another request in between. *)
Fixpoint atomically {A} (t : Task A) : M A :=
  match t with
  | Finished a => ret a
  | Failed e => throw e
  | Awaiting operation resume =>
      fun db => let (outcome, db') := operation db in
                atomically (resume outcome) db'
  end.

(** One turn of a request in flight: the operation it waits for runs on
    the database as it is now, and the handler goes on to its next await
    or to its answer. *)
Definition turn {A} (t : Task A) (db : Db) : Task A * Db :=
  match t with
  | Awaiting operation resume =>
      let (outcome, db') := operation db in (resume outcome, db')
  | _ => (t, db)
  end.

(** The turn of the request at a position among the requests in flight. *)
Fixpoint turnOf {A} (n : nat) (ts : list (Task A)) (db : Db)
  : list (Task A) * Db :=
  match ts, n with
  | [], _ => ([], db)
  | t :: ts', O => let (t', db') := turn t db in (t' :: ts', db')
  | t :: ts', S n' => let (ts'', db') := turnOf n' ts' db in (t :: ts'', db')
  end.

(** The requests in flight take their turns in the order of a schedule. *)
Fixpoint interleave {A} (schedule : list nat) (ts : list (Task A)) (db : Db)
  : list (Task A) * Db :=
  match schedule with
  | [] => (ts, db)
  | n :: schedule' =>
      let (ts', db') := turnOf n ts db in interleave schedule' ts' db'
  end.

(** An invariant of the database that every operation a request may still
    wait for keeps. *)
Fixpoint keepsInvariant {A} (I : Db -> Prop) (t : Task A) : Prop :=
  match t with
  | Finished _ => True
  | Failed _ => True
  | Awaiting operation resume =>
      (forall db, I db -> I (snd (operation db)))
      /\ forall outcome, keepsInvariant I (resume outcome)
  end.

Section InFlight.
Context {P : Platform}.

(** POST /api/applications, the handler of [submitApplication] with its
    awaits: the lookup of the job, the lookup of an earlier application,
    the save, the counter update and the read of the new document. *)
Definition submitSteps (env : Env) (c : Context) : Task Response :=
  tryCatchT
    (let jobId := bodyField c "jobId" in
     let coverLetter := bodyField c "coverLetter" in
     match req_file c with
     | None => Finished (failure 400 "Resume file is required")
     | Some file =>
     if negb (JsString.truthyField jobId)
     then Finished (failure 400 "Job ID is required")
     else
     let jobId := JsString.orEmpty jobId in
     identifierT applicationRoutes_scope "mongoose" ;;;
     if negb (ObjectId_isValid jobId)
     then Finished (failure 400 "Invalid job ID format")
     else
     job <- awaitT (Job_findById env (castObjectId jobId)) ;;
     match job with
     | None => Finished (failure 404 "Job not found")
     | Some _ =>
     u <- reqUserT c ;;
     existingApplication <-
       awaitT (Application_findOne env
                 (fun a => String.eqb (app_job a) (castObjectId jobId)
                           && String.eqb (app_user a) (id u))) ;;
     match existingApplication with
     | Some _ => Finished (failure 400 "You have already applied for this job")
     | None =>
     let application :=
       newApplication env (castObjectId jobId) (id u) (filename file)
                      (JsString.orDefault coverLetter "") "pending" in
     awaitT (Application_save env application) ;;;
     awaitT (Job_findByIdAndUpdate_inc env (castObjectId jobId)) ;;;
     populatedApplication <-
       awaitT (Application_findById_populated env (app_id application)) ;;
     match populatedApplication with
     | None => Failed "Cannot read properties of null (reading '_id')"
     | Some (a, job, user) =>
         Finished
           (mkResponse 201
              (ApplicationSubmitted "Application submitted successfully"
                 (app_id a) (resume a) job user (status a) (createdAt a)))
     end
     end
     end
     end)%task
    (fun error =>
       Finished
         (mkResponse 500
            (Failure "Server error during application submission"
                     (devError env error)))).

(** PUT /api/applications/:id/status, the handler of
    [updateApplicationStatus] with its awaits: the lookup of the
    application and the save. *)
Definition statusSteps (env : Env) (c : Context) : Task Reply :=
  tryCatchT
    (let id' := JsString.orEmpty (param c "id") in
     let status := bodyField c "status" in
     if negb (includes validStatuses status)
     then Finished (Refused (failure 400 "Invalid status value"))
     else
     let status := JsString.orEmpty status in
     identifierT applicationRoutes_scope "mongoose" ;;;
     if negb (ObjectId_isValid id')
     then Finished (Refused (failure 400 "Invalid application ID format"))
     else
     application <-
       awaitT (Application_findById_withOwner env (castObjectId id')) ;;
     match application with
     | None => Finished (Refused (failure 404 "Application not found"))
     | Some (application, job) =>
         match job with
         | None => Failed "Cannot read properties of null (reading 'postedBy')"
         | Some job =>
             u <- reqUserT c ;;
             if negb (String.eqb (jo_postedBy job) (id u))
             then Finished
                    (Refused
                       (failure 403 "Not authorized to update this application"))
             else
               awaitT (Application_save_status env application status) ;;;
               Finished
                 (Answered 200
                    (StatusUpdated "Application status updated"
                       (app_id application) status (jo_id job) None
                       (app_user application)))
         end
     end)%task
    (fun error =>
       Finished
         (Refused (mkResponse 500
                     (Failure "Server error updating application status"
                              (devError env error))))).

(** The turns of two submissions in flight, the first at position 0, in
    which both look the job and an earlier application up before either
    saves. *)
Definition overlapping : list nat := [0; 0; 1; 1; 0; 0; 0; 1; 1; 1].

End InFlight.

(* ===================================================================== *)
(** * Properties of the stores, continued *)
(* ===================================================================== *)

(** Every stored application has a status of the enum. *)
Definition statusesValid (db : Db) : Prop :=
  forall a, In a (applications db) ->
            existsb (String.eqb (status a)) statusEnum = true.

(** The stored applications of a job. *)
Definition applicationsFor (db : Db) (j : ObjectId) : list Application :=
  List.filter (fun a => String.eqb (app_job a) j) (applications db).


(** Every job counts the applications stored for it. *)
Definition countsExact (db : Db) : Prop :=
  forall j, In j (jobs db) ->
            applicationCount j = Z.of_nat (length (applicationsFor db (job_id j))).

(** The jobs have distinct identifiers. *)
Definition jobIdsDistinct (db : Db) : Prop := NoDup (map job_id (jobs db)).

(** The users have distinct emails. *)
Definition emailsDistinct (db : Db) : Prop := NoDup (map user_email (users db)).

(** Newest first. *)
Definition newestFirst {A} (key : A -> Date) (l : list A) : Prop :=
  StronglySorted (fun x y => key y <= key x) l.

(** Two versions of an application that agree on everything but the status
    and the time of the last update. *)
Definition sameApplicationButStatus (a a' : Application) : Prop :=
  app_id a' = app_id a /\ app_job a' = app_job a /\ app_user a' = app_user a
  /\ resume a' = resume a /\ coverLetter a' = coverLetter a
  /\ createdAt a' = createdAt a.

(** No character of the string is white space. *)
Fixpoint noWhiteSpace (s : string) : bool :=
  match s with
  | EmptyString => true
  | String c s' => negb (JsString.isWhiteSpace c) && noWhiteSpace s'
  end.

(** A computation that leaves every database as it finds it. *)
Definition readOnly {A} (m : M A) : Prop :=
  forall db, stateAfter m db = db.

(** A computation whose values all satisfy [Q] and whose thrown errors all
    satisfy [T], from whatever database it starts. *)
Definition completesWith {A} (m : M A) (Q : A -> Prop) (T : string -> Prop)
  : Prop :=
  forall db,
    match completion m db with
    | Normal a => Q a
    | Thrown e => T e
    end.

(** What a later database keeps of an earlier one: the users; every job,
    in place, with a count that is not lower; every application, in place,
    up to its status, with new applications only after them. *)
Definition keeps (db db' : Db) : Prop :=
  users db' = users db
  /\ Forall2 (fun j j' => sameJobButCount j j'
                          /\ (applicationCount j <= applicationCount j')%Z)
             (jobs db) (jobs db')
  /\ exists old more,
       applications db' = (old ++ more)%list
       /\ Forall2 sameApplicationButStatus (applications db) old.

(** A request of the application workflow: a submission or a status
    update, as its handler receives it. *)
Inductive WorkflowRequest :=
| Submission (c : Context)
| StatusUpdate (c : Context).

Section Workflow.
Context {P : Platform}.

Definition workflowStep (env : Env) (w : WorkflowRequest) (db : Db) : Db :=
  match w with
  | Submission c => stateAfter (submitApplication env c) db
  | StatusUpdate c => stateAfter (updateApplicationStatus env c) db
  end.

(** A sequence of workflow requests, each with the environment it is
    served in. *)
Fixpoint workflow (rs : list (Env * WorkflowRequest)) (db : Db) : Db :=
  match rs with
  | [] => db
  | (env, w) :: rs' => workflow rs' (workflowStep env w db)
  end.

(** A workflow request in flight. *)
Definition workflowTask (r : Env * WorkflowRequest)
  : Task (Response + Reply) :=
  match r with
  | (env, Submission c) =>
      (answer <- submitSteps env c ;; Finished (inl answer))%task
  | (env, StatusUpdate c) =>
      (answer <- statusSteps env c ;; Finished (inr answer))%task
  end.

End Workflow.

Section Signups.
Context {P : Platform}.

(** A sequence of requests to POST /api/auth/signup, each with the
    environment it is served in. *)
Fixpoint signups (rs : list (Env * Context)) (db : Db) : Db :=
  match rs with
  | [] => db
  | (env, c) :: rs' =>
      signups rs' (stateAfter (runStack env (route_stack signupRoute) c) db)
  end.

End Signups.

Module MoreSamples.
Import Sample.

(** Carol's application to the job of Acme, stored and counted. *)
Definition application1 : Application :=
  mkApplication appId1 jobId1 carolId "1700000000-cv.pdf" letter "pending"
                10 10.

Definition job1counted : Job :=
  mkJob jobId1 "Engineer" "Acme" "100k" "Colombo" "Build things" acmeId 1 []
        "full-time" 5 10.

Definition db1 : Db := mkDb [acme; bits; carol] [job1counted] [application1].

Definition env2 : Env := mkEnv 20 appId2 "s9" noFault "production".

(** Every database operation fails. *)
Definition envDown : Env :=
  mkEnv 20 appId2 "s9" (fun _ => Some "connection lost") "production".

(** A request of a user as a handler behind [protect] receives it. *)
Definition asked (u : User) (ps fields : list (string * string)) : Context :=
  mkContext (mkRequest GET [] (Some (tokenOf u)) fields (Uploaded None))
            ps (Some (asUser u)) None.

(** The same with an uploaded file. *)
Definition askedWith (u : User) (ps fields : list (string * string))
    (file : File) : Context :=
  mkContext (mkRequest POST [] (Some (tokenOf u)) fields (Uploaded (Some file)))
            ps (Some (asUser u)) (Some file).

(** A status update as the handler behind [protect] receives it. *)
Definition statusRequest (u : User) (i s : string) : Context :=
  mkContext (mkRequest PUT [i; "status"] (Some (tokenOf u)) [("status", s)]
                       (Uploaded None))
            [("id", i)] (Some (asUser u)) None.

(** A posting as the handler behind [protect] and the role check receives
    it, and a body that the job schema takes. *)
Definition posting (u : User) (fields : list (string * string)) : Context :=
  mkContext (mkRequest POST [] (Some (tokenOf u)) fields (Uploaded None))
            [] (Some (asUser u)) None.

Definition developer : list (string * string) :=
  [("title", "Developer"); ("company", "Acme"); ("salary", "90k");
   ("location", "Kandy"); ("description", "Write code")].

(** An application whose résumé is a dot file, and the disk that holds the
    file. *)
Definition hiddenCv : Application :=
  mkApplication appId2 jobId1 carolId ".cv.pdf" letter "pending" 12 12.

Definition db2 : Db :=
  mkDb [acme; bits; carol] [job1counted] [application1; hiddenCv].

Definition storedHidden : Fs :=
  fun p => String.eqb p "/srv/uploads/.cv.pdf".

(** The résumé of Carol's application is stored. *)
Definition stored : Fs := fun p => String.eqb p "/srv/uploads/1700000000-cv.pdf".

(** Carol applies, Acme accepts, Carol applies again. *)
Definition story : list (Env * WorkflowRequest) :=
  [ (env0, Submission withLetter);
    (env2, StatusUpdate (statusRequest acme appId1 "accepted"));
    (env1, Submission withLetter) ].

(** The three requests of the story in flight: Carol's two submissions
    make their lookups before either saves, and Acme's update comes
    between the two saves. *)
Definition storyTurns : list nat := [0; 0; 2; 2; 0; 0; 0; 1; 1; 2; 2; 2].

End MoreSamples.

(* ===================================================================== *)
(** * Trimming *)
(* ===================================================================== *)

Module TrimFacts.
Import JsString.

Lemma trimStart_all_ws (ws : string) :
  allWhiteSpace ws = true -> trimStart ws = "".
Proof.
  induction ws as [|c ws IH]; simpl; [reflexivity|].
  intros H. apply andb_prop in H as [Hc Hws]. rewrite Hc. auto.
Qed.

Lemma trimEnd_all_ws (ws : string) :
  allWhiteSpace ws = true -> trimEnd ws = "".
Proof.
  induction ws as [|c ws IH]; simpl; [reflexivity|].
  intros H. apply andb_prop in H as [Hc Hws].
  rewrite (IH Hws), Hc. reflexivity.
Qed.

Lemma trimStart_skip (ws s : string) :
  allWhiteSpace ws = true -> trimStart (ws ++ s) = trimStart s.
Proof.
  induction ws as [|c ws IH]; simpl; [reflexivity|].
  intros H. apply andb_prop in H as [Hc Hws]. rewrite Hc. auto.
Qed.

Lemma trimEnd_skip (s ws : string) :
  allWhiteSpace ws = true -> trimEnd (s ++ ws) = trimEnd s.
Proof.
  intros Hws. induction s as [|c s IH]; simpl.
  - apply trimEnd_all_ws, Hws.
  - rewrite IH. reflexivity.
Qed.

(** Trailing white space stays behind what [trimStart] keeps, unless
    nothing is kept. *)
Lemma trimStart_keeps_tail (s ws : string) :
  allWhiteSpace ws = true ->
  trimStart (s ++ ws) = trimStart s ++ ws
  \/ (trimStart s = "" /\ trimStart (s ++ ws) = "").
Proof.
  intros Hws. induction s as [|c s IH]; simpl.
  - right. split; [reflexivity | apply trimStart_all_ws, Hws].
  - destruct (isWhiteSpace c); [exact IH | left; reflexivity].
Qed.

(** White space around a string does not survive [trim]. *)
Lemma trim_padded (ws1 p ws2 : string) :
  allWhiteSpace ws1 = true -> allWhiteSpace ws2 = true ->
  trim (ws1 ++ p ++ ws2) = trim p.
Proof.
  intros H1 H2. unfold trim. rewrite (trimStart_skip _ _ H1).
  destruct (trimStart_keeps_tail p ws2 H2) as [E | [E1 E2]].
  - rewrite E. apply trimEnd_skip, H2.
  - rewrite E1, E2. reflexivity.
Qed.

Lemma truthy_toLowerCase (s : string) : truthy (toLowerCase s) = truthy s.
Proof. destruct s; reflexivity. Qed.

Lemma trim_all_ws (ws : string) : allWhiteSpace ws = true -> trim ws = "".
Proof. intros H. unfold trim. rewrite (trimStart_all_ws _ H). reflexivity. Qed.

Lemma length_app (a b : string) :
  String.length (a ++ b) = String.length a + String.length b.
Proof. induction a as [|c a IH]; simpl; [reflexivity | now rewrite IH]. Qed.

End TrimFacts.

(* ===================================================================== *)
(** * The email pattern *)
(* ===================================================================== *)

Module RegexFacts.
Import JsString.

Lemma allLocal_app (a b : string) :
  allLocal (a ++ b) = allLocal a && allLocal b.
Proof.
  induction a as [|x a IH]; simpl; [reflexivity|].
  now rewrite IH, andb_assoc.
Qed.

Lemma hasInnerDot_cons (x y : ascii) (s : string) :
  hasInnerDot (String x (String y s))
  = match s with
    | EmptyString => false
    | _ => isDot y || hasInnerDot (String y s)
    end.
Proof. destruct s; reflexivity. Qed.

Lemma isDot_spec (c : ascii) : isDot c = true <-> c = "."%char.
Proof.
  unfold isDot. rewrite Nat.eqb_eq. split.
  - intros E. rewrite <- (ascii_nat_embedding c), E. reflexivity.
  - intros ->. reflexivity.
Qed.

Lemma isAt_spec (c : ascii) : isAt c = true <-> c = "@"%char.
Proof.
  unfold isAt. rewrite Nat.eqb_eq. split.
  - intros E. rewrite <- (ascii_nat_embedding c), E. reflexivity.
  - intros ->. reflexivity.
Qed.

(** A dot with a character before it and one after it splits the string. *)
Lemma hasInnerDot_split (s : string) :
  hasInnerDot s = true ->
  exists b c, s = b ++ "." ++ c /\ b <> "" /\ c <> "".
Proof.
  induction s as [|x s IH]; [discriminate|].
  destruct s as [|y s]; [discriminate|].
  rewrite hasInnerDot_cons. destruct s as [|z s]; [discriminate|].
  intros H. apply orb_prop in H as [D | H].
  - apply isDot_spec in D. subst y.
    exists (String x ""), (String z s). repeat split; discriminate.
  - destruct (IH H) as (b & c & E & Nb & Nc).
    exists (String x b), c. simpl. rewrite E.
    repeat split; [discriminate | exact Nc].
Qed.

Lemma hasInnerDot_join (b c : string) :
  b <> "" -> c <> "" -> hasInnerDot (b ++ "." ++ c) = true.
Proof.
  intros Nb Nc. induction b as [|x b IH]; [congruence|].
  destruct b as [|y b].
  - destruct c; [congruence | reflexivity].
  - change (String x (String y b) ++ "." ++ c)
      with (String x (String y (b ++ "." ++ c))).
    rewrite hasInnerDot_cons.
    assert (T : hasInnerDot (String y (b ++ "." ++ c)) = true)
      by (apply IH; discriminate).
    destruct (b ++ "." ++ c) eqn:E.
    + destruct b; discriminate.
    + rewrite T. apply orb_true_r.
Qed.

Lemma domainPart_spec (r : string) :
  domainPart r = true
  <-> exists b c, r = b ++ "." ++ c /\ b <> "" /\ c <> ""
                  /\ allLocal b = true /\ allLocal c = true.
Proof.
  unfold domainPart. split.
  - intros H. apply andb_prop in H as [L D].
    destruct (hasInnerDot_split r D) as (b & c & -> & Nb & Nc).
    rewrite !allLocal_app in L.
    apply andb_prop in L as [Lb L]. apply andb_prop in L as [_ Lc].
    exists b, c. auto.
  - intros (b & c & -> & Nb & Nc & Lb & Lc).
    rewrite !allLocal_app, Lb, Lc, hasInnerDot_join by assumption.
    reflexivity.
Qed.

Lemma localThenDomain_spec (seen : bool) (s : string) :
  localThenDomain seen s = true
  <-> exists a r, s = a ++ "@" ++ r /\ allLocal a = true
                  /\ (seen = true \/ a <> "") /\ domainPart r = true.
Proof.
  revert seen. induction s as [|x s IH]; intros seen; simpl.
  - split; [discriminate|]. intros (a & r & E & _). destruct a; discriminate.
  - destruct (isAt x) eqn:A.
    + apply isAt_spec in A. subst x. split.
      * intros H. apply andb_prop in H as [S D].
        exists "", s. auto.
      * intros (a & r & E & L & N & D). destruct a as [|y a].
        -- simpl in E. inversion E; subst.
           destruct N as [-> | N]; [exact D | congruence].
        -- simpl in E. inversion E; subst. simpl in L. discriminate.
    + destruct (isWhiteSpace x) eqn:W.
      * split; [discriminate|]. intros (a & r & E & L & _).
        destruct a as [|y a]; simpl in E; inversion E; subst.
        -- rewrite (proj2 (isAt_spec "@"%char) eq_refl) in A. discriminate.
        -- simpl in L. unfold isLocalChar in L. rewrite W in L. discriminate.
      * rewrite IH. split.
        -- intros (a & r & -> & L & _ & D). exists (String x a), r.
           simpl. unfold isLocalChar. rewrite W, A, L.
           repeat split; auto. right. discriminate.
        -- intros (a & r & E & L & _ & D).
           destruct a as [|y a]; simpl in E; inversion E; subst.
           ++ rewrite (proj2 (isAt_spec "@"%char) eq_refl) in A. discriminate.
           ++ simpl in L. apply andb_prop in L as [_ L]. exists a, r. auto.
Qed.

(** The test accepts exactly the strings of the shape the regular
    expression describes. *)
Lemma emailRegex_test_spec (s : string) :
  emailRegex_test s = true <-> emailShape s.
Proof.
  unfold emailRegex_test, emailShape. rewrite localThenDomain_spec. split.
  - intros (a & r & -> & L & [F | N] & D); [discriminate|].
    apply domainPart_spec in D as (b & c & -> & Nb & Nc & Lb & Lc).
    exists a, b, c. auto 10.
  - intros (a & b & c & -> & Na & Nb & Nc & La & Lb & Lc).
    exists a, (b ++ "." ++ c). repeat split; auto.
    apply domainPart_spec. exists b, c. auto.
Qed.

End RegexFacts.

(* ===================================================================== *)
(** * Authentication *)
(* ===================================================================== *)

(** Unfolding of the monad, for symbolic runs. *)
Ltac run :=
  unfold tryCatch, bind, await, getDb, putDb, ret, throw, respond, next,
    handle in *.

(** Case analysis on the tests a run is stuck on. *)
Ltac branches :=
  repeat match goal with
         | |- context [if ?b then _ else _] => destruct b
         end.

Ltac same_completion :=
  repeat match goal with
         | H : Normal _ = Normal _ |- _ => inversion H; subst; clear H
         end.

Section AuthFacts.
Context {P : Platform}.
Import JsString TrimFacts.

(** The lookup of login, with the database available. *)
Lemma User_findOne_run (env : Env) (e : string) (db : Db) :
  fault env UserFindOne = None ->
  User_findOne env e db
  = (Normal (find (fun u => String.eqb (user_email u) e) (users db)), db).
Proof. intros F. unfold User_findOne. run. rewrite F. reflexivity. Qed.

(** What login does with the fields of the body: only their trimmed forms
    matter. *)
Lemma login_fields (env : Env) (c c' : Context) (db : Db) :
  option_map trim (bodyField c' "email") = option_map trim (bodyField c "email") ->
  option_map trim (bodyField c' "password")
  = option_map trim (bodyField c "password") ->
  login env c' db = login env c db.
Proof.
  intros He Hp. unfold login, optTrim. rewrite He, Hp. reflexivity.
Qed.

(** A login that reaches the credential check and fails there. *)
Lemma login_no_user (env : Env) (c : Context) (db : Db) (e p : string) :
  bodyField c "email" = Some e -> bodyField c "password" = Some p ->
  truthy (trim e) = true -> truthy (trim p) = true ->
  fault env UserFindOne = None ->
  find (fun v => String.eqb (user_email v) (toLowerCase (trim e))) (users db)
  = None ->
  login env c db = (Normal (failure 400 "Invalid credentials"), db).
Proof.
  intros He Hp Te Tp F N. unfold login, optTrim. rewrite He, Hp. simpl.
  rewrite truthy_toLowerCase, Te, Tp. simpl.
  unfold tryCatch, bind. rewrite (User_findOne_run _ _ _ F), N. reflexivity.
Qed.

Lemma login_bad_password (env : Env) (c : Context) (db : Db) (e p : string)
    (u : User) :
  bodyField c "email" = Some e -> bodyField c "password" = Some p ->
  truthy (trim e) = true -> truthy (trim p) = true ->
  fault env UserFindOne = None ->
  find (fun v => String.eqb (user_email v) (toLowerCase (trim e))) (users db)
  = Some u ->
  bcrypt_compare (trim p) (user_password u) = false ->
  login env c db = (Normal (failure 400 "Invalid credentials"), db).
Proof.
  intros He Hp Te Tp F S C. unfold login, optTrim. rewrite He, Hp. simpl.
  rewrite truthy_toLowerCase, Te, Tp. simpl.
  unfold tryCatch, bind. rewrite (User_findOne_run _ _ _ F), S.
  destruct (truthy (user_password u)); simpl; [|reflexivity].
  rewrite C. reflexivity.
Qed.

(** C8: a failed login for an email that matches no user and a failed
    login for an existing email with a password that does not verify get
    the same response, status 400 with the message 'Invalid credentials',
    and neither changes the database. *)
Theorem login_failures_indistinguishable
    (env1 env2 : Env) (c1 c2 : Context) (db : Db)
    (e1 p1 e2 p2 : string) (u : User) :
  bodyField c1 "email" = Some e1 -> bodyField c1 "password" = Some p1 ->
  bodyField c2 "email" = Some e2 -> bodyField c2 "password" = Some p2 ->
  truthy (trim e1) = true -> truthy (trim p1) = true ->
  truthy (trim e2) = true -> truthy (trim p2) = true ->
  fault env1 UserFindOne = None -> fault env2 UserFindOne = None ->
  find (fun v => String.eqb (user_email v) (toLowerCase (trim e1))) (users db)
  = None ->
  find (fun v => String.eqb (user_email v) (toLowerCase (trim e2))) (users db)
  = Some u ->
  bcrypt_compare (trim p2) (user_password u) = false ->
  login env1 c1 db = (Normal (failure 400 "Invalid credentials"), db)
  /\ login env2 c2 db = (Normal (failure 400 "Invalid credentials"), db)
  /\ completion (login env1 c1) db = completion (login env2 c2) db.
Proof.
  intros He1 Hp1 He2 Hp2 Te1 Tp1 Te2 Tp2 F1 F2 N S C.
  pose proof (login_no_user env1 c1 db e1 p1 He1 Hp1 Te1 Tp1 F1 N) as L1.
  pose proof (login_bad_password env2 c2 db e2 p2 u He2 Hp2 Te2 Tp2 F2 S C)
    as L2.
  unfold completion. rewrite L1, L2. auto.
Qed.

(** Whatever the database holds, a login that does not succeed is answered
    from the request alone. *)
Lemma login_failure_from_request (env : Env) (c : Context) (db1 db2 : Db)
    (r1 r2 : Response) :
  fault env UserFindOne = None ->
  completion (login env c) db1 = Normal r1 ->
  completion (login env c) db2 = Normal r2 ->
  statusCode r1 <> 200 -> statusCode r2 <> 200 -> r1 = r2.
Proof.
  intros F. unfold completion, login, tryCatch, bind.
  destruct (negb _ || negb _); [simpl; congruence|].
  rewrite !(User_findOne_run _ _ _ F).
  destruct (find _ (users db1)); destruct (find _ (users db2));
    branches; simpl; intros; same_completion; simpl in *; congruence.
Qed.

(** Login with a password and with the same password inside white space. *)
Lemma login_padded (env : Env) (c c' : Context) (db : Db) (p ws1 ws2 : string) :
  allWhiteSpace ws1 = true -> allWhiteSpace ws2 = true ->
  bodyField c' "email" = bodyField c "email" ->
  bodyField c "password" = Some p ->
  bodyField c' "password" = Some (ws1 ++ p ++ ws2) ->
  login env c' db = login env c db.
Proof.
  intros W1 W2 He Hp Hp'. apply login_fields.
  - now rewrite He.
  - rewrite Hp, Hp'. simpl. now rewrite trim_padded.
Qed.

(** The signup handler with a password and with the same password inside
    white space. *)
Lemma signup_padded (env : Env) (c c' : Context) (db : Db) (p ws1 ws2 : string) :
  allWhiteSpace ws1 = true -> allWhiteSpace ws2 = true ->
  bodyField c' "name" = bodyField c "name" ->
  bodyField c' "email" = bodyField c "email" ->
  bodyField c' "role" = bodyField c "role" ->
  bodyField c "password" = Some p ->
  bodyField c' "password" = Some (ws1 ++ p ++ ws2) ->
  signup env c' db = signup env c db.
Proof.
  intros W1 W2 Hn He Hr Hp Hp'. unfold signup.
  rewrite Hn, He, Hr, Hp, Hp'. unfold method at 3 6. unfold tryCatch, bind.
  destruct (method (bodyField c "name") "trim" db) as [[n|e] db1];
    [|reflexivity].
  destruct (method (bodyField c "email") "trim" db1) as [[m|e] db2];
    [|reflexivity].
  unfold ret. rewrite (trim_padded _ _ _ W1 W2). reflexivity.
Qed.

(** The validation in front of signup measures the password as sent. *)
Lemma validateSignup_accepts (env : Env) (c : Context) (db : Db)
    (n e p : string) :
  bodyField c "name" = Some n -> bodyField c "email" = Some e ->
  bodyField c "password" = Some p ->
  truthy n = true -> emailRegex_test e = true -> 6 <= String.length p ->
  validateSignup env c db = (Normal (inr c), db).
Proof.
  intros Hn He Hp Tn Te L. unfold validateSignup. rewrite Hn, He, Hp. simpl.
  rewrite Tn, Te.
  assert (truthy e = true) as ->.
  { destruct e; [discriminate Te | reflexivity]. }
  assert (truthy p = true) as ->.
  { destruct p; [simpl in L; lia | reflexivity]. }
  simpl. destruct (Nat.ltb_spec (String.length p) 6); [lia | reflexivity].
Qed.

Lemma validateSignup_short (env : Env) (c : Context) (db : Db)
    (n e p : string) :
  bodyField c "name" = Some n -> bodyField c "email" = Some e ->
  bodyField c "password" = Some p ->
  truthy n = true -> emailRegex_test e = true ->
  truthy p = true -> String.length p < 6 ->
  validateSignup env c db
  = (Normal (inl (failure 400 "Password must be at least 6 characters")), db).
Proof.
  intros Hn He Hp Tn Te Tp L. unfold validateSignup. rewrite Hn, He, Hp. simpl.
  rewrite Tn, Te, Tp.
  assert (truthy e = true) as ->.
  { destruct e; [discriminate Te | reflexivity]. }
  simpl. destruct (Nat.ltb_spec (String.length p) 6); [reflexivity | lia].
Qed.

(** The two layers of the signup route, run one after the other. *)
Lemma signupRoute_run (env : Env) (c : Context) (db : Db) :
  runStack env (route_stack signupRoute) c db
  = match validateSignup env c db with
    | (Normal (inl r), d) => (Normal (inl r), d)
    | (Normal (inr c'), d) =>
        match signup env c' d with
        | (Normal r, d') => (Normal (inl r), d')
        | (Thrown e, d') => (Thrown e, d')
        end
    | (Thrown e, d) => (Thrown e, d)
    end.
Proof.
  simpl. unfold bind at 1.
  destruct (validateSignup env c db) as [[[r|c']|e] d]; try reflexivity.
  unfold handle, bind. destruct (signup env c' d) as [[r|e] d']; reflexivity.
Qed.

(** The signup route with a password of six characters or more and with
    the same password inside white space. *)
Lemma signupRoute_padded (env : Env) (c c' : Context) (db : Db)
    (p ws1 ws2 : string) :
  allWhiteSpace ws1 = true -> allWhiteSpace ws2 = true ->
  bodyField c' "name" = bodyField c "name" ->
  bodyField c' "email" = bodyField c "email" ->
  bodyField c' "role" = bodyField c "role" ->
  bodyField c "password" = Some p ->
  bodyField c' "password" = Some (ws1 ++ p ++ ws2) ->
  6 <= String.length p ->
  runStack env (route_stack signupRoute) c' db
  = runStack env (route_stack signupRoute) c db.
Proof.
  intros W1 W2 Hn He Hr Hp Hp' L. rewrite !signupRoute_run.
  assert (L' : 6 <= String.length (ws1 ++ p ++ ws2)).
  { rewrite !length_app. lia. }
  pose proof (signup_padded env c c' db p ws1 ws2 W1 W2 Hn He Hr Hp Hp') as S.
  unfold validateSignup. rewrite Hn, He, Hp, Hp'.
  assert (truthyField (Some p) = true) as ->.
  { destruct p; [simpl in L; lia | reflexivity]. }
  assert (truthyField (Some (ws1 ++ p ++ ws2)) = true) as ->.
  { destruct (ws1 ++ p ++ ws2); [simpl in L'; lia | reflexivity]. }
  change (orEmpty (Some p)) with p.
  change (orEmpty (Some (ws1 ++ p ++ ws2))) with (ws1 ++ p ++ ws2).
  destruct (Nat.ltb_spec (String.length p) 6); [lia|].
  destruct (Nat.ltb_spec (String.length (ws1 ++ p ++ ws2)) 6); [lia|].
  destruct (negb (truthyField (bodyField c "name"))
            || negb (truthyField (bodyField c "email")) || negb true);
    [reflexivity|].
  destruct (negb (emailRegex_test (orEmpty (bodyField c "email"))));
    [reflexivity|].
  unfold next, ret. rewrite S. reflexivity.
Qed.

(** What signup stores when nothing stands in its way. *)
Lemma signup_stores (env : Env) (c : Context) (db : Db) (n e p : string) :
  bodyField c "name" = Some n -> bodyField c "email" = Some e ->
  bodyField c "password" = Some p ->
  fault env UserFindOne = None -> fault env UserCreate = None ->
  (forall v, In v (users db) ->
     user_email v <> toLowerCase (trim e) /\ user_id v <> newId env) ->
  let u := mkUser (newId env) (trim n) (toLowerCase (trim e))
                  (bcrypt_hash (trim p) (salt env))
                  (trim (orDefault (bodyField c "role") "jobSeeker")) in
  userSchema_validate u = None ->
  signup env c db
  = (Normal (mkResponse 201
               (Authenticated (jwt_sign (newId env) (user_role u) (now env))
                              (user_role u) (publicUser u)
                              "Registration successful")),
     mkDb (users db ++ [u]) (jobs db) (applications db)).
Proof.
  intros Hn He Hp F1 F2 Fresh u V. unfold signup. rewrite Hn, He, Hp.
  unfold method, tryCatch, bind, ret.
  rewrite (User_findOne_run _ _ _ F1).
  assert (find (fun v => String.eqb (user_email v) (toLowerCase (trim e)))
               (users db) = None) as ->.
  { destruct (find _ (users db)) as [v|] eqn:E; [|reflexivity].
    apply find_some in E as [I E]. apply String.eqb_eq in E.
    destruct (Fresh v I). contradiction. }
  unfold User_create, await. rewrite F2. fold u. rewrite V.
  unfold bind, getDb, putDb, ret.
  assert (existsb (fun v => String.eqb (user_email v) (toLowerCase (trim e))
                            || String.eqb (user_id v) (newId env)) (users db)
          = false) as ->.
  { apply not_true_is_false. intros E. apply existsb_exists in E as [v [I E]].
    destruct (Fresh v I) as [A B]. apply orb_prop in E as [E|E];
      apply String.eqb_eq in E; contradiction. }
  reflexivity.
Qed.

(** A login that finds the account is decided by the comparison of the
    trimmed password with the stored hash. *)
Lemma login_found (env : Env) (c : Context) (db : Db) (e p : string)
    (u : User) :
  bodyField c "email" = Some e -> bodyField c "password" = Some p ->
  truthy (trim e) = true -> truthy (trim p) = true ->
  fault env UserFindOne = None ->
  find (fun v => String.eqb (user_email v) (toLowerCase (trim e))) (users db)
  = Some u ->
  truthy (user_password u) = true ->
  login env c db
  = (Normal
       (if bcrypt_compare (trim p) (user_password u)
        then mkResponse 200
               (Authenticated (jwt_sign (user_id u) (user_role u) (now env))
                              (user_role u) (publicUser u) "Login successful")
        else failure 400 "Invalid credentials"), db).
Proof.
  intros He Hp Te Tp F S Tu. unfold login, optTrim. rewrite He, Hp. simpl.
  rewrite truthy_toLowerCase, Te, Tp. simpl.
  unfold tryCatch, bind. rewrite (User_findOne_run _ _ _ F), S, Tu. simpl.
  destruct (bcrypt_compare (trim p) (user_password u)); reflexivity.
Qed.

(** The validation in front of signup, once name and email pass: the
    length of the password as sent decides. *)
Lemma validateSignup_measures (env : Env) (c : Context) (db : Db)
    (n e p : string) :
  bodyField c "name" = Some n -> bodyField c "email" = Some e ->
  bodyField c "password" = Some p ->
  truthy n = true -> emailRegex_test e = true -> truthy p = true ->
  validateSignup env c db
  = (Normal (if (String.length p <? 6)%nat
             then inl (failure 400 "Password must be at least 6 characters")
             else inr c), db).
Proof.
  intros Hn He Hp Tn Te Tp.
  destruct (Nat.ltb_spec (String.length p) 6) as [L|L].
  - now apply (validateSignup_short env c db n e p).
  - now apply (validateSignup_accepts env c db n e p).
Qed.

(** C10, as the code has it.  Login and signup trim the password before
    comparing and hashing: the login handler and the signup handler answer
    and store the same for a password and for the same password inside
    white space; a login that finds the account is answered 200 for that
    account exactly when the trimmed password verifies against its hash,
    and a signup that goes through stores the hash of the trimmed
    password.  The validation in front of signup measures the password as
    sent: with a name and an email that pass, it turns a password of fewer
    than six characters down and lets every other through.  So the signup
    route treats a password and its padded form alike once the password
    itself has six characters, but turns a shorter password down while it
    registers its padded form of six characters or more under the hash of
    the short password; and six white-space characters pass the validation
    and are stored as the hash of the empty string. *)
Theorem password_trimmed_but_measured_untrimmed :
  (forall env c c' db p ws1 ws2,
      allWhiteSpace ws1 = true -> allWhiteSpace ws2 = true ->
      bodyField c' "email" = bodyField c "email" ->
      bodyField c "password" = Some p ->
      bodyField c' "password" = Some (ws1 ++ p ++ ws2) ->
      login env c' db = login env c db)
  /\ (forall env c db e p ws1 ws2 u,
      allWhiteSpace ws1 = true -> allWhiteSpace ws2 = true ->
      bodyField c "email" = Some e ->
      bodyField c "password" = Some (ws1 ++ p ++ ws2) ->
      truthy (trim e) = true -> truthy (trim p) = true ->
      fault env UserFindOne = None ->
      find (fun v => String.eqb (user_email v) (toLowerCase (trim e)))
           (users db) = Some u ->
      truthy (user_password u) = true ->
      login env c db
      = (Normal
           (if bcrypt_compare (trim p) (user_password u)
            then mkResponse 200
                   (Authenticated
                      (jwt_sign (user_id u) (user_role u) (now env))
                      (user_role u) (publicUser u) "Login successful")
            else failure 400 "Invalid credentials"), db))
  /\ (forall env c c' db p ws1 ws2,
      allWhiteSpace ws1 = true -> allWhiteSpace ws2 = true ->
      bodyField c' "name" = bodyField c "name" ->
      bodyField c' "email" = bodyField c "email" ->
      bodyField c' "role" = bodyField c "role" ->
      bodyField c "password" = Some p ->
      bodyField c' "password" = Some (ws1 ++ p ++ ws2) ->
      signup env c' db = signup env c db
      /\ (6 <= String.length p ->
          runStack env (route_stack signupRoute) c' db
          = runStack env (route_stack signupRoute) c db))
  /\ (forall env c db n e p ws1 ws2,
      allWhiteSpace ws1 = true -> allWhiteSpace ws2 = true ->
      bodyField c "name" = Some n -> bodyField c "email" = Some e ->
      bodyField c "password" = Some (ws1 ++ p ++ ws2) ->
      fault env UserFindOne = None -> fault env UserCreate = None ->
      (forall v, In v (users db) ->
         user_email v <> toLowerCase (trim e) /\ user_id v <> newId env) ->
      let u := mkUser (newId env) (trim n) (toLowerCase (trim e))
                      (bcrypt_hash (trim p) (salt env))
                      (trim (orDefault (bodyField c "role") "jobSeeker")) in
      userSchema_validate u = None ->
      signup env c db
      = (Normal (mkResponse 201
                   (Authenticated
                      (jwt_sign (newId env) (user_role u) (now env))
                      (user_role u) (publicUser u)
                      "Registration successful")),
         mkDb (users db ++ [u]) (jobs db) (applications db)))
  /\ (forall env c db n e p,
      bodyField c "name" = Some n -> bodyField c "email" = Some e ->
      bodyField c "password" = Some p ->
      truthy n = true -> emailRegex_test e = true -> truthy p = true ->
      validateSignup env c db
      = (Normal
           (if (String.length p <? 6)%nat
            then inl (failure 400 "Password must be at least 6 characters")
            else inr c), db))
  /\ (forall env c c' db n e p ws1 ws2,
      allWhiteSpace ws1 = true -> allWhiteSpace ws2 = true ->
      bodyField c "name" = Some n -> bodyField c "email" = Some e ->
      bodyField c' "name" = Some n -> bodyField c' "email" = Some e ->
      bodyField c' "role" = bodyField c "role" ->
      bodyField c "password" = Some p ->
      bodyField c' "password" = Some (ws1 ++ p ++ ws2) ->
      truthy n = true -> emailRegex_test e = true -> truthy p = true ->
      String.length p < 6 -> 6 <= String.length (ws1 ++ p ++ ws2) ->
      runStack env (route_stack signupRoute) c db
      = (Normal (inl (failure 400 "Password must be at least 6 characters")),
         db)
      /\ runStack env (route_stack signupRoute) c' db
         = match signup env c db with
           | (Normal r, d) => (Normal (inl r), d)
           | (Thrown x, d) => (Thrown x, d)
           end)
  /\ (forall env c db n e ws,
      bodyField c "name" = Some n -> bodyField c "email" = Some e ->
      bodyField c "password" = Some ws ->
      truthy n = true -> emailRegex_test e = true ->
      allWhiteSpace ws = true -> String.length ws = 6 ->
      validateSignup env c db = (Normal (inr c), db)
      /\ (fault env UserFindOne = None -> fault env UserCreate = None ->
          (forall v, In v (users db) ->
             user_email v <> toLowerCase (trim e) /\ user_id v <> newId env) ->
          let u := mkUser (newId env) (trim n) (toLowerCase (trim e))
                          (bcrypt_hash "" (salt env))
                          (trim (orDefault (bodyField c "role") "jobSeeker")) in
          userSchema_validate u = None ->
          stateAfter (runStack env (route_stack signupRoute) c) db
          = mkDb (users db ++ [u]) (jobs db) (applications db))).
Proof.
  split; [|split; [|split; [|split; [|split; [|split]]]]].
  - intros env c c' db p ws1 ws2 W1 W2 He Hp Hp'.
    exact (login_padded env c c' db p ws1 ws2 W1 W2 He Hp Hp').
  - intros env c db e p ws1 ws2 u W1 W2 He Hp Te Tp F S Tu.
    rewrite <- (trim_padded ws1 p ws2 W1 W2) in Tp |- *.
    exact (login_found env c db e (ws1 ++ p ++ ws2) u He Hp Te Tp F S Tu).
  - intros env c c' db p ws1 ws2 W1 W2 Hn He Hr Hp Hp'. split.
    + exact (signup_padded env c c' db p ws1 ws2 W1 W2 Hn He Hr Hp Hp').
    + exact (signupRoute_padded env c c' db p ws1 ws2 W1 W2 Hn He Hr Hp Hp').
  - intros env c db n e p ws1 ws2 W1 W2 Hn He Hp F1 F2 Fresh.
    rewrite <- (trim_padded ws1 p ws2 W1 W2).
    exact (signup_stores env c db n e (ws1 ++ p ++ ws2) Hn He Hp F1 F2 Fresh).
  - exact validateSignup_measures.
  - intros env c c' db n e p ws1 ws2 W1 W2 Hn He Hn' He' Hr Hp Hp' Tn Te Tp
           L L'.
    rewrite !signupRoute_run.
    rewrite (validateSignup_short env c db n e p Hn He Hp Tn Te Tp L).
    rewrite (validateSignup_accepts env c' db n e (ws1 ++ p ++ ws2)
               Hn' He' Hp' Tn Te L').
    split; [reflexivity|].
    rewrite (signup_padded env c c' db p ws1 ws2 W1 W2); try assumption;
      [reflexivity | congruence | congruence].
  - intros env c db n e ws Hn He Hp Tn Te W L.
    assert (V : validateSignup env c db = (Normal (inr c), db)).
    { eapply validateSignup_accepts; eauto. lia. }
    split; [exact V|].
    intros F1 F2 Fresh u Hu. unfold stateAfter.
    rewrite signupRoute_run, V.
    pose proof (signup_stores env c db n e ws Hn He Hp F1 F2 Fresh) as S.
    rewrite (trim_all_ws _ W) in S. fold u in S. simpl in S.
    rewrite (S Hu). reflexivity.
Qed.

End AuthFacts.

(* ===================================================================== *)
(** * Runs of the queries *)
(* ===================================================================== *)

Section QueryFacts.
Variable env : Env.

Lemma await_ok {A} (call : DbCall) (op : M A) (db : Db) :
  fault env call = None -> await env call op db = op db.
Proof. intros F. unfold await. rewrite F. reflexivity. Qed.

Lemma await_fails {A} (call : DbCall) (op : M A) (db : Db) (e : string) :
  fault env call = Some e -> await env call op db = (Thrown e, db).
Proof. intros F. unfold await. rewrite F. reflexivity. Qed.

Lemma Job_findById_run (i : ObjectId) (db : Db) :
  fault env JobFindById = None ->
  Job_findById env i db = (Normal (find (hasJobId i) (jobs db)), db).
Proof. intros F. unfold Job_findById. now rewrite await_ok. Qed.

Lemma Job_findOne_run (f : Job -> bool) (db : Db) :
  fault env JobFindOne = None ->
  Job_findOne env f db = (Normal (find f (jobs db)), db).
Proof. intros F. unfold Job_findOne. now rewrite await_ok. Qed.

Lemma Job_distinct_id_run (f : Job -> bool) (db : Db) :
  fault env JobFind = None ->
  Job_distinct_id env f db
  = (Normal (nodup string_dec (map job_id (List.filter f (jobs db)))), db).
Proof. intros F. unfold Job_distinct_id. now rewrite await_ok. Qed.

Lemma Application_findOne_run (f : Application -> bool) (db : Db) :
  fault env ApplicationFindOne = None ->
  Application_findOne env f db = (Normal (find f (applications db)), db).
Proof. intros F. unfold Application_findOne. now rewrite await_ok. Qed.

Lemma Application_save_run (a : Application) (db : Db) :
  fault env ApplicationSave = None ->
  applicationSchema_validate a = None ->
  existsb (hasAppId (app_id a)) (applications db) = false ->
  Application_save env a db
  = (Normal tt, mkDb (users db) (jobs db) (applications db ++ [a])).
Proof.
  intros F V N. unfold Application_save. rewrite await_ok by exact F.
  rewrite V. run. rewrite N. reflexivity.
Qed.

Lemma Application_save_invalid (a : Application) (db : Db) (e : string) :
  fault env ApplicationSave = None ->
  applicationSchema_validate a = Some e ->
  Application_save env a db = (Thrown e, db).
Proof.
  intros F V. unfold Application_save. rewrite await_ok by exact F.
  rewrite V. reflexivity.
Qed.

Lemma Job_findByIdAndUpdate_inc_run (i : ObjectId) (db : Db) :
  fault env JobFindByIdAndUpdate = None ->
  Job_findByIdAndUpdate_inc env i db
  = (Normal tt,
     mkDb (users db)
          (updateFirst (hasJobId i) (incApplicationCount (now env)) (jobs db))
          (applications db)).
Proof. intros F. unfold Job_findByIdAndUpdate_inc. now rewrite await_ok. Qed.

Lemma Application_findById_populated_run (i : ObjectId) (db : Db) :
  fault env ApplicationFindById = None ->
  Application_findById_populated env i db
  = (Normal (option_map
               (fun a => (a, populateJob db (app_job a),
                          populateUser db (app_user a)))
               (find (hasAppId i) (applications db))), db).
Proof. intros F. unfold Application_findById_populated. now rewrite await_ok. Qed.

(** The save either throws and leaves the database alone, or appends the
    document. *)
Lemma Application_save_cases (a : Application) (db : Db) :
  (exists e, Application_save env a db = (Thrown e, db))
  \/ Application_save env a db
     = (Normal tt, mkDb (users db) (jobs db) (applications db ++ [a])).
Proof.
  unfold Application_save, await.
  destruct (fault env ApplicationSave); [left; eexists; reflexivity|].
  destruct (applicationSchema_validate a); [left; eexists; reflexivity|].
  unfold bind, getDb, putDb, throw, ret.
  destruct (existsb _ _); [left; eexists; reflexivity | right; reflexivity].
Qed.

Lemma Job_findByIdAndUpdate_inc_cases (i : ObjectId) (db : Db) :
  (exists e, Job_findByIdAndUpdate_inc env i db = (Thrown e, db))
  \/ Job_findByIdAndUpdate_inc env i db
     = (Normal tt,
        mkDb (users db)
             (updateFirst (hasJobId i) (incApplicationCount (now env)) (jobs db))
             (applications db)).
Proof.
  unfold Job_findByIdAndUpdate_inc, await.
  destruct (fault env JobFindByIdAndUpdate);
    [left; eexists; reflexivity | right; reflexivity].
Qed.

(** A read leaves the database alone. *)
Lemma Application_findById_populated_reads (i : ObjectId) (db : Db) :
  snd (Application_findById_populated env i db) = db.
Proof.
  unfold Application_findById_populated, await.
  destruct (fault env ApplicationFindById); reflexivity.
Qed.

End QueryFacts.

(* ===================================================================== *)
(** * Lists of documents *)
(* ===================================================================== *)

Lemma find_none_existsb {A} (p : A -> bool) (l : list A) :
  existsb p l = false -> find p l = None.
Proof.
  induction l as [|x l IH]; simpl; [reflexivity|].
  destruct (p x); simpl; [discriminate | exact IH].
Qed.

Lemma find_ext {A} (p q : A -> bool) (l : list A) :
  (forall x, p x = q x) -> find p l = find q l.
Proof.
  intros E. induction l as [|x l IH]; simpl; [reflexivity|].
  now rewrite E, IH.
Qed.

Lemma find_existsb {A} (p : A -> bool) (l : list A) :
  existsb p l = true -> exists x, find p l = Some x.
Proof.
  induction l as [|x l IH]; simpl; [discriminate|].
  destruct (p x); simpl; eauto.
Qed.

Lemma find_app_fresh {A} (p : A -> bool) (l : list A) (x : A) :
  existsb p l = false -> p x = true -> find p (l ++ [x])%list = Some x.
Proof.
  induction l as [|y l IH]; simpl; intros N T.
  - now rewrite T.
  - destruct (p y); simpl in *; [discriminate | auto].
Qed.

(** The update changes the first selected document and nothing else. *)
Lemma updateFirst_split {A} (p : A -> bool) (f : A -> A) (l : list A) (x : A) :
  find p l = Some x ->
  exists before after,
    l = (before ++ x :: after)%list
    /\ updateFirst p f l = (before ++ f x :: after)%list
    /\ forall y, In y before -> p y = false.
Proof.
  induction l as [|y l IH]; simpl; [discriminate|].
  destruct (p y) eqn:E.
  - intros H. inversion H; subst. exists [], l. simpl. intuition.
  - intros H. destruct (IH H) as (b & a & H1 & H2 & H3).
    exists (y :: b), a. simpl. rewrite <- H1, H2. repeat split; try reflexivity.
    intros z [->|I]; auto.
Qed.

Lemma updateFirst_none {A} (p : A -> bool) (f : A -> A) (l : list A) :
  find p l = None -> updateFirst p f l = l.
Proof.
  induction l as [|y l IH]; simpl; [reflexivity|].
  destruct (p y); [discriminate|]. intros H. now rewrite IH.
Qed.

Lemma find_updateFirst {A} (p : A -> bool) (f : A -> A) (l : list A) :
  (forall x, p (f x) = p x) ->
  find p (updateFirst p f l) = option_map f (find p l).
Proof.
  intros K. induction l as [|y l IH]; simpl; [reflexivity|].
  destruct (p y) eqn:E; simpl.
  - now rewrite K, E.
  - now rewrite E.
Qed.

(* ===================================================================== *)
(** * Runs of the layers of a route *)
(* ===================================================================== *)

(** One step of a run. *)
Lemma bind_unfold {A B} (m : M A) (k : A -> M B) (db : Db) :
  bind m k db
  = match m db with
    | (Normal a, db') => k a db'
    | (Thrown e, db') => (Thrown e, db')
    end.
Proof. reflexivity. Qed.

Section RoutingFacts.
Context {P : Platform}.
Variable env : Env.

Lemma runStack_cons (m : Middleware) (ms : list Middleware) (c : Context)
    (db : Db) :
  runStack env (m :: ms) c db
  = match m env c db with
    | (Normal (inl r), d) => (Normal (inl r), d)
    | (Normal (inr c'), d) => runStack env ms c' d
    | (Thrown e, d) => (Thrown e, d)
    end.
Proof.
  simpl. rewrite bind_unfold.
  destruct (m env c db) as [[[r|c']|e] d]; reflexivity.
Qed.

Lemma handle_run (h : Env -> Context -> M Response) (c : Context) (db : Db) :
  handle h env c db
  = match h env c db with
    | (Normal r, d) => (Normal (inl r), d)
    | (Thrown e, d) => (Thrown e, d)
    end.
Proof.
  unfold handle. rewrite bind_unfold.
  destruct (h env c db) as [[r|e] d]; reflexivity.
Qed.

(** The last layer of a route. *)
Lemma runStack_handle (h : Env -> Context -> M Response) (c : Context)
    (db : Db) :
  runStack env [handle h] c db
  = match h env c db with
    | (Normal r, d) => (Normal (inl r), d)
    | (Thrown e, d) => (Thrown e, d)
    end.
Proof.
  rewrite runStack_cons, handle_run.
  destruct (h env c db) as [[r|e] d]; reflexivity.
Qed.

(** A router with one route. *)
Lemma serve_one (route : Route) (r : Request) (db : Db) :
  serve env [route] r db
  = if eqMethod (route_method route) (req_method r) then
      match matchPath (route_path route) (req_path r) with
      | Some ps =>
          match runStack env (route_stack route) (mkContext r ps None None) db
          with
          | (Normal (inl response), d) => (Normal (Some response), d)
          | (Normal (inr _), d) => (Normal None, d)
          | (Thrown e, d) => (Thrown e, d)
          end
      | None => (Normal None, db)
      end
    else (Normal None, db).
Proof.
  unfold serve. cbn [dispatch req req_user req_file].
  destruct (eqMethod _ _); [|reflexivity].
  destruct (matchPath _ _) as [ps|]; [|reflexivity].
  rewrite bind_unfold.
  destruct (runStack _ _ _ _) as [[[x|c']|e] d]; reflexivity.
Qed.

(** One route of a router. *)
Lemma dispatch_cons (route : Route) (routes : list Route) (c : Context)
    (db : Db) :
  dispatch env (route :: routes) c db
  = if eqMethod (route_method route) (req_method (req c)) then
      match matchPath (route_path route) (req_path (req c)) with
      | Some ps =>
          match runStack env (route_stack route)
                  (mkContext (req c) ps (req_user c) (req_file c)) db
          with
          | (Normal (inl response), d) => (Normal (Some response), d)
          | (Normal (inr c'), d) => dispatch env routes c' d
          | (Thrown e, d) => (Thrown e, d)
          end
      | None => dispatch env routes c db
      end
    else dispatch env routes c db.
Proof.
  cbn [dispatch].
  destruct (eqMethod _ _); [|reflexivity].
  destruct (matchPath _ _) as [ps|]; [|reflexivity].
  rewrite bind_unfold.
  destruct (runStack _ _ _ _) as [[[x|c']|e] d]; reflexivity.
Qed.

(** [protect] answers with the authorization error, or sets [req.user] to
    what the token verifies to. *)
Lemma protect_cases (c : Context) (db : Db) :
  protect env c db = (Normal (inl authError), db)
  \/ exists t u,
       req_token (req c) = Some t /\ jwt_verify t (now env) = Some u
       /\ protect env c db
          = (Normal (inr (mkContext (req c) (params c) (Some u) (req_file c))),
             db).
Proof.
  unfold protect. destruct (req_token (req c)) as [t|]; [|left; reflexivity].
  destruct (jwt_verify t (now env)) as [u|] eqn:E; [|left; reflexivity].
  right. exists t, u. auto.
Qed.

Lemma protect_passes (c : Context) (db : Db) (t : string) (u : AuthUser) :
  req_token (req c) = Some t -> jwt_verify t (now env) = Some u ->
  protect env c db
  = (Normal (inr (mkContext (req c) (params c) (Some u) (req_file c))), db).
Proof. intros T V. unfold protect. rewrite T, V. reflexivity. Qed.

(** [roleAuthorization] answers 403, or lets a user with a listed role
    through. *)
Lemma roleAuthorization_cases (roles : list string) (c : Context) (db : Db) :
  roleAuthorization roles env c db
  = (Normal (inl (failure 403 forbiddenMessage)), db)
  \/ (exists u, req_user c = Some u
               /\ existsb (String.eqb (auth_role u)) roles = true)
     /\ roleAuthorization roles env c db = (Normal (inr c), db).
Proof.
  unfold roleAuthorization. destruct (req_user c) as [u|]; [|left; reflexivity].
  destruct (existsb _ roles) eqn:E; [|left; reflexivity].
  right. split; [exists u; auto | reflexivity].
Qed.

Lemma roleAuthorization_passes (roles : list string) (c : Context) (db : Db)
    (u : AuthUser) :
  req_user c = Some u -> existsb (String.eqb (auth_role u)) roles = true ->
  roleAuthorization roles env c db = (Normal (inr c), db).
Proof. intros U R. unfold roleAuthorization. rewrite U, R. reflexivity. Qed.

(** The upload layer answers 400, or puts the parsed file on the request. *)
Lemma uploadResume_cases (c : Context) (db : Db) :
  (exists m, uploadResume env c db = (Normal (inl (failure 400 m)), db))
  \/ exists file,
       req_upload (req c) = Uploaded file
       /\ uploadResume env c db
          = (Normal (inr (mkContext (req c) (params c) (req_user c) file)), db).
Proof.
  unfold uploadResume. destruct (req_upload (req c)) as [m|m|file].
  - left. exists m. reflexivity.
  - left. exists m. reflexivity.
  - right. exists file. auto.
Qed.

End RoutingFacts.

(* ===================================================================== *)
(** * Submission of an application *)
(* ===================================================================== *)

Section SubmitFacts.
Context {P : Platform}.
Import JsString.

(** A request that passes every check in front of the save goes on with
    the save, the counter update and the read of the new document. *)
Lemma submit_reaches_save (env : Env) (c : Context) (db : Db) (u : AuthUser)
    (file : File) (jid : string) (j : Job) :
  req_user c = Some u -> req_file c = Some file ->
  bodyField c "jobId" = Some jid -> truthy jid = true ->
  ObjectId_isValid jid = true ->
  fault env JobFindById = None -> fault env ApplicationFindOne = None ->
  find (hasJobId (castObjectId jid)) (jobs db) = Some j ->
  applied db (castObjectId jid) (id u) = false ->
  submitApplication env c db
  = tryCatch
      (Application_save env (submitted env c u file jid) ;;;
       Job_findByIdAndUpdate_inc env (castObjectId jid) ;;;
       populatedApplication <-
         Application_findById_populated env
           (app_id (submitted env c u file jid)) ;;
       match populatedApplication with
       | None => throw "Cannot read properties of null (reading '_id')"
       | Some (a, job, user) =>
           ret (mkResponse 201
                  (ApplicationSubmitted "Application submitted successfully"
                     (app_id a) (resume a) job user (status a) (createdAt a)))
       end)
      (fun e => ret (submitError env e)) db.
Proof.
  intros Hu Hf Hj Tj V F1 F2 J A.
  unfold submitApplication, tryCatch. rewrite Hf, Hj. simpl.
  rewrite Tj. simpl. rewrite V. simpl.
  unfold bind at 1. simpl.
  unfold bind at 1. rewrite (Job_findById_run env _ _ F1), J.
  unfold reqUser. rewrite Hu.
  unfold bind at 1. simpl.
  unfold bind at 1. rewrite (Application_findOne_run env _ _ F2).
  pose proof (find_none_existsb _ _ A) as N. unfold isFor in N.
  rewrite N. reflexivity.
Qed.

Lemma submitted_valid (env : Env) (c : Context) (u : AuthUser) (file : File)
    (jid cl : string) :
  truthy (filename file) = true ->
  bodyField c "coverLetter" = Some cl -> truthy cl = true ->
  applicationSchema_validate (submitted env c u file jid) = None.
Proof.
  intros Tf Hc Tc.
  assert (E : orDefault (bodyField c "coverLetter") "" = cl).
  { rewrite Hc. unfold orDefault. now rewrite Tc. }
  unfold applicationSchema_validate, applicationSchema_errors,
    submitted, newApplication. cbn [resume coverLetter status].
  rewrite E, Tf, Tc. reflexivity.
Qed.

(** Without a cover letter the required validator of the schema rejects
    the document. *)
Lemma submitted_without_letter (env : Env) (c : Context) (u : AuthUser)
    (file : File) (jid : string) :
  truthyField (bodyField c "coverLetter") = false ->
  exists e, applicationSchema_validate (submitted env c u file jid) = Some e.
Proof.
  intros Tc.
  assert (E : orDefault (bodyField c "coverLetter") "" = "").
  { destruct (bodyField c "coverLetter") as [[|a cl]|]; simpl in *;
      try reflexivity; discriminate. }
  unfold applicationSchema_validate, applicationSchema_errors,
    submitted, newApplication. cbn [resume coverLetter status].
  rewrite E. destruct (truthy (filename file)); simpl; eauto.
Qed.

Lemma incApplicationCount_same (t : Date) (j : Job) :
  sameJobButCount j (incApplicationCount t j).
Proof. unfold sameJobButCount. simpl. repeat split. Qed.

(** The successful submission, step by step. *)
Lemma submit_succeeds (env : Env) (c : Context) (db : Db) (u : AuthUser)
    (file : File) (jid cl : string) (j : Job) :
  req_user c = Some u -> req_file c = Some file ->
  bodyField c "jobId" = Some jid -> truthy jid = true ->
  ObjectId_isValid jid = true ->
  find (hasJobId (castObjectId jid)) (jobs db) = Some j ->
  applied db (castObjectId jid) (id u) = false ->
  truthy (filename file) = true ->
  bodyField c "coverLetter" = Some cl -> truthy cl = true ->
  existsb (hasAppId (newId env)) (applications db) = false ->
  faultless env ->
  submitApplication env c db
  = (Normal (mkResponse 201
               (ApplicationSubmitted "Application submitted successfully"
                  (newId env) (filename file) (Some (jobSummary j))
                  (populateUser db (id u)) "pending" (now env))),
     mkDb (users db)
          (updateFirst (hasJobId (castObjectId jid))
                       (incApplicationCount (now env)) (jobs db))
          (applications db ++ [submitted env c u file jid])).
Proof.
  intros Hu Hf Hj Tj V J A Tf Hc Tc Fresh F.
  rewrite (submit_reaches_save env c db u file jid j) by auto.
  unfold tryCatch.
  unfold bind at 1.
  rewrite Application_save_run;
    [| apply F | eapply submitted_valid; eauto | exact Fresh].
  unfold bind at 1.
  rewrite Job_findByIdAndUpdate_inc_run by apply F.
  unfold bind at 1.
  rewrite Application_findById_populated_run by apply F.
  cbn [applications users jobs].
  rewrite find_app_fresh;
    [| exact Fresh | unfold hasAppId; apply String.eqb_refl].
  cbn [option_map]. unfold populateJob, populateUser.
  cbn [applications users jobs].
  rewrite find_updateFirst by reflexivity. rewrite J.
  reflexivity.
Qed.

(** The counter update fails after the save. *)
Lemma submit_counter_fails (env : Env) (c : Context) (db : Db) (u : AuthUser)
    (file : File) (jid cl : string) (j : Job) (e : string) :
  req_user c = Some u -> req_file c = Some file ->
  bodyField c "jobId" = Some jid -> truthy jid = true ->
  ObjectId_isValid jid = true ->
  find (hasJobId (castObjectId jid)) (jobs db) = Some j ->
  applied db (castObjectId jid) (id u) = false ->
  truthy (filename file) = true ->
  bodyField c "coverLetter" = Some cl -> truthy cl = true ->
  existsb (hasAppId (newId env)) (applications db) = false ->
  fault env JobFindById = None -> fault env ApplicationFindOne = None ->
  fault env ApplicationSave = None ->
  fault env JobFindByIdAndUpdate = Some e ->
  submitApplication env c db
  = (Normal (submitError env e),
     mkDb (users db) (jobs db)
          (applications db ++ [submitted env c u file jid])).
Proof.
  intros Hu Hf Hj Tj V J A Tf Hc Tc Fresh F1 F2 F3 F4.
  rewrite (submit_reaches_save env c db u file jid j) by auto.
  unfold tryCatch.
  unfold bind at 1.
  rewrite Application_save_run;
    [| exact F3 | eapply submitted_valid; eauto | exact Fresh].
  unfold bind at 1. unfold Job_findByIdAndUpdate_inc.
  rewrite (await_fails env _ _ _ e F4). reflexivity.
Qed.

(** The save is refused for want of a cover letter. *)
Lemma submit_without_letter (env : Env) (c : Context) (db : Db) (u : AuthUser)
    (file : File) (jid : string) (j : Job) :
  req_user c = Some u -> req_file c = Some file ->
  bodyField c "jobId" = Some jid -> truthy jid = true ->
  ObjectId_isValid jid = true ->
  find (hasJobId (castObjectId jid)) (jobs db) = Some j ->
  applied db (castObjectId jid) (id u) = false ->
  truthyField (bodyField c "coverLetter") = false ->
  fault env JobFindById = None -> fault env ApplicationFindOne = None ->
  fault env ApplicationSave = None ->
  exists e, submitApplication env c db = (Normal (submitError env e), db).
Proof.
  intros Hu Hf Hj Tj V J A Tc F1 F2 F3.
  rewrite (submit_reaches_save env c db u file jid j) by auto.
  destruct (submitted_without_letter env c u file jid Tc) as [e E].
  exists e. unfold tryCatch. unfold bind at 1.
  rewrite (Application_save_invalid env _ _ e F3 E). reflexivity.
Qed.

(** A run of the handler up to the answer of one of its checks. *)
Ltac checks :=
  unfold submitApplication, tryCatch, Job_findById, Application_findOne,
    reqUser, await;
  repeat (progress (cbn;
                    repeat match goal with
                           | H : ?l = _ |- context [?l] => rewrite H
                           end));
  try reflexivity.

(** A run of the handler that ends before the save. *)
Ltac early := left; eexists; split; [checks | simpl; discriminate].

(** Every run of the handler: either it answers without success and leaves
    the database as it was, or it has passed the duplicate check for the
    pair and appended the one document built for it. *)
Lemma submit_cases (env : Env) (c : Context) (db : Db) :
  (exists r, submitApplication env c db = (Normal r, db) /\ statusCode r <> 201)
  \/ (exists u file jid r db',
        req_user c = Some u /\ req_file c = Some file
        /\ bodyField c "jobId" = Some jid
        /\ truthy jid = true /\ ObjectId_isValid jid = true
        /\ find (hasJobId (castObjectId jid)) (jobs db) <> None
        /\ applied db (castObjectId jid) (id u) = false
        /\ submitApplication env c db = (Normal r, db')
        /\ users db' = users db
        /\ applications db' = (applications db ++ [submitted env c u file jid])%list
        /\ (jobs db' = jobs db
            \/ jobs db' = updateFirst (hasJobId (castObjectId jid))
                            (incApplicationCount (now env)) (jobs db))).
Proof.
  destruct (req_file c) as [file|] eqn:Hf; [|early].
  destruct (bodyField c "jobId") as [jid|] eqn:Hj; [|early].
  destruct (truthy jid) eqn:Tj; [|early].
  destruct (ObjectId_isValid jid) eqn:V; [|early].
  destruct (fault env JobFindById) as [e1|] eqn:F1; [early|].
  destruct (find (hasJobId (castObjectId jid)) (jobs db)) as [j|] eqn:J;
    [|early].
  destruct (req_user c) as [u|] eqn:Hu; [|early].
  destruct (fault env ApplicationFindOne) as [e2|] eqn:F2; [early|].
  destruct (applied db (castObjectId jid) (id u)) eqn:A.
  { destruct (find_existsb _ _ A) as [x X]. unfold isFor in X. early. }
  rewrite (submit_reaches_save env c db u file jid j) by auto.
  unfold tryCatch. rewrite bind_unfold.
  destruct (Application_save_cases env (submitted env c u file jid) db)
    as [[e ->] | ->].
  { left. eexists. split; [reflexivity | simpl; discriminate]. }
  right. exists u, file, jid.
  rewrite bind_unfold.
  destruct (Job_findByIdAndUpdate_inc_cases env (castObjectId jid)
              (mkDb (users db) (jobs db)
                    (applications db ++ [submitted env c u file jid])))
    as [[e ->] | ->].
  { do 2 eexists. repeat split; try reflexivity; auto; congruence. }
  rewrite bind_unfold.
  match goal with
  | |- context [Application_findById_populated ?e ?i ?d] =>
      pose proof (Application_findById_populated_reads e i d) as R;
      destruct (Application_findById_populated e i d) as [[[[[x y] z]|]|e'] d']
  end; simpl in R; subst d';
    do 2 eexists; repeat split; try reflexivity; auto; congruence.
Qed.

(** A submission for a pair that has an application does not succeed and
    changes nothing. *)
Lemma submit_again_fails (env : Env) (c : Context) (db : Db) (u : AuthUser)
    (jid : string) :
  req_user c = Some u -> bodyField c "jobId" = Some jid ->
  applied db (castObjectId jid) (id u) = true ->
  exists r, submitApplication env c db = (Normal r, db) /\ statusCode r <> 201.
Proof.
  intros Hu Hj A. destruct (submit_cases env c db) as [L | R]; [exact L|].
  destruct R as (u' & file & jid' & r & db' & Hu' & _ & Hj' & _ & _ & _ & A' & _).
  congruence.
Qed.

(** The answer of the duplicate check. *)
Lemma submit_again_conflict (env : Env) (c : Context) (db : Db) (u : AuthUser)
    (file : File) (jid : string) :
  req_user c = Some u -> req_file c = Some file ->
  bodyField c "jobId" = Some jid -> truthy jid = true ->
  ObjectId_isValid jid = true ->
  fault env JobFindById = None -> fault env ApplicationFindOne = None ->
  find (hasJobId (castObjectId jid)) (jobs db) <> None ->
  applied db (castObjectId jid) (id u) = true ->
  submitApplication env c db
  = (Normal (failure 400 "You have already applied for this job"), db).
Proof.
  intros Hu Hf Hj Tj V F1 F2 J A.
  destruct (find (hasJobId (castObjectId jid)) (jobs db)) as [j|] eqn:J';
    [clear J | congruence].
  destruct (find_existsb _ _ A) as [x X]. unfold isFor in X.
  checks.
Qed.

Lemma applied_app (db : Db) (a : Application) (l : list Application) :
  applications db = (l ++ [a])%list ->
  applied db (app_job a) (app_user a) = true.
Proof.
  intros E. unfold applied. rewrite E, existsb_app. simpl.
  unfold isFor. rewrite !String.eqb_refl. simpl. apply orb_true_r.
Qed.

Lemma not_applied_fresh_pair (db : Db) (j u : ObjectId) :
  applied db j u = false -> ~ In (j, u) (map pairOf (applications db)).
Proof.
  unfold applied. intros N I. apply in_map_iff in I as [a [E I]].
  assert (existsb (isFor j u) (applications db) = true); [|congruence].
  apply existsb_exists. exists a. split; [exact I|].
  unfold pairOf in E. inversion E. unfold isFor.
  now rewrite !String.eqb_refl.
Qed.

(** The handler keeps the applications one per pair. *)
Lemma submit_keeps_onePerPair (env : Env) (c : Context) (db : Db) :
  onePerPair db -> onePerPair (stateAfter (submitApplication env c) db).
Proof.
  intros I. unfold stateAfter.
  destruct (submit_cases env c db) as [[r [E _]] | R].
  - now rewrite E.
  - destruct R as (u & file & jid & r & db' & _ & _ & _ & _ & _ & _ & A & E
                   & _ & Apps & _).
    rewrite E. unfold onePerPair. simpl. rewrite Apps, map_app.
    apply NoDup_app; [exact I | repeat constructor; simpl; tauto |].
    intros p Ip [<- | []]. revert Ip. now apply not_applied_fresh_pair.
Qed.

(** The layers in front of the handler leave the database alone, so a
    request to the route leaves what the handler leaves for some request
    context, or nothing at all. *)
Lemma submitRoute_state (env : Env) (r : Request) (db : Db) :
  stateAfter (serve env [submitRoute] r) db = db
  \/ exists c, req c = r
       /\ stateAfter (serve env [submitRoute] r) db
          = stateAfter (submitApplication env c) db.
Proof.
  unfold stateAfter. rewrite serve_one.
  destruct (eqMethod _ _); [|left; reflexivity].
  destruct (matchPath _ _) as [ps|]; [|left; reflexivity].
  unfold submitRoute. cbn [route_stack].
  rewrite runStack_cons.
  destruct (protect_cases env (mkContext r ps None None) db)
    as [-> | (t & u & _ & _ & ->)]; [left; reflexivity|].
  rewrite runStack_cons.
  match goal with
  | |- context [roleAuthorization ?rs env ?c db] =>
      destruct (roleAuthorization_cases env rs c db) as [-> | [_ ->]]
  end; [left; reflexivity|].
  rewrite runStack_cons.
  match goal with
  | |- context [uploadResume env ?c db] =>
      destruct (uploadResume_cases env c db) as [[m ->] | (file & _ & ->)]
  end; [left; reflexivity|].
  rewrite runStack_handle. right.
  match goal with
  | |- context [submitApplication ?e ?c ?d] =>
      exists c; split; [reflexivity|];
      destruct (submitApplication e c d) as [[y|e'] d']
  end; reflexivity.
Qed.

(** Every sequence of requests keeps the applications one per pair. *)
Lemma submissions_keep_onePerPair (rs : list (Env * Request)) (db : Db) :
  onePerPair db -> onePerPair (submissions rs db).
Proof.
  revert db. induction rs as [|[env r] rs IH]; simpl; intros db I; [exact I|].
  apply IH.
  destruct (submitRoute_state env r db) as [-> | [c [_ ->]]]; [exact I|].
  now apply submit_keeps_onePerPair.
Qed.

(** After a successful submission, a further one for the same job by the
    same user is turned down and changes nothing. *)
Lemma second_submit_rejected (env1 env2 : Env) (c1 c2 : Context) (db db1 : Db)
    (r1 : Response) :
  submitApplication env1 c1 db = (Normal r1, db1) -> statusCode r1 = 201 ->
  req_user c2 = req_user c1 ->
  bodyField c2 "jobId" = bodyField c1 "jobId" ->
  (exists r2, submitApplication env2 c2 db1 = (Normal r2, db1)
              /\ statusCode r2 <> 201)
  /\ (req_file c2 <> None ->
      fault env2 JobFindById = None -> fault env2 ApplicationFindOne = None ->
      submitApplication env2 c2 db1
      = (Normal (failure 400 "You have already applied for this job"), db1)).
Proof.
  intros E S Hu Hj.
  destruct (submit_cases env1 c1 db) as [[r [E' N]] | R]; [congruence|].
  destruct R as (u & file & jid & r & db' & Hu1 & _ & Hj1 & Tj & V & J & _ & E'
                 & _ & Apps & Jobs).
  rewrite E in E'. inversion E'; subst r db'. clear E'.
  assert (A1 : applied db1 (castObjectId jid) (id u) = true).
  { exact (applied_app db1 (submitted env1 c1 u file jid) _ Apps). }
  assert (J1 : find (hasJobId (castObjectId jid)) (jobs db1) <> None).
  { destruct Jobs as [-> | ->]; [exact J|].
    rewrite find_updateFirst by reflexivity.
    destruct (find _ (jobs db)); [discriminate | congruence]. }
  rewrite Hu1 in Hu. rewrite Hj1 in Hj. split.
  - exact (submit_again_fails env2 c2 db1 u jid Hu Hj A1).
  - intros Hf F1 F2. destruct (req_file c2) as [file2|] eqn:Hf2; [|congruence].
    exact (submit_again_conflict env2 c2 db1 u file2 jid Hu Hf2 Hj Tj V F1 F2
             J1 A1).
Qed.

(** C2, as the code has it: a submission with a non-empty cover letter
    that satisfies the preconditions (job exists, no prior application for
    the pair, résumé attached), served without a database failure for a
    job whose applicationCount is a safe integer, is answered 201, creates
    exactly one Application, in status 'pending', and raises the
    applicationCount of that job by exactly 1; the update also sets the
    job's updatedAt, and every other field of the job, every other job and
    every user stay as they were. *)
Theorem submit_creates_one_pending_and_counts_it
    (env : Env) (c : Context) (db : Db) (u : AuthUser) (file : File)
    (jid cl : string) (j : Job) :
  req_user c = Some u -> req_file c = Some file ->
  bodyField c "jobId" = Some jid -> truthy jid = true ->
  ObjectId_isValid jid = true ->
  find (hasJobId (castObjectId jid)) (jobs db) = Some j ->
  applied db (castObjectId jid) (id u) = false ->
  truthy (filename file) = true ->
  bodyField c "coverLetter" = Some cl -> truthy cl = true ->
  existsb (hasAppId (newId env)) (applications db) = false ->
  faultless env ->
  isSafeInteger (applicationCount j) ->
  exists r db' a j' before after,
    submitApplication env c db = (Normal r, db')
    /\ statusCode r = 201
    /\ applications db' = (applications db ++ [a])%list
    /\ status a = "pending" /\ app_job a = castObjectId jid
    /\ app_user a = id u /\ resume a = filename file /\ coverLetter a = cl
    /\ users db' = users db
    /\ jobs db = (before ++ j :: after)%list
    /\ jobs db' = (before ++ j' :: after)%list
    /\ applicationCount j' = (applicationCount j + 1)%Z
    /\ sameJobButCount j j'
    /\ job_updatedAt j' = now env.
Proof.
  intros Hu Hf Hj Tj V J A Tf Hc Tc Fresh F _.
  destruct (updateFirst_split (hasJobId (castObjectId jid))
              (incApplicationCount (now env)) (jobs db) j J)
    as (before & after & Split & Upd & _).
  do 2 eexists. exists (submitted env c u file jid),
    (incApplicationCount (now env) j), before, after.
  split; [exact (submit_succeeds env c db u file jid cl j Hu Hf Hj Tj V J A Tf
                   Hc Tc Fresh F)|].
  cbn [statusCode applications users jobs].
  repeat split; try reflexivity; try assumption.
  unfold submitted, newApplication. cbn [coverLetter]. rewrite Hc.
  unfold orDefault. now rewrite Tc.
Qed.

(** C5, as the code has it: when the counter update fails after the
    Application was saved, the request is answered 500, the Application
    stays in the database and the job keeps its applicationCount; nothing
    rolls the save back or makes up for the missing count. *)
Theorem failed_count_leaves_application
    (env : Env) (c : Context) (db : Db) (u : AuthUser) (file : File)
    (jid cl : string) (j : Job) (e : string) :
  req_user c = Some u -> req_file c = Some file ->
  bodyField c "jobId" = Some jid -> truthy jid = true ->
  ObjectId_isValid jid = true ->
  find (hasJobId (castObjectId jid)) (jobs db) = Some j ->
  applied db (castObjectId jid) (id u) = false ->
  truthy (filename file) = true ->
  bodyField c "coverLetter" = Some cl -> truthy cl = true ->
  existsb (hasAppId (newId env)) (applications db) = false ->
  fault env JobFindById = None -> fault env ApplicationFindOne = None ->
  fault env ApplicationSave = None ->
  fault env JobFindByIdAndUpdate = Some e ->
  exists r db',
    submitApplication env c db = (Normal r, db')
    /\ statusCode r = 500
    /\ applied db' (castObjectId jid) (id u) = true
    /\ applications db' = (applications db ++ [submitted env c u file jid])%list
    /\ jobs db' = jobs db
    /\ find (hasJobId (castObjectId jid)) (jobs db') = Some j.
Proof.
  intros Hu Hf Hj Tj V J A Tf Hc Tc Fresh F1 F2 F3 F4.
  do 2 eexists.
  split; [exact (submit_counter_fails env c db u file jid cl j e Hu Hf Hj Tj V
                   J A Tf Hc Tc Fresh F1 F2 F3 F4)|].
  cbn [statusCode submitError applications jobs].
  repeat split; try reflexivity; try assumption.
  exact (applied_app
           (mkDb (users db) (jobs db)
                 (applications db ++ [submitted env c u file jid]))
           (submitted env c u file jid) (applications db) eq_refl).
Qed.

(** C9, on the code: a submission without a cover letter, or with an empty
    one, that satisfies the other preconditions is answered 500 and no
    Application is stored: the schema requires a non-empty coverLetter and
    the save throws. *)
Theorem submit_without_cover_letter_fails
    (env : Env) (c : Context) (db : Db) (u : AuthUser) (file : File)
    (jid : string) (j : Job) :
  req_user c = Some u -> req_file c = Some file ->
  bodyField c "jobId" = Some jid -> truthy jid = true ->
  ObjectId_isValid jid = true ->
  find (hasJobId (castObjectId jid)) (jobs db) = Some j ->
  applied db (castObjectId jid) (id u) = false ->
  truthyField (bodyField c "coverLetter") = false ->
  fault env JobFindById = None -> fault env ApplicationFindOne = None ->
  fault env ApplicationSave = None ->
  exists r, submitApplication env c db = (Normal r, db)
            /\ statusCode r = 500
            /\ exists e, body r = Failure "Server error during application submission"
                                    (devError env e).
Proof.
  intros Hu Hf Hj Tj V J A Tc F1 F2 F3.
  destruct (submit_without_letter env c db u file jid j Hu Hf Hj Tj V J A Tc
              F1 F2 F3) as [e E].
  exists (submitError env e). repeat split; [exact E|].
  exists e. reflexivity.
Qed.

End SubmitFacts.

(* ===================================================================== *)
(** * Requests in flight: interleaved turns *)
(* ===================================================================== *)

Section InFlightFacts.
Context {P : Platform}.
Import JsString.

(** Serving a task without interruption commutes with sequencing, with
    try/catch and with await. *)
Lemma atomically_thenT {A B} (t : Task A) (k : A -> Task B) (db : Db) :
  atomically (thenT t k) db
  = bind (atomically t) (fun a => atomically (k a)) db.
Proof.
  revert db. induction t as [a|e|X op resume IH]; intros db; simpl;
    try reflexivity.
  unfold bind. destruct (op db) as [x db']. apply IH.
Qed.

Lemma atomically_tryCatchT {A} (t : Task A) (h : string -> Task A) (db : Db) :
  atomically (tryCatchT t h) db
  = tryCatch (atomically t) (fun e => atomically (h e)) db.
Proof.
  revert db. induction t as [a|e|X op resume IH]; intros db; simpl;
    try reflexivity.
  unfold tryCatch. destruct (op db) as [x db']. apply IH.
Qed.

Lemma atomically_awaitT {X} (op : M X) (db : Db) :
  atomically (awaitT op) db = op db.
Proof. simpl. destruct (op db) as [[x|e] db']; reflexivity. Qed.

Lemma atomically_reqUserT (c : Context) (db : Db) :
  atomically (reqUserT c) db = reqUser c db.
Proof. unfold reqUserT, reqUser. destruct (req_user c); reflexivity. Qed.

Lemma atomically_identifierT (scope : list string) (x : string) (db : Db) :
  atomically (identifierT scope x) db = identifier scope x db.
Proof.
  unfold identifierT, identifier. destruct (existsb _ scope); reflexivity.
Qed.

Lemma bind_ext {A B} (m m' : M A) (k k' : A -> M B) (db : Db) :
  m db = m' db -> (forall a d, k a d = k' a d) ->
  bind m k db = bind m' k' db.
Proof.
  intros Em Ek. unfold bind. rewrite Em.
  destruct (m' db) as [[a|e] d]; [apply Ek | reflexivity].
Qed.

Lemma tryCatch_ext {A} (m m' : M A) (h h' : string -> M A) (db : Db) :
  m db = m' db -> (forall e d, h e d = h' e d) ->
  tryCatch m h db = tryCatch m' h' db.
Proof.
  intros Em Eh. unfold tryCatch. rewrite Em.
  destruct (m' db) as [[a|e] d]; [reflexivity | apply Eh].
Qed.

(** The descent through a handler and its task, side by side. *)
Ltac same :=
  repeat first
    [ reflexivity
    | rewrite atomically_thenT
    | apply bind_ext
    | apply atomically_awaitT
    | apply atomically_reqUserT
    | apply atomically_identifierT
    | progress cbv zeta
    | match goal with
      | |- atomically (if ?b then _ else _) _ = _ => destruct b
      | |- atomically (match ?x with _ => _ end) _ = _ => destruct x
      end
    | intro ].

(** Each handler in flight, served with no other request in between, is
    the handler. *)
Lemma submitSteps_atomically (env : Env) (c : Context) (db : Db) :
  atomically (submitSteps env c) db = submitApplication env c db.
Proof.
  unfold submitSteps, submitApplication. rewrite atomically_tryCatchT.
  apply tryCatch_ext; [|reflexivity].
  same.
Qed.

Lemma statusSteps_atomically (env : Env) (c : Context) (db : Db) :
  atomically (statusSteps env c) db = updateApplicationStatus env c db.
Proof.
  unfold statusSteps, updateApplicationStatus. rewrite atomically_tryCatchT.
  apply tryCatch_ext; [|reflexivity].
  same.
Qed.

(** Two submissions for one pair in flight, with the turns of
    [overlapping]: both are answered 201 and both Applications are
    stored. *)
Lemma overlapping_submissions_both_succeed
    (env1 env2 : Env) (c1 c2 : Context) (db : Db) (u : AuthUser)
    (file1 file2 : File) (jid cl1 cl2 : string) (j : Job) :
  req_user c1 = Some u -> req_user c2 = Some u ->
  req_file c1 = Some file1 -> req_file c2 = Some file2 ->
  bodyField c1 "jobId" = Some jid -> bodyField c2 "jobId" = Some jid ->
  truthy jid = true -> ObjectId_isValid jid = true ->
  find (hasJobId (castObjectId jid)) (jobs db) = Some j ->
  applied db (castObjectId jid) (id u) = false ->
  truthy (filename file1) = true -> truthy (filename file2) = true ->
  bodyField c1 "coverLetter" = Some cl1 -> truthy cl1 = true ->
  bodyField c2 "coverLetter" = Some cl2 -> truthy cl2 = true ->
  existsb (hasAppId (newId env1)) (applications db) = false ->
  existsb (hasAppId (newId env2)) (applications db) = false ->
  newId env1 <> newId env2 ->
  faultless env1 -> faultless env2 ->
  exists r1 r2,
    interleave overlapping [submitSteps env1 c1; submitSteps env2 c2] db
    = ([Finished r1; Finished r2],
       mkDb (users db)
            (updateFirst (hasJobId (castObjectId jid))
               (incApplicationCount (now env2))
               (updateFirst (hasJobId (castObjectId jid))
                  (incApplicationCount (now env1)) (jobs db)))
            (applications db
             ++ [submitted env1 c1 u file1 jid;
                 submitted env2 c2 u file2 jid]))
    /\ statusCode r1 = 201 /\ statusCode r2 = 201.
Proof.
  intros Hu1 Hu2 Hf1 Hf2 Hj1 Hj2 Tj V J A Tf1 Tf2 Hc1 Tc1 Hc2 Tc2 N1 N2 D F1 F2.
  unfold overlapping, submitSteps.
  rewrite Hf1, Hf2, Hj1, Hj2.
  cbn [truthyField orEmpty negb]. rewrite Tj, V. cbn [negb].
  unfold identifierT, reqUserT. rewrite Hu1, Hu2.
  cbn [applicationRoutes_scope existsb String.eqb Ascii.eqb Bool.eqb orb].
  cbn [thenT tryCatchT awaitT interleave turnOf turn].
  rewrite (Job_findById_run env1 _ _ (F1 _)), J.
  cbn [thenT tryCatchT awaitT interleave turnOf turn].
  rewrite (Application_findOne_run env1 _ _ (F1 _)).
  pose proof (find_none_existsb _ _ A) as NA. unfold isFor in NA. rewrite NA.
  cbn [thenT tryCatchT awaitT interleave turnOf turn].
  rewrite (Job_findById_run env2 _ _ (F2 _)), J.
  cbn [thenT tryCatchT awaitT interleave turnOf turn].
  rewrite (Application_findOne_run env2 _ _ (F2 _)), NA.
  cbn [thenT tryCatchT awaitT interleave turnOf turn].
  fold (submitted env1 c1 u file1 jid). fold (submitted env2 c2 u file2 jid).
  set (a1 := submitted env1 c1 u file1 jid).
  set (a2 := submitted env2 c2 u file2 jid).
  assert (V1 : applicationSchema_validate a1 = None)
    by (eapply submitted_valid; eauto).
  assert (V2 : applicationSchema_validate a2 = None)
    by (eapply submitted_valid; eauto).
  rewrite (Application_save_run env1 a1 db (F1 _) V1 N1).
  cbn [thenT tryCatchT awaitT interleave turnOf turn].
  rewrite (Job_findByIdAndUpdate_inc_run env1 _ _ (F1 _)).
  cbn [thenT tryCatchT awaitT interleave turnOf turn].
  rewrite (Application_findById_populated_run env1 _ _ (F1 _)).
  cbn [applications users jobs].
  rewrite (find_app_fresh (hasAppId (app_id a1)) (applications db) a1 N1)
    by (unfold hasAppId; apply String.eqb_refl).
  cbn [option_map thenT tryCatchT awaitT interleave turnOf turn].
  assert (N2' : existsb (hasAppId (app_id a2)) (applications db ++ [a1])
                = false).
  { rewrite existsb_app. change (app_id a2) with (newId env2). rewrite N2.
    cbn [existsb orb]. unfold hasAppId. change (app_id a1) with (newId env1).
    destruct (String.eqb_spec (newId env1) (newId env2)); [contradiction|].
    reflexivity. }
  rewrite Application_save_run; [| apply F2 | exact V2 | exact N2'].
  cbn [thenT tryCatchT awaitT interleave turnOf turn].
  rewrite (Job_findByIdAndUpdate_inc_run env2 _ _ (F2 _)).
  cbn [thenT tryCatchT awaitT interleave turnOf turn].
  rewrite (Application_findById_populated_run env2 _ _ (F2 _)).
  cbn [applications users jobs].
  rewrite (find_app_fresh (hasAppId (app_id a2)) (applications db ++ [a1]) a2
             N2') by (unfold hasAppId; apply String.eqb_refl).
  cbn [option_map thenT tryCatchT awaitT interleave turnOf turn].
  rewrite <- app_assoc. cbn [app].
  do 2 eexists. split; [reflexivity|]. split; reflexivity.
Qed.


Lemma twice_is_not_onePerPair (db : Db) (before : list Application)
    (a1 a2 : Application) :
  applications db = (before ++ [a1; a2])%list -> pairOf a1 = pairOf a2 ->
  ~ onePerPair db.
Proof.
  intros E Same O. unfold onePerPair in O. rewrite E, map_app in O.
  apply NoDup_app_remove_l in O. cbn [map] in O. rewrite Same in O.
  inversion O as [|x l N _]. apply N. left. reflexivity.
Qed.

(** C1, as the code has it.  Served one after another, submissions keep
    at most one Application per (job, user) pair: a submission by a user
    who has an Application for the job does not succeed and leaves the
    database as it was; when it comes with a file and the two lookups
    answer, it is answered 400 with the duplicate message; so after a
    successful submission a second one for the same job by the same user
    fails and the first Application stays.  But the handler awaits between
    its lookup of an earlier application and its save, and nothing in the
    schema makes the pair unique: of two submissions for one pair in
    flight, whose lookups both come before the first save, both are
    answered 201, both Applications are stored and the job counts both. *)
Theorem one_application_per_pair_unless_overlapping :
  (forall rs db, onePerPair db -> onePerPair (submissions rs db))
  /\ (forall env c db u jid,
        req_user c = Some u -> bodyField c "jobId" = Some jid ->
        applied db (castObjectId jid) (id u) = true ->
        exists r, submitApplication env c db = (Normal r, db)
                  /\ statusCode r <> 201)
  /\ (forall env c db u file jid,
        req_user c = Some u -> req_file c = Some file ->
        bodyField c "jobId" = Some jid -> truthy jid = true ->
        ObjectId_isValid jid = true ->
        fault env JobFindById = None -> fault env ApplicationFindOne = None ->
        find (hasJobId (castObjectId jid)) (jobs db) <> None ->
        applied db (castObjectId jid) (id u) = true ->
        submitApplication env c db
        = (Normal (failure 400 "You have already applied for this job"), db))
  /\ (forall env1 env2 c1 c2 db db1 r1,
        submitApplication env1 c1 db = (Normal r1, db1) ->
        statusCode r1 = 201 ->
        req_user c2 = req_user c1 ->
        bodyField c2 "jobId" = bodyField c1 "jobId" ->
        (exists r2, submitApplication env2 c2 db1 = (Normal r2, db1)
                    /\ statusCode r2 <> 201)
        /\ (req_file c2 <> None ->
            fault env2 JobFindById = None ->
            fault env2 ApplicationFindOne = None ->
            submitApplication env2 c2 db1
            = (Normal (failure 400 "You have already applied for this job"),
               db1)))
  /\ (forall env c db,
        atomically (submitSteps env c) db = submitApplication env c db)
  /\ (forall env1 env2 c1 c2 db u file1 file2 jid cl1 cl2 j,
        req_user c1 = Some u -> req_user c2 = Some u ->
        req_file c1 = Some file1 -> req_file c2 = Some file2 ->
        bodyField c1 "jobId" = Some jid -> bodyField c2 "jobId" = Some jid ->
        truthy jid = true -> ObjectId_isValid jid = true ->
        find (hasJobId (castObjectId jid)) (jobs db) = Some j ->
        applied db (castObjectId jid) (id u) = false ->
        truthy (filename file1) = true -> truthy (filename file2) = true ->
        bodyField c1 "coverLetter" = Some cl1 -> truthy cl1 = true ->
        bodyField c2 "coverLetter" = Some cl2 -> truthy cl2 = true ->
        existsb (hasAppId (newId env1)) (applications db) = false ->
        existsb (hasAppId (newId env2)) (applications db) = false ->
        newId env1 <> newId env2 ->
        faultless env1 -> faultless env2 ->
        exists r1 r2 db',
          interleave overlapping [submitSteps env1 c1; submitSteps env2 c2] db
          = ([Finished r1; Finished r2], db')
          /\ statusCode r1 = 201 /\ statusCode r2 = 201
          /\ applications db'
             = (applications db
                ++ [submitted env1 c1 u file1 jid;
                    submitted env2 c2 u file2 jid])%list
          /\ pairOf (submitted env1 c1 u file1 jid)
             = pairOf (submitted env2 c2 u file2 jid)
          /\ ~ onePerPair db').
Proof.
  split; [|split; [|split; [|split; [|split]]]].
  - exact submissions_keep_onePerPair.
  - exact submit_again_fails.
  - exact submit_again_conflict.
  - intros env1 env2 c1 c2 db db1 r1.
    exact (second_submit_rejected env1 env2 c1 c2 db db1 r1).
  - exact submitSteps_atomically.
  - intros env1 env2 c1 c2 db u file1 file2 jid cl1 cl2 j
           Hu1 Hu2 Hf1 Hf2 Hj1 Hj2 Tj V J A Tf1 Tf2 Hc1 Tc1 Hc2 Tc2 N1 N2 D
           F1 F2.
    destruct (overlapping_submissions_both_succeed
                env1 env2 c1 c2 db u file1 file2 jid cl1 cl2 j
                Hu1 Hu2 Hf1 Hf2 Hj1 Hj2 Tj V J A Tf1 Tf2 Hc1 Tc1 Hc2 Tc2 N1 N2
                D F1 F2) as (r1 & r2 & E & S1 & S2).
    exists r1, r2. eexists. split; [exact E|].
    split; [exact S1|]. split; [exact S2|].
    split; [reflexivity|]. split; [reflexivity|].
    apply (twice_is_not_onePerPair _ (applications db)
             (submitted env1 c1 u file1 jid) (submitted env2 c2 u file2 jid));
      reflexivity.
Qed.

End InFlightFacts.

(* ===================================================================== *)
(** * routes/jobRoutes.js: the lookup of one job and the own postings *)
(* ===================================================================== *)

Section JobRouteFacts.
Context {P : Platform}.
Import JsString.

(** What GET /:id answers when something is thrown. *)
Lemma getJob_unbound (env : Env) (c : Context) (db : Db) :
  getJob env c db
  = (Normal (mkResponse 500
               (Failure "Server error while fetching job"
                        (Some "mongoose is not defined"))), db).
Proof. reflexivity. Qed.

(** C6, on the code: GET /api/jobs/:id never reaches its check of the id.
    routes/jobRoutes.js does not bind [mongoose], so evaluating
    [mongoose.Types.ObjectId.isValid] throws and every request that gets
    past [protect], with a well-formed id or not, is answered 500. *)
Theorem getJob_answers_500_for_every_id :
  forall (env : Env) (c : Context) (db : Db),
    getJob env c db
    = (Normal (mkResponse 500
                 (Failure "Server error while fetching job"
                          (Some "mongoose is not defined"))), db).
Proof. exact getJob_unbound. Qed.

(** The same on the router: a GET with one path segment and a token that
    verifies is answered 500, whatever the segment. *)
Lemma jobRouter_one_job (env : Env) (r : Request) (db : Db) (x t : string)
    (u : AuthUser) :
  req_method r = GET -> req_path r = [x] -> truthy x = true ->
  req_token r = Some t -> jwt_verify t (now env) = Some u ->
  serve env jobRouter r db
  = (Normal (Some (mkResponse 500
                     (Failure "Server error while fetching job"
                              (Some "mongoose is not defined")))), db).
Proof.
  intros Hm Hp Tx Ht Hv. unfold serve, jobRouter, jobRouterIn.
  rewrite dispatch_cons. cbn [route_method route_path req]. rewrite Hm, Hp.
  cbn [eqMethod matchPath].
  rewrite dispatch_cons. cbn [route_method route_path req]. rewrite Hm.
  cbn [eqMethod].
  rewrite dispatch_cons. cbn [route_method route_path route_stack req
                              req_user req_file].
  rewrite Hm, Hp. cbn [eqMethod matchPath]. rewrite Tx. cbn [option_map].
  rewrite runStack_cons.
  rewrite (protect_passes env _ db t u) by assumption.
  rewrite runStack_handle. reflexivity.
Qed.

(** With [mongoose] bound, the handler would turn a malformed id down with
    400 before any lookup. *)
Lemma getJobIn_bound_rejects_bad_id (scope : list string) (env : Env)
    (c : Context) (db : Db) :
  existsb (String.eqb "mongoose") scope = true ->
  ObjectId_isValid (orEmpty (param c "id")) = false ->
  getJobIn scope env c db = (Normal (failure 400 "Invalid job ID format"), db).
Proof.
  intros S V. unfold getJobIn, tryCatch, identifier. rewrite S.
  rewrite bind_unfold. cbn [ret]. rewrite V. reflexivity.
Qed.

(** GET /my on the router: the route /:id, registered before /my, takes
    the request with [id = 'my'] and answers it. *)
Lemma jobRouter_my (scope : list string) (env : Env) (r : Request) (db : Db) :
  req_method r = GET -> req_path r = ["my"] ->
  serve env (jobRouterIn scope) r db
  = match runStack env [protect; handle (getJobIn scope)]
            (mkContext r [("id", "my")] None None) db with
    | (Normal (inl response), d) => (Normal (Some response), d)
    | (Normal (inr c'), d) =>
        dispatch env
          [mkRoute GET [Lit "my"]
             [protect; roleAuthorization ["company"]; handle getMyJobs]] c' d
    | (Thrown e, d) => (Thrown e, d)
    end.
Proof.
  intros Hm Hp. unfold serve, jobRouterIn.
  rewrite dispatch_cons. cbn [route_method route_path req]. rewrite Hm, Hp.
  cbn [eqMethod matchPath].
  rewrite dispatch_cons. cbn [route_method route_path req]. rewrite Hm.
  cbn [eqMethod].
  rewrite dispatch_cons. cbn [route_method route_path route_stack req
                              req_user req_file].
  rewrite Hm, Hp. reflexivity.
Qed.

(** C7, on the code: GET /api/jobs/my never reaches the handler that lists
    the caller's postings.  For an authenticated user, a company included,
    the request is answered 500 by the handler of /:id. *)
Theorem own_jobs_route_is_shadowed
    (env : Env) (r : Request) (db : Db) (t : string) (u : AuthUser) :
  req_method r = GET -> req_path r = ["my"] ->
  req_token r = Some t -> jwt_verify t (now env) = Some u ->
  auth_role u = "company" ->
  serve env jobRouter r db
  = (Normal (Some (mkResponse 500
                     (Failure "Server error while fetching job"
                              (Some "mongoose is not defined")))), db).
Proof.
  intros Hm Hp Ht Hv _. unfold jobRouter. rewrite (jobRouter_my _ env r db Hm Hp).
  rewrite runStack_cons.
  rewrite (protect_passes env _ db t u) by assumption.
  rewrite runStack_handle. reflexivity.
Qed.

(** The shadowing does not hang on the missing binding: with [mongoose]
    bound and 'my' not a well-formed id, /:id answers 400. *)
Lemma id_route_takes_my_with_mongoose_bound
    (scope : list string) (env : Env) (r : Request) (db : Db) (t : string)
    (u : AuthUser) :
  existsb (String.eqb "mongoose") scope = true ->
  ObjectId_isValid "my" = false ->
  req_method r = GET -> req_path r = ["my"] ->
  req_token r = Some t -> jwt_verify t (now env) = Some u ->
  serve env (jobRouterIn scope) r db
  = (Normal (Some (failure 400 "Invalid job ID format")), db).
Proof.
  intros S V Hm Hp Ht Hv. rewrite (jobRouter_my _ env r db Hm Hp).
  rewrite runStack_cons.
  rewrite (protect_passes env _ db t u) by assumption.
  rewrite runStack_handle.
  rewrite getJobIn_bound_rejects_bad_id; [reflexivity | exact S | exact V].
Qed.

(** Reached directly, the handler of /my lists the jobs the caller posted. *)
Lemma getMyJobs_lists_own (env : Env) (c : Context) (db : Db) (u : AuthUser) :
  req_user c = Some u -> fault env JobFind = None ->
  getMyJobs env c db
  = (Normal (mkResponse 200
               (OwnJobs (List.filter
                           (fun j => String.eqb (postedBy j) (id u))
                           (jobs db)))), db).
Proof.
  intros U F. unfold getMyJobs, tryCatch, reqUser. rewrite U.
  rewrite bind_unfold. cbn [ret]. rewrite bind_unfold.
  unfold Job_find. rewrite await_ok by exact F. reflexivity.
Qed.

End JobRouteFacts.

(* ===================================================================== *)
(** * routes/applicationRoutes.js: the reads *)
(* ===================================================================== *)

Section ReadFacts.
Context {P : Platform}.
Import JsString.

Lemma find_none_forall {A} (p : A -> bool) (l : list A) :
  (forall x, In x l -> p x = false) -> find p l = None.
Proof.
  intros H. destruct (find p l) as [x|] eqn:E; [|reflexivity].
  apply find_some in E as [I T]. rewrite (H x I) in T. discriminate.
Qed.

(** The list of applications of a job that the caller did not post, or
    that does not exist. *)
Lemma getJobApplications_not_own (env : Env) (c : Context) (db : Db)
    (u : AuthUser) (jid : string) :
  req_user c = Some u -> param c "jobId" = Some jid ->
  ObjectId_isValid jid = true -> fault env JobFindOne = None ->
  (forall j, In j (jobs db) -> job_id j = castObjectId jid ->
             postedBy j <> id u) ->
  getJobApplications env c db
  = (Normal (failure 404 "Job not found or not authorized"), db).
Proof.
  intros U Pj V F N. unfold getJobApplications, tryCatch, reqUser.
  rewrite Pj, U. cbn [orEmpty]. rewrite bind_unfold. cbn [identifier].
  change (identifier applicationRoutes_scope "mongoose" db) with (Normal tt, db).
  cbn iota. rewrite V. cbn [negb]. rewrite bind_unfold. cbn [ret].
  rewrite bind_unfold. rewrite (Job_findOne_run env _ _ F).
  rewrite find_none_forall; [reflexivity|].
  intros j I. cbn beta.
  destruct (String.eqb_spec (job_id j) (castObjectId jid)) as [E|]; [|reflexivity].
  destruct (String.eqb_spec (postedBy j) (id u)) as [E'|]; [|reflexivity].
  destruct (N j I E E').
Qed.

(** The handler has no answer with status 403. *)
Lemma getJobApplications_never_403 (env : Env) (c : Context) (db db' : Db)
    (r : Response) :
  getJobApplications env c db = (Normal r, db') -> statusCode r <> 403.
Proof.
  unfold getJobApplications, tryCatch. rewrite bind_unfold.
  change (identifier applicationRoutes_scope "mongoose" db) with (Normal tt, db).
  cbn iota.
  destruct (ObjectId_isValid _); cbn [negb];
    [| intros E; inversion E; simpl; discriminate].
  rewrite bind_unfold. unfold reqUser.
  destruct (req_user c) as [u|];
    [| intros E; inversion E; simpl; discriminate].
  cbn [ret]. rewrite bind_unfold. unfold Job_findOne, await.
  destruct (fault env JobFindOne);
    [intros E; inversion E; simpl; discriminate|].
  rewrite bind_unfold. cbn [getDb ret].
  destruct (find _ (jobs db)) as [j|];
    [| intros E; inversion E; simpl; discriminate].
  rewrite bind_unfold. unfold Application_find_withUser, await.
  destruct (fault env ApplicationFind);
    intros E; inversion E; simpl; discriminate.
Qed.

(** C3, as the code has it: a company that asks for the applications of a
    job it did not post is answered 404 with the message 'Job not found or
    not authorized', the very answer it gets for a job that does not exist;
    the handler never answers 403. *)
Theorem foreign_job_is_answered_like_a_missing_one :
  (forall env c db u jid,
      req_user c = Some u -> param c "jobId" = Some jid ->
      ObjectId_isValid jid = true -> fault env JobFindOne = None ->
      (forall j, In j (jobs db) -> job_id j = castObjectId jid ->
                 postedBy j <> id u) ->
      getJobApplications env c db
      = (Normal (failure 404 "Job not found or not authorized"), db))
  /\ (forall env c db db' r,
      getJobApplications env c db = (Normal r, db') -> statusCode r <> 403).
Proof.
  split.
  - exact getJobApplications_not_own.
  - exact getJobApplications_never_403.
Qed.

(** The jobs of the [$in] list are the jobs the caller posted. *)
Lemma ownJobs_mayRead (db : Db) (u : AuthUser) (a : Application) :
  existsb (String.eqb (app_job a))
          (nodup string_dec
             (map job_id
                (List.filter (fun j => String.eqb (postedBy j) (id u))
                             (jobs db))))
  = existsb (fun j => String.eqb (postedBy j) (id u)
                      && String.eqb (job_id j) (app_job a)) (jobs db).
Proof.
  apply eq_true_iff_eq. rewrite !existsb_exists. split.
  - intros [i [I E]]. apply nodup_In, in_map_iff in I as [j [<- I]].
    apply filter_In in I as [I O]. exists j. split; [exact I|].
    apply String.eqb_eq in E. rewrite O, E, String.eqb_refl. reflexivity.
  - intros [j [I E]]. apply andb_prop in E as [O E].
    apply String.eqb_eq in E. exists (job_id j). split.
    + apply nodup_In, in_map_iff. exists j. split; [reflexivity|].
      apply filter_In. auto.
    + rewrite E. apply String.eqb_refl.
Qed.

(** The four content types are header values. *)
Lemma contentTypeOf_valid (name : string) :
  validHeaderValue (contentTypeOf name) = true.
Proof.
  unfold contentTypeOf.
  repeat match goal with
         | |- context [if ?b then _ else _] => destruct b
         end; reflexivity.
Qed.

(** Every answer of the résumé handler when the database answers. *)
Lemma getResume_run (fs : Fs) (env : Env) (c : Context) (db : Db)
    (u : AuthUser) (name : string) :
  req_user c = Some u -> param c "filename" = Some name ->
  fault env JobFind = None -> fault env ApplicationFindOne = None ->
  getResume fs env c db
  = (Normal
       (if negb (existsb (readable db u name) (applications db))
        then failure 403 "Not authorized to access this file"
        else if negb (fs (uploadsPath name))
        then failure 404 "Resume file not found"
        else if negb (validHeaderValue
                        ("inline; filename=" ++ dquote ++ name ++ dquote))
        then mkResponse 500
               (Failure "Server error during resume download"
                        (devError env (invalidHeader "Content-Disposition")))
        else match res_sendFile (uploadsPath name) with
             | None =>
                 mkResponse 200
                   (SentFile (contentTypeOf name)
                             ("inline; filename=" ++ dquote ++ name ++ dquote)
                             (uploadsPath name))
             | Some e => errorHandler env e
             end), db).
Proof.
  intros U Pn F1 F2. unfold getResume, tryCatch, reqUser.
  rewrite U, Pn. cbn [orEmpty]. rewrite bind_unfold. cbn [ret].
  rewrite bind_unfold. rewrite (Job_distinct_id_run env _ _ F1).
  rewrite bind_unfold. rewrite (Application_findOne_run env _ _ F2).
  assert (E : forall a,
             (String.eqb (resume a) name
              && (String.eqb (app_user a) (id u)
                  || existsb (String.eqb (app_job a))
                       (nodup string_dec
                          (map job_id
                             (List.filter
                                (fun j => String.eqb (postedBy j) (id u))
                                (jobs db))))))
             = readable db u name a).
  { intros a. unfold readable, mayRead. now rewrite ownJobs_mayRead. }
  rewrite (find_ext _ _ _ E).
  destruct (existsb (readable db u name) (applications db)) eqn:X.
  - destruct (find_existsb _ _ X) as [a ->]. cbn [negb].
    destruct (fs (uploadsPath name)); [|reflexivity]. cbn [negb].
    rewrite bind_unfold. unfold setHeader at 1.
    rewrite contentTypeOf_valid. cbn [ret]. rewrite bind_unfold.
    unfold setHeader.
    destruct (validHeaderValue _); [|reflexivity]. cbn [ret negb].
    destruct (res_sendFile (uploadsPath name)); reflexivity.
  - rewrite (find_none_existsb _ _ X). reflexivity.
Qed.

(** C4, as the code has it: the résumé handler answers 403 whenever no
    Application with the file name is one the requester may read, as its
    applicant or as the poster of its job, and so also when no Application
    references the file name at all; it answers 404 exactly when there is
    such an Application and the file is absent from storage. *)
Theorem resume_is_forbidden_before_it_is_missing
    (fs : Fs) (env : Env) (c : Context) (db : Db) (u : AuthUser)
    (name : string) :
  req_user c = Some u -> param c "filename" = Some name ->
  fault env JobFind = None -> fault env ApplicationFindOne = None ->
  exists r,
    getResume fs env c db = (Normal r, db)
    /\ (statusCode r = 403
        <-> existsb (readable db u name) (applications db) = false)
    /\ (statusCode r = 404
        <-> existsb (readable db u name) (applications db) = true
            /\ fs (uploadsPath name) = false)
    /\ ((forall a, In a (applications db) -> resume a <> name) ->
        r = failure 403 "Not authorized to access this file").
Proof.
  intros U Pn F1 F2. eexists. split; [exact (getResume_run fs env c db u name U Pn F1 F2)|].
  destruct (existsb (readable db u name) (applications db)) eqn:X; cbn [negb].
  - destruct (fs (uploadsPath name)) eqn:Y; cbn [negb statusCode failure].
    + assert (S : forall code,
                 code <> 200 -> code <> 500 ->
                 statusCode
                   (if negb (validHeaderValue
                               ("inline; filename=" ++ dquote ++ name ++ dquote))
                    then mkResponse 500
                           (Failure "Server error during resume download"
                              (devError env
                                 (invalidHeader "Content-Disposition")))
                    else match res_sendFile (uploadsPath name) with
                         | None =>
                             mkResponse 200
                               (SentFile (contentTypeOf name)
                                  ("inline; filename=" ++ dquote ++ name
                                   ++ dquote)
                                  (uploadsPath name))
                         | Some e => errorHandler env e
                         end) <> code).
      { intros code N2 N5.
        destruct (validHeaderValue _); cbn [negb statusCode];
          [|congruence].
        destruct (res_sendFile _); cbn [statusCode errorHandler]; congruence. }
      split; [split|split; [split|]].
      * intros H. exfalso. revert H. apply S; discriminate.
      * discriminate.
      * intros H. exfalso. revert H. apply S; discriminate.
      * intros [_ H]. discriminate.
      * intros N. apply existsb_exists in X as [a [I R]].
        unfold readable in R. apply andb_prop in R as [R _].
        apply String.eqb_eq in R. destruct (N a I R).
    + repeat split; try discriminate; try tauto.
      intros N. apply existsb_exists in X as [a [I R]].
      unfold readable in R. apply andb_prop in R as [R _].
      apply String.eqb_eq in R. destruct (N a I R).
  - cbn [statusCode failure]. repeat split; try discriminate; try tauto.
    intros [H _]. discriminate.
Qed.

End ReadFacts.

(* ===================================================================== *)
(** * The sample requests *)
(* ===================================================================== *)

Module SampleRuns.
Import Sample JsString.

(** Carol applies twice to the job of Acme.  One request after the other:
    one Application is stored and the second request is answered with the
    duplicate conflict.  Both in flight, with the turns of [overlapping]:
    both are answered 201 and the pair has two Applications. *)
Lemma one_application_per_pair_unless_overlapping_witness :
  let db1 := stateAfter (submitApplication env0 withLetter) db0 in
  onePerPair db0
  /\ onePerPair
       (submissions [(env0, submitRequest fields); (env1, submitRequest fields)]
                    db0)
  /\ applied db1 (castObjectId jobId1) carolId = true
  /\ submitApplication env1 withLetter db1
     = (Normal (failure 400 "You have already applied for this job"), db1)
  /\ exists r1 r2 db',
       interleave overlapping
         [submitSteps env0 withLetter; submitSteps env1 withLetter] db0
       = ([Finished r1; Finished r2], db')
       /\ statusCode r1 = 201 /\ statusCode r2 = 201
       /\ ~ onePerPair db'.
Proof.
  destruct (@one_application_per_pair_unless_overlapping platform)
    as (I & _ & D & _ & _ & Both).
  assert (O : onePerPair db0) by constructor.
  split; [exact O|]. split; [apply I, O|]. split; [reflexivity|].
  split.
  - apply (D env1 withLetter _ (asUser carol) cv jobId1);
      try reflexivity; discriminate.
  - destruct (Both env0 env1 withLetter withLetter db0 (asUser carol) cv cv
                jobId1 letter letter job1)
      as (r1 & r2 & db' & E & S1 & S2 & _ & _ & N);
      try reflexivity; try discriminate;
      try (intros call; reflexivity).
    exists r1, r2, db'. repeat split; assumption.
Defined.

(** The claim of C1 fails on the code when two requests are in flight:
    Carol's submission sent twice, the second before the first has saved,
    is answered 201 twice and stored twice, and the job counts two
    applications of one applicant. *)
Lemma overlapping_submissions_counterexample :
  onePerPair db0
  /\ exists r1 r2 db',
       interleave overlapping
         [submitSteps env0 withLetter; submitSteps env1 withLetter] db0
       = ([Finished r1; Finished r2], db')
       /\ statusCode r1 = 201 /\ statusCode r2 = 201
       /\ map pairOf (applications db')
          = [(jobId1, carolId); (jobId1, carolId)]
       /\ map app_id (applications db') = [appId1; appId2]
       /\ map applicationCount (jobs db') = [2%Z].
Proof.
  split; [constructor|]. do 3 eexists.
  split; [reflexivity|]. repeat split.
Qed.


(** Carol's first application to the job of Acme. *)
Lemma submit_creates_one_pending_and_counts_it_witness :
  exists r db' a j',
    submitApplication env0 withLetter db0 = (Normal r, db')
    /\ statusCode r = 201
    /\ applications db' = [a] /\ status a = "pending"
    /\ jobs db' = [j']
    /\ applicationCount j' = (applicationCount job1 + 1)%Z
    /\ sameJobButCount job1 j'.
Proof.
  destruct (submit_creates_one_pending_and_counts_it
              env0 withLetter db0 (asUser carol) cv jobId1 letter job1)
    as (r & db' & a & j' & before & after & E & S & A & St & _ & _ & _ & _ & _
        & J & J' & C & Same & _);
    try reflexivity.
  { intros call. reflexivity. }
  { unfold isSafeInteger. simpl. lia. }
  exists r, db', a, j'. repeat split; try assumption; try apply Same.
  destruct before as [|x [|y before]]; simpl in J; inversion J; subst.
  exact J'.
Defined.

(** The claim of C2 fails on the code twice over.  Without a cover letter
    a submission that satisfies the stated preconditions is answered 500,
    stores no Application and counts nothing; with one, the counted job
    does not keep its updatedAt. *)
Lemma submit_counterexample :
  find (hasJobId (castObjectId jobId1)) (jobs db0) = Some job1
  /\ applied db0 (castObjectId jobId1) carolId = false
  /\ req_file withoutLetter = Some cv
  /\ submitApplication env0 withoutLetter db0
     = (Normal (mkResponse 500
                  (Failure "Server error during application submission" None)),
        db0)
  /\ option_map job_updatedAt
       (find (hasJobId jobId1)
             (jobs (stateAfter (submitApplication env0 withLetter) db0)))
     = Some 10
  /\ job_updatedAt job1 = 5.
Proof. repeat split. Qed.

(** Bits asks for the applications of the job of Acme. *)
Lemma foreign_job_is_answered_like_a_missing_one_witness :
  let c := mkContext (get ["job"; jobId1] bits) [("jobId", jobId1)]
                     (Some (asUser bits)) None in
  getJobApplications env0 c db0
  = (Normal (failure 404 "Job not found or not authorized"), db0)
  /\ statusCode (failure 404 "Job not found or not authorized") <> 403.
Proof.
  intros c. destruct (@foreign_job_is_answered_like_a_missing_one platform)
    as [N F].
  assert (E : getJobApplications env0 c db0
              = (Normal (failure 404 "Job not found or not authorized"), db0)).
  { apply (N env0 c db0 (asUser bits) jobId1); try reflexivity.
    intros j [<- | []] _. discriminate. }
  split; [exact E | exact (F env0 c db0 db0 _ E)].
Defined.

(** The job of Acme exists, Bits is a company that did not post it, and
    its request for the applications of the job is answered 404, not 403. *)
Lemma foreign_job_counterexample :
  find (hasJobId jobId1) (jobs db0) = Some job1
  /\ postedBy job1 <> user_id bits
  /\ user_role bits = "company"
  /\ serve env0 [jobApplicationsRoute] (get ["job"; jobId1] bits) db0
     = (Normal (Some (failure 404 "Job not found or not authorized")), db0).
Proof. repeat split. discriminate. Qed.

(** Carol asks for a résumé that no Application names. *)
Lemma resume_is_forbidden_before_it_is_missing_witness :
  let c := mkContext (get ["resume"; "cv.pdf"] carol) [("filename", "cv.pdf")]
                     (Some (asUser carol)) None in
  exists r,
    getResume noFiles env0 c db0 = (Normal r, db0)
    /\ r = failure 403 "Not authorized to access this file".
Proof.
  intros c.
  destruct (resume_is_forbidden_before_it_is_missing
              noFiles env0 c db0 (asUser carol) "cv.pdf")
    as (r & E & _ & _ & N); try reflexivity.
  exists r. split; [exact E | apply N]. intros a [].
Defined.

(** No Application references the file name, and the answer is 403, not
    404. *)
Lemma resume_counterexample :
  applications db0 = []
  /\ serve env0 [resumeRoute noFiles] (get ["resume"; "cv.pdf"] carol) db0
     = (Normal (Some (failure 403 "Not authorized to access this file")), db0).
Proof. repeat split. Qed.

(** The database refuses the counter update of Carol's application. *)
Lemma failed_count_leaves_application_witness :
  exists r db',
    submitApplication envNoInc withLetter db0 = (Normal r, db')
    /\ statusCode r = 500
    /\ applied db' (castObjectId jobId1) carolId = true
    /\ jobs db' = jobs db0.
Proof.
  destruct (failed_count_leaves_application
              envNoInc withLetter db0 (asUser carol) cv jobId1 letter job1
              "connection lost")
    as (r & db' & E & S & A & _ & J & _); try reflexivity.
  exists r, db'. auto.
Defined.

(** After the failed counter update the database holds one Application for
    the job while the job counts none. *)
Lemma failed_count_counterexample :
  let db' :=
    stateAfter (serve envNoInc [submitRoute] (submitRequest fields)) db0 in
  completion (serve envNoInc [submitRoute] (submitRequest fields)) db0
  = Normal (Some (mkResponse 500
                    (Failure "Server error during application submission"
                             None)))
  /\ List.length
       (List.filter (fun a => String.eqb (app_job a) jobId1) (applications db'))
     = 1
  /\ option_map applicationCount (find (hasJobId jobId1) (jobs db')) = Some 0%Z.
Proof. repeat split. Qed.

(** Acme, a company, asks for its own postings. *)
Lemma own_jobs_route_is_shadowed_witness :
  serve env0 jobRouter (get ["my"] acme) db0
  = (Normal (Some (mkResponse 500
                     (Failure "Server error while fetching job"
                              (Some "mongoose is not defined")))), db0).
Proof.
  apply (own_jobs_route_is_shadowed env0 (get ["my"] acme) db0
           (tokenOf acme) (asUser acme)); reflexivity.
Defined.

(** A login for an unknown address and a login for Carol with a wrong
    password. *)
Lemma login_failures_indistinguishable_witness :
  login env0 (credentials "nobody@mail.example" "hunter22") db0
  = (Normal (failure 400 "Invalid credentials"), db0)
  /\ login env1 (credentials "carol@mail.example" "hunter23") db0
     = (Normal (failure 400 "Invalid credentials"), db0).
Proof.
  destruct (login_failures_indistinguishable
              env0 env1 (credentials "nobody@mail.example" "hunter22")
              (credentials "carol@mail.example" "hunter23") db0
              "nobody@mail.example" "hunter22" "carol@mail.example" "hunter23"
              carol) as (A & B & _); try reflexivity.
  split; assumption.
Defined.

(** Carol applies without a cover letter. *)
Lemma submit_without_cover_letter_fails_witness :
  exists r, submitApplication env0 withoutLetter db0 = (Normal r, db0)
            /\ statusCode r = 500.
Proof.
  destruct (submit_without_cover_letter_fails
              env0 withoutLetter db0 (asUser carol) cv jobId1 job1)
    as (r & E & S & _); try reflexivity.
  exists r. auto.
Defined.

(** Carol logs in with blanks around her password; Dan signs up with a
    password of three characters, and with six blanks. *)
Lemma password_trimmed_but_measured_untrimmed_witness :
  login env0 (credentials "carol@mail.example" "  hunter22 ") db0
  = login env0 (credentials "carol@mail.example" "hunter22") db0
  /\ login env0 (credentials "carol@mail.example" "  hunter22 ") db0
     = (Normal (mkResponse 200
                  (Authenticated (jwt_sign carolId "jobSeeker" 10) "jobSeeker"
                                 (publicUser carol) "Login successful")), db0)
  /\ validateSignup env0 (registration "Dan" "dan@mail.example" "abc") db0
     = (Normal (inl (failure 400 "Password must be at least 6 characters")),
        db0)
  /\ validateSignup env0 (registration "Dan" "dan@mail.example" "      ") db0
     = (Normal (inr (registration "Dan" "dan@mail.example" "      ")), db0)
  /\ users (stateAfter
              (runStack env0 (route_stack signupRoute)
                 (registration "Dan" "dan@mail.example" "      ")) db0)
     = [acme; bits; carol;
        mkUser appId1 "Dan" "dan@mail.example" (bcrypt_hash "" "s9")
               "jobSeeker"].
Proof.
  destruct (@password_trimmed_but_measured_untrimmed platform)
    as (L & Found & _ & _ & Measured & _ & V).
  split; [|split; [|split]].
  - apply (L env0 (credentials "carol@mail.example" "hunter22")
             (credentials "carol@mail.example" "  hunter22 ") db0
             "hunter22" "  " " "); reflexivity.
  - exact (Found env0 (credentials "carol@mail.example" "  hunter22 ") db0
             "carol@mail.example" "hunter22" "  " " " carol
             eq_refl eq_refl eq_refl eq_refl eq_refl eq_refl eq_refl eq_refl
             eq_refl).
  - exact (Measured env0 (registration "Dan" "dan@mail.example" "abc") db0
             "Dan" "dan@mail.example" "abc"
             eq_refl eq_refl eq_refl eq_refl eq_refl eq_refl).
  - destruct (V env0 (registration "Dan" "dan@mail.example" "      ") db0
                "Dan" "dan@mail.example" "      ") as [A B]; try reflexivity.
    split; [exact A|]. rewrite B; try reflexivity.
    intros v [<- | [<- | [<- | []]]]; split; discriminate.
Defined.

(** The claim of C10 fails on the signup route: 'abc' is turned down and
    registers nothing, and the same password with three blanks after it
    registers the account, under the hash of 'abc'. *)
Lemma short_password_passes_when_padded :
  runStack env0 (route_stack signupRoute)
    (registration "Dan" "dan@mail.example" "abc") db0
  = (Normal (inl (failure 400 "Password must be at least 6 characters")), db0)
  /\ users (stateAfter
              (runStack env0 (route_stack signupRoute)
                 (registration "Dan" "dan@mail.example" "abc   ")) db0)
     = [acme; bits; carol;
        mkUser appId1 "Dan" "dan@mail.example" (bcrypt_hash "abc" "s9")
               "jobSeeker"].
Proof. split; reflexivity. Qed.

End SampleRuns.

(* ===================================================================== *)
(** * Sorting newest first *)
(* ===================================================================== *)

Section SortFacts.
Context {A : Type}.
Variable key : A -> Date.

Lemma insertNewestFirst_perm (x : A) (l : list A) :
  Permutation (insertNewestFirst key x l) (x :: l).
Proof.
  induction l as [|y l IH]; simpl; [reflexivity|].
  destruct (key y <? key x)%nat; [reflexivity|].
  rewrite IH. apply perm_swap.
Qed.

Lemma sortNewestFirst_perm (l : list A) :
  Permutation (sortNewestFirst key l) l.
Proof.
  induction l as [|x l IH]; simpl; [reflexivity|].
  unfold sortNewestFirst in *. simpl.
  rewrite insertNewestFirst_perm. now constructor.
Qed.

Lemma insertNewestFirst_sorted (x : A) (l : list A) :
  newestFirst key l -> newestFirst key (insertNewestFirst key x l).
Proof.
  unfold newestFirst. induction l as [|y l IH]; simpl; intros S.
  - repeat constructor.
  - inversion S as [|? ? S' F]; subst.
    destruct (Nat.ltb_spec (key y) (key x)) as [L|L].
    + constructor; [exact S|]. constructor; [lia|].
      eapply Forall_impl; [|exact F]. cbn beta. intros; lia.
    + constructor; [auto|].
      eapply Permutation_Forall;
        [symmetry; apply insertNewestFirst_perm|].
      constructor; [exact L | exact F].
Qed.

Lemma sortNewestFirst_sorted (l : list A) :
  newestFirst key (sortNewestFirst key l).
Proof.
  induction l as [|x l IH]; [constructor|].
  unfold sortNewestFirst in *. simpl. now apply insertNewestFirst_sorted.
Qed.

Lemma sortNewestFirst_In (l : list A) (x : A) :
  In x (sortNewestFirst key l) <-> In x l.
Proof.
  split; apply Permutation_in;
    [apply sortNewestFirst_perm | symmetry; apply sortNewestFirst_perm].
Qed.

End SortFacts.

(* ===================================================================== *)
(** * The status update *)
(* ===================================================================== *)

Section StatusFacts.
Context {P : Platform}.
Import JsString.

Lemma Application_findById_withOwner_run (env : Env) (i : ObjectId) (db : Db) :
  fault env ApplicationFindById = None ->
  Application_findById_withOwner env i db
  = (Normal (option_map
               (fun a => (a, option_map jobOwner
                               (find (hasJobId (app_job a)) (jobs db))))
               (find (hasAppId i) (applications db))), db).
Proof. intros F. unfold Application_findById_withOwner. now rewrite await_ok. Qed.

(** What the schema asks of a stored document whose status is set. *)
Lemma withStatus_validates (a : Application) (s : string) (t : Date) :
  applicationSchema_validate (withStatus s t a) = None
  <-> resume a <> "" /\ coverLetter a <> ""
      /\ existsb (String.eqb s) statusEnum = true.
Proof.
  unfold applicationSchema_validate, applicationSchema_errors, withStatus.
  cbn [resume coverLetter status].
  destruct (resume a) as [|x r]; cbn [truthy];
    [split; [discriminate | intros [N _]; congruence]|].
  destruct (coverLetter a) as [|y l]; cbn [truthy];
    [split; [discriminate | intros (_ & N & _); congruence]|].
  destruct (existsb (String.eqb s) statusEnum); cbn [app].
  - split; [intros _; repeat split; discriminate | reflexivity].
  - split; [discriminate | intros (_ & _ & N); discriminate].
Qed.

(** The save of the status throws and leaves the database alone, or writes
    the status of the document with the given [_id]. *)
Lemma Application_save_status_cases (env : Env) (a : Application) (s : string)
    (db : Db) :
  (exists e, Application_save_status env a s db = (Thrown e, db))
  \/ (existsb (String.eqb s) statusEnum = true \/ status a = s)
     /\ Application_save_status env a s db
        = (Normal tt,
           if String.eqb (status a) s then db
           else mkDb (users db) (jobs db)
                     (updateFirst (hasAppId (app_id a)) (withStatus s (now env))
                                  (applications db))).
Proof.
  unfold Application_save_status, await.
  destruct (fault env ApplicationSave); [left; eexists; reflexivity|].
  destruct (applicationSchema_validate _) eqn:V; [left; eexists; reflexivity|].
  apply withStatus_validates in V as (_ & _ & V).
  right. split; [left; exact V|].
  destruct (String.eqb (status a) s); reflexivity.
Qed.

(** The two checks in front of the lookup need no database. *)
Lemma status_update_bad_status (env : Env) (c : Context) (db : Db) :
  includes validStatuses (bodyField c "status") = false ->
  updateApplicationStatus env c db
  = (Normal (Refused (failure 400 "Invalid status value")), db).
Proof.
  intros V. unfold updateApplicationStatus, tryCatch. rewrite V. reflexivity.
Qed.

Lemma status_update_bad_id (env : Env) (c : Context) (db : Db) :
  includes validStatuses (bodyField c "status") = true ->
  ObjectId_isValid (orEmpty (param c "id")) = false ->
  updateApplicationStatus env c db
  = (Normal (Refused (failure 400 "Invalid application ID format")), db).
Proof.
  intros V I. unfold updateApplicationStatus, tryCatch. rewrite V. cbn [negb].
  rewrite bind_unfold.
  change (identifier applicationRoutes_scope "mongoose" db) with (Normal tt, db).
  cbn iota. rewrite I. reflexivity.
Qed.

(** The handler up to the answer of the lookup. *)
Lemma status_update_found (env : Env) (c : Context) (db : Db) :
  includes validStatuses (bodyField c "status") = true ->
  ObjectId_isValid (orEmpty (param c "id")) = true ->
  fault env ApplicationFindById = None ->
  updateApplicationStatus env c db
  = tryCatch
      (match find (hasAppId (castObjectId (orEmpty (param c "id"))))
                  (applications db) with
       | None => ret (Refused (failure 404 "Application not found"))
       | Some a =>
           match find (hasJobId (app_job a)) (jobs db) with
           | None => throw "Cannot read properties of null (reading 'postedBy')"
           | Some j =>
               u <- reqUser c ;;
               if negb (String.eqb (postedBy j) (id u))
               then ret (Refused
                           (failure 403
                              "Not authorized to update this application"))
               else
                 Application_save_status env a
                   (orEmpty (bodyField c "status")) ;;;
                 ret (Answered 200
                        (StatusUpdated "Application status updated"
                           (app_id a) (orEmpty (bodyField c "status"))
                           (job_id j) None (app_user a)))
           end
       end)
      (fun error =>
         ret (Refused (mkResponse 500
                         (Failure "Server error updating application status"
                                  (devError env error))))) db.
Proof.
  intros V I F. unfold updateApplicationStatus, tryCatch. rewrite V. cbn [negb].
  rewrite bind_unfold.
  change (identifier applicationRoutes_scope "mongoose" db) with (Normal tt, db).
  cbn iota. rewrite I. cbn [negb]. rewrite bind_unfold.
  rewrite (Application_findById_withOwner_run env _ _ F).
  destruct (find (hasAppId _) (applications db)) as [a|]; [|reflexivity].
  cbn [option_map].
  destruct (find (hasJobId (app_job a)) (jobs db)) as [j|]; reflexivity.
Qed.

(** Every run of the handler: it refuses and leaves the database alone, or
    it has found the application, with a job the caller posted, and writes
    a status of the list to it. *)
Lemma status_update_cases (env : Env) (c : Context) (db : Db) :
  (exists r, updateApplicationStatus env c db = (Normal (Refused r), db))
  \/ exists a j u s,
       bodyField c "status" = Some s
       /\ existsb (String.eqb s) validStatuses = true
       /\ find (hasAppId (castObjectId (orEmpty (param c "id"))))
               (applications db) = Some a
       /\ find (hasJobId (app_job a)) (jobs db) = Some j
       /\ req_user c = Some u /\ postedBy j = id u
       /\ updateApplicationStatus env c db
          = (Normal (Answered 200
                       (StatusUpdated "Application status updated"
                          (app_id a) s (job_id j) None (app_user a))),
             if String.eqb (status a) s then db
             else mkDb (users db) (jobs db)
                       (updateFirst (hasAppId (app_id a))
                                    (withStatus s (now env))
                                    (applications db))).
Proof.
  destruct (includes validStatuses (bodyField c "status")) eqn:V;
    [| left; eexists; apply status_update_bad_status, V].
  destruct (ObjectId_isValid (orEmpty (param c "id"))) eqn:I;
    [| left; eexists; apply status_update_bad_id; assumption].
  destruct (fault env ApplicationFindById) as [e|] eqn:F.
  { left. eexists. unfold updateApplicationStatus, tryCatch. rewrite V.
    cbn [negb]. rewrite bind_unfold.
    change (identifier applicationRoutes_scope "mongoose" db)
      with (Normal tt, db).
    cbn iota. rewrite I. cbn [negb]. rewrite bind_unfold.
    unfold Application_findById_withOwner.
    rewrite (await_fails env _ _ _ e F). reflexivity. }
  rewrite (status_update_found env c db V I F). unfold tryCatch.
  destruct (find (hasAppId _) (applications db)) as [a|] eqn:A;
    [| left; eexists; reflexivity].
  destruct (find (hasJobId (app_job a)) (jobs db)) as [j|] eqn:J;
    [| left; eexists; reflexivity].
  rewrite bind_unfold. unfold reqUser.
  destruct (req_user c) as [u|] eqn:U; [| left; eexists; reflexivity].
  cbn [ret]. destruct (String.eqb_spec (postedBy j) (id u)) as [O|O];
    cbn [negb]; [| left; eexists; reflexivity].
  rewrite bind_unfold.
  destruct (bodyField c "status") as [s|] eqn:S; [|discriminate V].
  cbn [includes orEmpty] in *.
  destruct (Application_save_status_cases env a s db) as [[e ->] | [_ ->]].
  - left. eexists. reflexivity.
  - right. exists a, j, u, s. repeat split; auto.
Qed.

(** The status route answers its two validation errors without the
    database: a status outside the four values is turned down first, with
    400, whatever the id is, and a malformed id next, also with 400, even
    when every database operation fails. *)
Theorem status_update_checks_need_no_database
    (env : Env) (c : Context) (db : Db) :
  (includes validStatuses (bodyField c "status") = false ->
   updateApplicationStatus env c db
   = (Normal (Refused (failure 400 "Invalid status value")), db))
  /\ (includes validStatuses (bodyField c "status") = true ->
      ObjectId_isValid (orEmpty (param c "id")) = false ->
      updateApplicationStatus env c db
      = (Normal (Refused (failure 400 "Invalid application ID format")), db)).
Proof.
  split.
  - apply status_update_bad_status.
  - apply status_update_bad_id.
Qed.

(** With a valid status and a well-formed id, the status route answers 404
    for an application that is not stored and 403 for one whose job the
    caller did not post; in both cases nothing is written. *)
Theorem status_update_refuses_strangers
    (env : Env) (c : Context) (db : Db) :
  includes validStatuses (bodyField c "status") = true ->
  ObjectId_isValid (orEmpty (param c "id")) = true ->
  fault env ApplicationFindById = None ->
  (find (hasAppId (castObjectId (orEmpty (param c "id")))) (applications db)
   = None ->
   updateApplicationStatus env c db
   = (Normal (Refused (failure 404 "Application not found")), db))
  /\ (forall a j u,
        find (hasAppId (castObjectId (orEmpty (param c "id"))))
             (applications db) = Some a ->
        find (hasJobId (app_job a)) (jobs db) = Some j ->
        req_user c = Some u -> postedBy j <> id u ->
        updateApplicationStatus env c db
        = (Normal (Refused
                     (failure 403 "Not authorized to update this application")),
           db)).
Proof.
  intros V I F. rewrite (status_update_found env c db V I F). split.
  - intros ->. reflexivity.
  - intros a j u -> -> U O. unfold tryCatch, reqUser. rewrite U.
    rewrite bind_unfold. cbn [ret].
    destruct (String.eqb_spec (postedBy j) (id u)); [contradiction|].
    reflexivity.
Qed.

Lemma withStatus_same (s : string) (t : Date) (a : Application) :
  sameApplicationButStatus a (withStatus s t a).
Proof. unfold sameApplicationButStatus. simpl. repeat split. Qed.

Lemma sameApplicationButStatus_refl (a : Application) :
  sameApplicationButStatus a a.
Proof. unfold sameApplicationButStatus. repeat split. Qed.

(** The company that posted the job sets the status of a stored
    application, which has a résumé and a cover letter, to any of the four
    values, whatever the status was: the answer is 200,
    that application gets the status and keeps every other field but
    updatedAt, and every other application, every job and every user stay
    as they were. *)
Theorem status_update_writes_one_status
    (env : Env) (c : Context) (db : Db) (a : Application) (j : Job)
    (u : AuthUser) (s : string) :
  bodyField c "status" = Some s ->
  existsb (String.eqb s) validStatuses = true ->
  ObjectId_isValid (orEmpty (param c "id")) = true ->
  fault env ApplicationFindById = None -> fault env ApplicationSave = None ->
  find (hasAppId (castObjectId (orEmpty (param c "id")))) (applications db)
  = Some a ->
  find (hasJobId (app_job a)) (jobs db) = Some j ->
  resume a <> "" -> coverLetter a <> "" ->
  req_user c = Some u -> postedBy j = id u ->
  exists db' a' before after,
    updateApplicationStatus env c db
    = (Normal (Answered 200
                 (StatusUpdated "Application status updated" (app_id a) s
                                (job_id j) None (app_user a))), db')
    /\ applications db = (before ++ a :: after)%list
    /\ applications db' = (before ++ a' :: after)%list
    /\ status a' = s /\ sameApplicationButStatus a a'
    /\ users db' = users db /\ jobs db' = jobs db.
Proof.
  intros S V I F1 F2 A J Nr Nl U O.
  assert (V' : includes validStatuses (bodyField c "status") = true)
    by (rewrite S; exact V).
  rewrite (status_update_found env c db V' I F1). rewrite A, J.
  unfold tryCatch, reqUser. rewrite U. rewrite bind_unfold. cbn [ret].
  rewrite O, String.eqb_refl. cbn [negb]. rewrite bind_unfold.
  rewrite S. cbn [orEmpty].
  unfold Application_save_status. rewrite await_ok by exact F2.
  assert (Ok : applicationSchema_validate (withStatus s (updatedAt a) a) = None)
    by (apply withStatus_validates; auto).
  rewrite Ok.
  pose proof (find_some _ _ A) as [_ Ia]. unfold hasAppId in Ia.
  apply String.eqb_eq in Ia.
  assert (A' : find (hasAppId (app_id a)) (applications db) = Some a)
    by (rewrite Ia; exact A).
  destruct (updateFirst_split (hasAppId (app_id a)) (withStatus s (now env))
              (applications db) a A') as (before & after & Sp & Up & _).
  destruct (String.eqb_spec (status a) s) as [E|N].
  - exists db, a, before, after. cbn [ret].
    repeat split; auto using sameApplicationButStatus_refl.
  - eexists. exists (withStatus s (now env) a), before, after.
    split; [reflexivity|]. cbn [applications users jobs].
    repeat split; auto.
Qed.

End StatusFacts.

(* ===================================================================== *)
(** * Sequences of submissions and status updates *)
(* ===================================================================== *)

Lemma In_updateFirst {A} (p : A -> bool) (f : A -> A) (l : list A) (y : A) :
  In y (updateFirst p f l) ->
  In y l \/ exists x, In x l /\ p x = true /\ y = f x.
Proof.
  induction l as [|x l IH]; simpl; [tauto|].
  destruct (p x) eqn:E; simpl.
  - intros [<- | I]; [right; exists x; auto | left; auto].
  - intros [<- | I]; [left; auto|].
    destruct (IH I) as [I' | (z & I' & Pz & ->)]; [left; auto|].
    right. exists z. auto.
Qed.

Lemma map_updateFirst {A B} (g : A -> B) (p : A -> bool) (f : A -> A)
    (l : list A) :
  (forall x, g (f x) = g x) -> map g (updateFirst p f l) = map g l.
Proof.
  intros K. induction l as [|x l IH]; simpl; [reflexivity|].
  destruct (p x); simpl; [now rewrite K | now rewrite IH].
Qed.

Lemma filter_updateFirst_length {A} (q p : A -> bool) (f : A -> A)
    (l : list A) :
  (forall x, q (f x) = q x) ->
  length (List.filter q (updateFirst p f l)) = length (List.filter q l).
Proof.
  intros K. induction l as [|x l IH]; simpl; [reflexivity|].
  destruct (p x); simpl.
  - rewrite K. destruct (q x); reflexivity.
  - destruct (q x); simpl; now rewrite IH.
Qed.

Section WorkflowFacts.
Context {P : Platform}.
Import JsString.

(** What a submission leaves: the database as it was, or one more
    application, in status 'pending', for a job that exists and a pair
    that had none, and the count of that job raised unless the update
    failed. *)
Lemma submit_step (env : Env) (c : Context) (db : Db) :
  stateAfter (submitApplication env c) db = db
  \/ exists a,
       status a = "pending"
       /\ applied db (app_job a) (app_user a) = false
       /\ find (hasJobId (app_job a)) (jobs db) <> None
       /\ users (stateAfter (submitApplication env c) db) = users db
       /\ applications (stateAfter (submitApplication env c) db)
          = (applications db ++ [a])%list
       /\ (jobs (stateAfter (submitApplication env c) db) = jobs db
           /\ fault env JobFindByIdAndUpdate <> None
           \/ jobs (stateAfter (submitApplication env c) db)
              = updateFirst (hasJobId (app_job a))
                            (incApplicationCount (now env)) (jobs db)).
Proof.
  unfold stateAfter.
  destruct (submit_cases env c db) as [[r [E _]] | R]; [left; now rewrite E|].
  destruct R as (u & file & jid & r & db' & Hu & Hf & Hj & Tj & V & J & A & E
                 & Us & Apps & _).
  right. exists (submitted env c u file jid).
  assert (J' : exists j, find (hasJobId (castObjectId jid)) (jobs db) = Some j).
  { destruct (find _ (jobs db)) as [j|]; [eauto | congruence]. }
  destruct J' as [j J'].
  assert (F1 : fault env JobFindById = None).
  { destruct (fault env JobFindById) as [e|] eqn:F; [|reflexivity].
    exfalso. revert E Apps. unfold submitApplication, tryCatch.
    rewrite Hf, Hj. cbn [truthyField orEmpty]. rewrite Tj. cbn [negb].
    rewrite bind_unfold.
    change (identifier applicationRoutes_scope "mongoose" db)
      with (Normal tt, db).
    cbn iota. rewrite V. cbn [negb]. rewrite bind_unfold.
    unfold Job_findById. rewrite (await_fails env _ _ _ e F).
    intros E Apps. inversion E; subst.
    apply (f_equal (@length _)) in Apps. rewrite length_app in Apps.
    simpl in Apps. lia. }
  assert (F2 : fault env ApplicationFindOne = None).
  { destruct (fault env ApplicationFindOne) as [e|] eqn:F; [|reflexivity].
    exfalso. revert E Apps. unfold submitApplication, tryCatch.
    rewrite Hf, Hj. cbn [truthyField orEmpty]. rewrite Tj. cbn [negb].
    rewrite bind_unfold.
    change (identifier applicationRoutes_scope "mongoose" db)
      with (Normal tt, db).
    cbn iota. rewrite V. cbn [negb]. rewrite bind_unfold.
    rewrite (Job_findById_run env _ _ F1), J'. rewrite bind_unfold.
    unfold reqUser. rewrite Hu. cbn [ret]. rewrite bind_unfold.
    unfold Application_findOne. rewrite (await_fails env _ _ _ e F).
    intros E Apps. inversion E; subst.
    apply (f_equal (@length _)) in Apps. rewrite length_app in Apps.
    simpl in Apps. lia. }
  pose proof E as E'.
  rewrite (submit_reaches_save env c db u file jid j) in E' by auto.
  unfold tryCatch in E'. rewrite bind_unfold in E'.
  rewrite E. cbn [snd].
  repeat split; try assumption.
  destruct (Application_save_cases env (submitted env c u file jid) db)
    as [[e Es] | Es]; rewrite Es in E'.
  { inversion E'; subst. apply (f_equal (@length _)) in Apps.
    rewrite length_app in Apps. simpl in Apps. lia. }
  rewrite bind_unfold in E'.
  destruct (Job_findByIdAndUpdate_inc_cases env (castObjectId jid)
              (mkDb (users db) (jobs db)
                    (applications db ++ [submitted env c u file jid])))
    as [[e Ei] | Ei]; rewrite Ei in E'.
  - left. inversion E'; subst. split; [reflexivity|].
    unfold Job_findByIdAndUpdate_inc, await in Ei.
    destruct (fault env JobFindByIdAndUpdate); [discriminate|].
    discriminate Ei.
  - right. rewrite bind_unfold in E'.
    match type of E' with
    | context [Application_findById_populated ?e ?i ?d] =>
        pose proof (Application_findById_populated_reads e i d) as R;
        destruct (Application_findById_populated e i d)
          as [[[[[x y] z]|]|e'] d']
    end; simpl in R; subst d'; inversion E'; subst; reflexivity.
Qed.

(** What a status update leaves: the database as it was, or the status of
    one application set to a value of the enum. *)
Lemma status_step (env : Env) (c : Context) (db : Db) :
  stateAfter (updateApplicationStatus env c) db = db
  \/ exists i s,
       existsb (String.eqb s) statusEnum = true
       /\ stateAfter (updateApplicationStatus env c) db
          = mkDb (users db) (jobs db)
                 (updateFirst (hasAppId i) (withStatus s (now env))
                              (applications db)).
Proof.
  unfold stateAfter.
  destruct (status_update_cases env c db) as [[r ->] | R]; [left; reflexivity|].
  destruct R as (a & j & u & s & _ & V & _ & _ & _ & _ & ->). cbn [snd].
  destruct (String.eqb (status a) s); [left; reflexivity|].
  right. exists (app_id a), s. auto.
Qed.

Lemma applicationsFor_append (db db' : Db) (a : Application) (k : ObjectId) :
  applications db' = (applications db ++ [a])%list ->
  length (applicationsFor db' k)
  = length (applicationsFor db k)
    + (if String.eqb (app_job a) k then 1 else 0).
Proof.
  intros E. unfold applicationsFor. rewrite E, filter_app, length_app. simpl.
  destruct (String.eqb (app_job a) k); reflexivity.
Qed.

Lemma applicationsFor_status (db : Db) (i : ObjectId) (s : string) (t : Date)
    (k : ObjectId) :
  length (applicationsFor
            (mkDb (users db) (jobs db)
                  (updateFirst (hasAppId i) (withStatus s t) (applications db)))
            k)
  = length (applicationsFor db k).
Proof.
  unfold applicationsFor. cbn [applications].
  apply filter_updateFirst_length. reflexivity.
Qed.



Lemma workflowStep_exact (env : Env) (w : WorkflowRequest) (db : Db) :
  faultless env ->
  jobIdsDistinct db /\ countsExact db ->
  jobIdsDistinct (workflowStep env w db) /\ countsExact (workflowStep env w db).
Proof.
  intros F [D X]. destruct w as [c|c]; cbn [workflowStep].
  - destruct (submit_step env c db)
      as [-> | (a & _ & _ & J & _ & Apps & Jobs)]; [auto|].
    destruct Jobs as [[_ N] | Jobs]; [destruct (N (F _))|].
    split.
    + unfold jobIdsDistinct. rewrite Jobs.
      rewrite map_updateFirst by reflexivity. exact D.
    + destruct (find (hasJobId (app_job a)) (jobs db)) as [x|] eqn:Fx;
        [clear J | congruence].
      destruct (updateFirst_split (hasJobId (app_job a))
                  (incApplicationCount (now env)) (jobs db) x Fx)
        as (before & after & Sp & Up & Bf).
      pose proof (find_some _ _ Fx) as [_ Ix]. unfold hasJobId in Ix.
      apply String.eqb_eq in Ix.
      unfold jobIdsDistinct in D. rewrite Sp, map_app in D. cbn [map] in D.
      pose proof (NoDup_remove_2 _ _ _ D) as NI.
      intros y I. rewrite (applicationsFor_append db _ a (job_id y) Apps).
      rewrite Jobs, Up in I.
      assert (Old : forall z, In z (jobs db) -> job_id z <> app_job a ->
                applicationCount z
                = Z.of_nat (length (applicationsFor db (job_id z))
                            + (if String.eqb (app_job a) (job_id z)
                               then 1 else 0))).
      { intros z Iz Nz. rewrite (X z Iz).
        destruct (String.eqb_spec (app_job a) (job_id z)); [congruence|].
        f_equal. lia. }
      apply in_app_or in I as [I | [<- | I]].
      * apply Old; [rewrite Sp; apply in_or_app; auto|].
        specialize (Bf y I). unfold hasJobId in Bf.
        now apply String.eqb_neq in Bf.
      * cbn [incApplicationCount applicationCount job_id].
        rewrite Ix, String.eqb_refl, (X x), Ix.
        -- lia.
        -- rewrite Sp. apply in_or_app. right. left. reflexivity.
      * apply Old; [rewrite Sp; apply in_or_app; right; right; exact I|].
        intros E. apply NI. apply in_or_app. right.
        apply in_map_iff. exists y. split; [congruence | exact I].
  - destruct (status_step env c db) as [-> | (i & s & _ & ->)]; [auto|].
    split; [exact D|].
    intros y I. cbn [jobs] in I. rewrite applicationsFor_status. now apply X.
Qed.

(** Over any sequence of submissions and status updates that the database
    serves without a failure, jobs with distinct ids keep counting exactly
    the applications stored for them. *)
Theorem workflow_counts_exactly
    (rs : list (Env * WorkflowRequest)) (db : Db) :
  Forall (fun r => faultless (fst r)) rs ->
  jobIdsDistinct db -> countsExact db ->
  jobIdsDistinct (workflow rs db) /\ countsExact (workflow rs db).
Proof.
  revert db. induction rs as [|[env w] rs IH]; intros db F D X; [auto|].
  cbn [workflow]. inversion F as [|? ? Fe Fr]; subst. cbn [fst] in Fe.
  destruct (workflowStep_exact env w db Fe (conj D X)) as [D' X'].
  now apply IH.
Qed.

Lemma Forall2_diag {A} (R : A -> A -> Prop) (l : list A) :
  (forall x, R x x) -> Forall2 R l l.
Proof. intros H. induction l; constructor; auto. Qed.

Lemma Forall2_chain {A} (R : A -> A -> Prop) (l1 l2 l3 : list A) :
  (forall x y z, R x y -> R y z -> R x z) ->
  Forall2 R l1 l2 -> Forall2 R l2 l3 -> Forall2 R l1 l3.
Proof.
  intros T H. revert l3. induction H; intros l3 H'; inversion H'; subst;
    constructor; eauto.
Qed.

Lemma Forall2_updateFirst {A} (R : A -> A -> Prop) (p : A -> bool)
    (f : A -> A) (l : list A) :
  (forall x, R x x) -> (forall x, R x (f x)) ->
  Forall2 R l (updateFirst p f l).
Proof.
  intros Rr Rf. induction l as [|x l IH]; simpl; [constructor|].
  destruct (p x); constructor; auto using Forall2_diag.
Qed.

Lemma sameJobButCount_refl (j : Job) : sameJobButCount j j.
Proof. unfold sameJobButCount. repeat split. Qed.

Lemma sameJobButCount_trans (a b c : Job) :
  sameJobButCount a b -> sameJobButCount b c -> sameJobButCount a c.
Proof. unfold sameJobButCount. intuition congruence. Qed.

Lemma sameApplicationButStatus_trans (a b c : Application) :
  sameApplicationButStatus a b -> sameApplicationButStatus b c ->
  sameApplicationButStatus a c.
Proof. unfold sameApplicationButStatus. intuition congruence. Qed.

Lemma keeps_refl (db : Db) : keeps db db.
Proof.
  repeat split.
  - apply Forall2_diag. intros j. split; [apply sameJobButCount_refl | lia].
  - exists (applications db), []. split; [now rewrite app_nil_r|].
    apply Forall2_diag, sameApplicationButStatus_refl.
Qed.

Lemma keeps_trans (db1 db2 db3 : Db) :
  keeps db1 db2 -> keeps db2 db3 -> keeps db1 db3.
Proof.
  intros (U1 & J1 & o1 & m1 & A1 & F1) (U2 & J2 & o2 & m2 & A2 & F2).
  repeat split; [congruence | |].
  - eapply Forall2_chain; [| exact J1 | exact J2]. cbn beta.
    intros x y z [S1 C1] [S2 C2].
    split; [eapply sameJobButCount_trans; eauto | lia].
  - rewrite A1 in F2. apply Forall2_app_inv_l in F2
      as (o2a & o2b & Fa & Fb & ->).
    exists o2a, (o2b ++ m2)%list. split; [now rewrite A2, app_assoc|].
    eapply Forall2_chain; [| exact F1 | exact Fa].
    apply sameApplicationButStatus_trans.
Qed.

Lemma workflowStep_keeps (env : Env) (w : WorkflowRequest) (db : Db) :
  keeps db (workflowStep env w db).
Proof.
  destruct w as [c|c]; cbn [workflowStep].
  - destruct (submit_step env c db)
      as [-> | (a & _ & _ & _ & Us & Apps & Jobs)]; [apply keeps_refl|].
    repeat split; [exact Us | |].
    + destruct Jobs as [[-> _] | ->].
      * apply Forall2_diag. intros j.
        split; [apply sameJobButCount_refl | lia].
      * apply Forall2_updateFirst; intros j.
        -- split; [apply sameJobButCount_refl | lia].
        -- split; [apply incApplicationCount_same | simpl; lia].
    + exists (applications db), [a]. split; [exact Apps|].
      apply Forall2_diag, sameApplicationButStatus_refl.
  - destruct (status_step env c db) as [-> | (i & s & _ & ->)];
      [apply keeps_refl|].
    repeat split.
    + apply Forall2_diag. intros j.
      split; [apply sameJobButCount_refl | lia].
    + eexists _, []. cbn [applications]. split; [now rewrite app_nil_r|].
      apply Forall2_updateFirst; intros a;
        [apply sameApplicationButStatus_refl | apply withStatus_same].
Qed.

(** Over any sequence of submissions and status updates nothing is
    deleted or rewritten: the users stay as they were; every job stays in
    its place with all its fields but updatedAt and a count that never
    goes down; every application stays in its place with its id, job, user,
    résumé, cover letter and creation time, and new ones come after. *)
Theorem workflow_deletes_nothing
    (rs : list (Env * WorkflowRequest)) (db : Db) :
  keeps db (workflow rs db).
Proof.
  revert db. induction rs as [|[env w] rs IH]; intros db;
    [apply keeps_refl|].
  cbn [workflow].
  exact (keeps_trans _ _ _ (workflowStep_keeps env w db) (IH _)).
Qed.

End WorkflowFacts.

(* ===================================================================== *)
(** * What requests in flight keep *)
(* ===================================================================== *)

Section InvariantFacts.
Context {P : Platform}.
Import JsString.

Lemma keepsInvariant_thenT {A B} (I : Db -> Prop) (t : Task A)
    (k : A -> Task B) :
  keepsInvariant I t -> (forall a, keepsInvariant I (k a)) ->
  keepsInvariant I (thenT t k).
Proof.
  intros Ht Hk. induction t as [a|e|X op resume IH]; simpl; auto.
  destruct Ht as [Hop Hr]. split; [exact Hop|].
  intros x. apply IH, Hr.
Qed.

Lemma keepsInvariant_tryCatchT {A} (I : Db -> Prop) (t : Task A)
    (h : string -> Task A) :
  keepsInvariant I t -> (forall e, keepsInvariant I (h e)) ->
  keepsInvariant I (tryCatchT t h).
Proof.
  intros Ht Hh. induction t as [a|e|X op resume IH]; simpl; auto.
  destruct Ht as [Hop Hr]. split; [exact Hop|].
  intros x. apply IH, Hr.
Qed.

Lemma keepsInvariant_awaitT {X} (I : Db -> Prop) (op : M X) :
  (forall db, I db -> I (snd (op db))) -> keepsInvariant I (awaitT op).
Proof. intros H. split; [exact H|]. intros [x|e]; exact Logic.I. Qed.

Lemma keepsInvariant_reqUserT (I : Db -> Prop) (c : Context) :
  keepsInvariant I (reqUserT c).
Proof. unfold reqUserT. destruct (req_user c); exact Logic.I. Qed.

Lemma keepsInvariant_identifierT (I : Db -> Prop) (scope : list string)
    (x : string) :
  keepsInvariant I (identifierT scope x).
Proof. unfold identifierT. destruct (existsb _ scope); exact Logic.I. Qed.

(** A turn, and so every schedule of turns, keeps what the operations in
    flight keep. *)
Lemma turn_keeps {A} (I : Db -> Prop) (t : Task A) (db : Db) :
  keepsInvariant I t -> I db ->
  keepsInvariant I (fst (turn t db)) /\ I (snd (turn t db)).
Proof.
  intros Ht Hdb. destruct t as [a|e|X op resume]; simpl; auto.
  destruct Ht as [Hop Hr]. specialize (Hop db Hdb).
  destruct (op db) as [x db']. simpl in *. auto.
Qed.

Lemma turnOf_keeps {A} (I : Db -> Prop) (n : nat) (ts : list (Task A))
    (db : Db) :
  Forall (keepsInvariant I) ts -> I db ->
  Forall (keepsInvariant I) (fst (turnOf n ts db)) /\ I (snd (turnOf n ts db)).
Proof.
  revert n. induction ts as [|t ts IH]; intros n Hts Hdb.
  - destruct n; cbn [turnOf fst snd]; auto.
  - inversion Hts as [|? ? Ht Hts']; subst. destruct n as [|n]; cbn [turnOf].
    + pose proof (turn_keeps I t db Ht Hdb) as [H1 H2].
      destruct (turn t db) as [t' db']. cbn [fst snd] in *.
      split; [constructor; assumption | assumption].
    + pose proof (IH n Hts' Hdb) as [H1 H2].
      destruct (turnOf n ts db) as [ts' db']. cbn [fst snd] in *.
      split; [constructor; assumption | assumption].
Qed.

Lemma interleave_keeps {A} (I : Db -> Prop) (schedule : list nat)
    (ts : list (Task A)) (db : Db) :
  Forall (keepsInvariant I) ts -> I db ->
  I (snd (interleave schedule ts db)).
Proof.
  revert ts db. induction schedule as [|n schedule IH]; intros ts db Hts Hdb;
    cbn [interleave]; [exact Hdb|].
  pose proof (turnOf_keeps I n ts db Hts Hdb) as [H1 H2].
  destruct (turnOf n ts db) as [ts' db']. cbn [fst snd] in *. now apply IH.
Qed.

(** A read leaves the database as it is. *)
Ltac readKeeps :=
  let db := fresh "db" in
  let H := fresh "H" in
  intros db H;
  unfold Job_findById, Application_findOne, Application_findById_populated,
    Application_findById_withOwner, await;
  destruct (fault _ _); exact H.

Lemma statusesValid_append (db : Db) (a : Application) :
  statusesValid db -> existsb (String.eqb (status a)) statusEnum = true ->
  statusesValid (mkDb (users db) (jobs db) (applications db ++ [a])).
Proof.
  intros H Va x Ix. cbn [applications] in Ix. apply in_app_or in Ix.
  destruct Ix as [Ix | [<- | []]]; [apply H, Ix | exact Va].
Qed.

Lemma save_keeps_statusesValid (env : Env) (a : Application) (db : Db) :
  existsb (String.eqb (status a)) statusEnum = true ->
  statusesValid db -> statusesValid (snd (Application_save env a db)).
Proof.
  intros Va H.
  destruct (Application_save_cases env a db) as [[e ->] | ->]; [exact H|].
  now apply statusesValid_append.
Qed.

Lemma inc_keeps_statusesValid (env : Env) (i : ObjectId) (db : Db) :
  statusesValid db -> statusesValid (snd (Job_findByIdAndUpdate_inc env i db)).
Proof.
  intros H.
  destruct (Job_findByIdAndUpdate_inc_cases env i db) as [[e ->] | ->];
    exact H.
Qed.

Lemma save_status_keeps_statusesValid (env : Env) (a : Application)
    (s : string) (db : Db) :
  statusesValid db -> statusesValid (snd (Application_save_status env a s db)).
Proof.
  intros H. unfold Application_save_status, await.
  destruct (fault env ApplicationSave); [exact H|].
  destruct (applicationSchema_validate _) eqn:V; [exact H|].
  destruct (String.eqb (status a) s); [exact H|].
  cbn [bind getDb putDb snd]. intros x Ix. cbn [applications] in Ix.
  apply In_updateFirst in Ix as [Ix | (y & Iy & _ & ->)]; [apply H, Ix|].
  cbn [withStatus status].
  unfold applicationSchema_validate, applicationSchema_errors in V.
  cbn [withStatus status resume coverLetter] in V.
  destruct (existsb (String.eqb s) statusEnum); [reflexivity|].
  destruct (truthy (resume a)); destruct (truthy (coverLetter a));
    discriminate V.
Qed.

Ltac invariant :=
  repeat first
    [ exact Logic.I
    | apply keepsInvariant_tryCatchT
    | apply keepsInvariant_thenT
    | apply keepsInvariant_reqUserT
    | apply keepsInvariant_identifierT
    | apply keepsInvariant_awaitT
    | progress cbv zeta
    | match goal with
      | |- keepsInvariant _ (if ?b then _ else _) => destruct b
      | |- keepsInvariant _ (match ?x with _ => _ end) => destruct x
      end
    | match goal with
      | |- forall _, _ => intro
      end ].

Lemma submitSteps_keeps_statusesValid (env : Env) (c : Context) :
  keepsInvariant statusesValid (submitSteps env c).
Proof.
  unfold submitSteps. invariant.
  - readKeeps.
  - readKeeps.
  - intros db H. now apply save_keeps_statusesValid.
  - intros db H. now apply inc_keeps_statusesValid.
  - readKeeps.
Qed.

Lemma statusSteps_keeps_statusesValid (env : Env) (c : Context) :
  keepsInvariant statusesValid (statusSteps env c).
Proof.
  unfold statusSteps. invariant.
  - readKeeps.
  - intros db H. now apply save_status_keeps_statusesValid.
Qed.

(** Among any number of submissions and status updates in flight, in
    whatever order their database operations take their turns and
    whatever fails on the way, every status of a stored application stays
    one of the four values. *)
Theorem statuses_stay_valid_in_flight
    (schedule : list nat) (rs : list (Env * WorkflowRequest)) (db : Db) :
  statusesValid db ->
  statusesValid (snd (interleave schedule (map workflowTask rs) db)).
Proof.
  intros H. apply interleave_keeps; [|exact H].
  apply Forall_forall. intros t It. apply in_map_iff in It as ([env [c|c]] & <- & _);
    cbn [workflowTask]; apply keepsInvariant_thenT;
    try (intros a; exact Logic.I).
  - apply submitSteps_keeps_statusesValid.
  - apply statusSteps_keeps_statusesValid.
Qed.

End InvariantFacts.

(* ===================================================================== *)
(** * The lists of applications *)
(* ===================================================================== *)

Section ListFacts.
Context {P : Platform}.
Import JsString.

(** The [$in] list of the company route selects the applications to jobs
    the caller posted. *)
Lemma ownJobIds_select (db : Db) (u : AuthUser) (a : Application) :
  existsb (String.eqb (app_job a))
          (map job_id
             (List.filter (fun j => String.eqb (postedBy j) (id u)) (jobs db)))
  = existsb (fun j => String.eqb (postedBy j) (id u)
                      && String.eqb (job_id j) (app_job a)) (jobs db).
Proof.
  apply eq_true_iff_eq. rewrite !existsb_exists. split.
  - intros [i [I E]]. apply in_map_iff in I as [j [<- I]].
    apply filter_In in I as [I O]. exists j. split; [exact I|].
    apply String.eqb_eq in E. rewrite O, E, String.eqb_refl. reflexivity.
  - intros [j [I E]]. apply andb_prop in E as [O E].
    apply String.eqb_eq in E. exists (job_id j). split.
    + apply in_map_iff. exists j. split; [reflexivity|].
      apply filter_In. auto.
    + rewrite E. apply String.eqb_refl.
Qed.

(** The run of the company list. *)
Lemma getCompanyApplications_run (env : Env) (c : Context) (db : Db)
    (u : AuthUser) :
  req_user c = Some u ->
  fault env JobFind = None -> fault env ApplicationFind = None ->
  let l :=
    sortNewestFirst createdAt
      (List.filter
         (fun a => existsb (String.eqb (app_job a))
                     (map job_id
                        (List.filter
                           (fun j => String.eqb (postedBy j) (id u))
                           (jobs db))))
         (applications db)) in
  getCompanyApplications env c db
  = (Normal (Answered 200
               (CompanyApplications
                  (length l)
                  (map (fun a =>
                          (a,
                           option_map jobCard
                             (find (hasJobId (app_job a)) (jobs db)),
                           populateUser db (app_user a))) l))), db).
Proof.
  intros U F1 F2 l.
  unfold getCompanyApplications, tryCatch, reqUser. rewrite U.
  rewrite bind_unfold. cbn [ret]. rewrite bind_unfold.
  unfold Job_find. rewrite await_ok by exact F1.
  rewrite bind_unfold. cbn [getDb ret]. rewrite bind_unfold.
  unfold Application_find_withJobAndUser. rewrite await_ok by exact F2.
  rewrite bind_unfold. cbn [getDb ret]. rewrite length_map. reflexivity.
Qed.

(** The run of the applicant's list. *)
Lemma getMyApplications_run (env : Env) (c : Context) (db : Db)
    (u : AuthUser) :
  req_user c = Some u -> fault env ApplicationFind = None ->
  let l :=
    sortNewestFirst createdAt
      (List.filter (fun a => String.eqb (app_user a) (id u))
                   (applications db)) in
  getMyApplications env c db
  = (Normal (Answered 200
               (OwnApplications
                  (length l)
                  (map (fun a =>
                          mkOwnApplication (app_id a)
                            (option_map (jobPosting db)
                               (find (hasJobId (app_job a)) (jobs db)))
                            (status a) (resume a) (createdAt a)
                            (updatedAt a)) l))), db).
Proof.
  intros U F l.
  unfold getMyApplications, tryCatch, reqUser. rewrite U.
  rewrite bind_unfold. cbn [ret]. rewrite bind_unfold.
  unfold Application_find_withPosting. rewrite await_ok by exact F.
  rewrite bind_unfold. cbn [getDb ret]. rewrite length_map, map_map.
  reflexivity.
Qed.

(** GET /api/applications/company lists exactly the applications to the
    jobs the caller posted, each once, the newest first, each with the card
    of its job and the name and email of its applicant; the count is the
    length of the list and nothing is written. *)
Theorem company_list_is_the_applications_to_own_jobs
    (env : Env) (c : Context) (db : Db) (u : AuthUser) :
  req_user c = Some u ->
  fault env JobFind = None -> fault env ApplicationFind = None ->
  exists l,
    getCompanyApplications env c db
    = (Normal (Answered 200
                 (CompanyApplications
                    (length l)
                    (map (fun a =>
                            (a,
                             option_map jobCard
                               (find (hasJobId (app_job a)) (jobs db)),
                             populateUser db (app_user a))) l))), db)
    /\ Permutation l
         (List.filter
            (fun a => existsb (fun j => String.eqb (postedBy j) (id u)
                                        && String.eqb (job_id j) (app_job a))
                              (jobs db))
            (applications db))
    /\ newestFirst createdAt l.
Proof.
  intros U F1 F2. eexists. split; [|split].
  - exact (getCompanyApplications_run env c db u U F1 F2).
  - rewrite sortNewestFirst_perm.
    erewrite filter_ext; [reflexivity|]. intros a. apply ownJobIds_select.
  - apply sortNewestFirst_sorted.
Qed.

(** GET /api/applications/my lists exactly the caller's applications, each
    once, the newest first, each as its id, populated job, status, résumé
    and timestamps; the count is the length of the list and nothing is
    written. *)
Theorem own_list_is_the_callers_applications
    (env : Env) (c : Context) (db : Db) (u : AuthUser) :
  req_user c = Some u -> fault env ApplicationFind = None ->
  exists l,
    getMyApplications env c db
    = (Normal (Answered 200
                 (OwnApplications
                    (length l)
                    (map (fun a =>
                            mkOwnApplication (app_id a)
                              (option_map (jobPosting db)
                                 (find (hasJobId (app_job a)) (jobs db)))
                              (status a) (resume a) (createdAt a)
                              (updatedAt a)) l))), db)
    /\ Permutation l
         (List.filter (fun a => String.eqb (app_user a) (id u))
                      (applications db))
    /\ newestFirst createdAt l.
Proof.
  intros U F. eexists. split; [|split].
  - exact (getMyApplications_run env c db u U F).
  - apply sortNewestFirst_perm.
  - apply sortNewestFirst_sorted.
Qed.

(** GET /api/applications/job/:jobId answers the company that posted the
    job with exactly the applications to it, each once, the newest first,
    each with the name and email of its applicant. *)
Theorem job_list_is_the_applications_to_the_job
    (env : Env) (c : Context) (db : Db) (u : AuthUser) (jid : string)
    (j : Job) :
  req_user c = Some u -> param c "jobId" = Some jid ->
  ObjectId_isValid jid = true ->
  fault env JobFindOne = None -> fault env ApplicationFind = None ->
  find (fun j => String.eqb (job_id j) (castObjectId jid)
                 && String.eqb (postedBy j) (id u)) (jobs db) = Some j ->
  exists l,
    getJobApplications env c db
    = (Normal (mkResponse 200
                 (JobApplications
                    (jobSummary j) (length l)
                    (map (fun a => (a, populateUser db (app_user a))) l))),
       db)
    /\ Permutation l (applicationsFor db (castObjectId jid))
    /\ newestFirst createdAt l.
Proof.
  intros U Pj V F1 F2 J. eexists. split; [|split].
  - unfold getJobApplications, tryCatch, reqUser. rewrite Pj, U.
    cbn [orEmpty]. rewrite bind_unfold.
    change (identifier applicationRoutes_scope "mongoose" db)
      with (Normal tt, db).
    cbn iota. rewrite V. cbn [negb]. rewrite bind_unfold. cbn [ret].
    rewrite bind_unfold. rewrite (Job_findOne_run env _ _ F1), J.
    rewrite bind_unfold. unfold Application_find_withUser.
    rewrite await_ok by exact F2.
    rewrite bind_unfold. cbn [getDb ret]. rewrite length_map. reflexivity.
  - apply sortNewestFirst_perm.
  - apply sortNewestFirst_sorted.
Qed.

(** A status the company has set is what the applicant then reads: after
    a status update answered 200, the applicant's own list carries the
    application with the new status. *)
Theorem status_update_shows_in_own_list
    (env1 env2 : Env) (c1 c2 : Context) (db db' : Db) (m : string)
    (i : ObjectId) (s : string) (jid : ObjectId) (t : option string)
    (uid : ObjectId) (v : AuthUser) :
  updateApplicationStatus env1 c1 db
  = (Normal (Answered 200 (StatusUpdated m i s jid t uid)), db') ->
  req_user c2 = Some v -> id v = uid -> fault env2 ApplicationFind = None ->
  exists n l,
    getMyApplications env2 c2 db'
    = (Normal (Answered 200 (OwnApplications n l)), db')
    /\ exists o, In o l /\ oa_id o = i /\ oa_status o = s.
Proof.
  intros E U Iv F.
  destruct (status_update_cases env1 c1 db) as [[r R] | R];
    [rewrite R in E; discriminate|].
  destruct R as (a & j & u & s' & _ & _ & A & _ & _ & _ & R).
  rewrite R in E. inversion E; subst. clear E.
  pose proof (find_some _ _ A) as [Ia Ha]. unfold hasAppId in Ha.
  apply String.eqb_eq in Ha.
  set (a' := if String.eqb (status a) s then a
             else withStatus s (now env1) a).
  assert (I' : In a' (applications
                        (if String.eqb (status a) s then db
                         else mkDb (users db) (jobs db)
                                (updateFirst (hasAppId (app_id a))
                                   (withStatus s (now env1))
                                   (applications db))))).
  { subst a'. destruct (String.eqb (status a) s); [exact Ia|].
    cbn [applications].
    assert (A' : find (hasAppId (app_id a)) (applications db) = Some a)
      by (rewrite Ha; exact A).
    destruct (updateFirst_split (hasAppId (app_id a))
                (withStatus s (now env1)) (applications db) a A')
      as (before & after & _ & -> & _).
    apply in_or_app. right. left. reflexivity. }
  assert (Fa : app_id a' = app_id a /\ app_user a' = id v /\ status a' = s).
  { subst a'. destruct (String.eqb_spec (status a) s); auto. }
  destruct Fa as (F1 & F2 & F3).
  do 2 eexists. split; [exact (getMyApplications_run env2 c2 _ v U F)|].
  eexists. split.
  - apply in_map. apply sortNewestFirst_In. apply filter_In.
    split; [exact I'|]. rewrite F2. apply String.eqb_refl.
  - cbn [oa_id oa_status]. auto.
Qed.

(** A submission answered 201 is what the company then reads: the list of
    the company that posted the job carries the new application, in status
    'pending'. *)
Theorem submission_shows_in_company_list
    (env1 env2 : Env) (c1 c2 : Context) (db db1 : Db) (r : Response)
    (jid : string) (j : Job) (w : AuthUser) :
  submitApplication env1 c1 db = (Normal r, db1) -> statusCode r = 201 ->
  bodyField c1 "jobId" = Some jid ->
  find (hasJobId (castObjectId jid)) (jobs db) = Some j ->
  req_user c2 = Some w -> id w = postedBy j ->
  fault env2 JobFind = None -> fault env2 ApplicationFind = None ->
  exists n l,
    getCompanyApplications env2 c2 db1
    = (Normal (Answered 200 (CompanyApplications n l)), db1)
    /\ exists a job user,
         In (a, job, user) l
         /\ app_id a = newId env1 /\ app_job a = castObjectId jid
         /\ Some (app_user a) = option_map id (req_user c1)
         /\ status a = "pending".
Proof.
  intros E S Hj J U W F1 F2.
  destruct (submit_cases env1 c1 db) as [[r' [E' N]] | R]; [congruence|].
  destruct R as (u & file & jid' & r' & db' & Hu & _ & Hj' & _ & _ & _ & _ & E'
                 & _ & Apps & Jobs).
  rewrite E in E'. inversion E'; subst r' db'. clear E'.
  assert (jid' = jid) by congruence. subst jid'.
  assert (J1 : exists j1, In j1 (jobs db1) /\ postedBy j1 = id w
                          /\ job_id j1 = castObjectId jid).
  { pose proof (find_some _ _ J) as [Ij Hjid]. unfold hasJobId in Hjid.
    apply String.eqb_eq in Hjid.
    destruct Jobs as [-> | ->].
    - exists j. auto.
    - exists (incApplicationCount (now env1) j). repeat split; auto.
      assert (Fj : find (hasJobId (castObjectId jid))
                     (updateFirst (hasJobId (castObjectId jid))
                        (incApplicationCount (now env1)) (jobs db))
                   = Some (incApplicationCount (now env1) j)).
      { rewrite find_updateFirst by reflexivity. now rewrite J. }
      apply (find_some _ _ Fj). }
  destruct J1 as (j1 & I1 & P1 & Id1).
  do 2 eexists. split; [exact (getCompanyApplications_run env2 c2 db1 w U F1 F2)|].
  exists (submitted env1 c1 u file jid),
    (option_map jobCard
       (find (hasJobId (app_job (submitted env1 c1 u file jid))) (jobs db1))),
    (populateUser db1 (app_user (submitted env1 c1 u file jid))).
  split.
  - apply in_map_iff. exists (submitted env1 c1 u file jid).
    split; [reflexivity|]. apply sortNewestFirst_In.
    apply filter_In. split.
    + rewrite Apps. apply in_or_app. right. left. reflexivity.
    + rewrite ownJobIds_select. apply existsb_exists. exists j1.
      split; [exact I1|]. rewrite P1, Id1, !String.eqb_refl. reflexivity.
  - rewrite Hu. repeat split.
Qed.

End ListFacts.

(* ===================================================================== *)
(** * Routes that only read *)
(* ===================================================================== *)

Section ReadOnlyFacts.

Lemma readOnly_ret {A} (a : A) : readOnly (ret a).
Proof. intros db. reflexivity. Qed.

Lemma readOnly_throw {A} (e : string) : readOnly (@throw A e).
Proof. intros db. reflexivity. Qed.

Lemma readOnly_bind {A B} (m : M A) (k : A -> M B) :
  readOnly m -> (forall a, readOnly (k a)) -> readOnly (bind m k).
Proof.
  intros Hm Hk db. unfold stateAfter. rewrite bind_unfold.
  specialize (Hm db). unfold stateAfter in Hm.
  destruct (m db) as [[a|e] d]; simpl in Hm; subst d; [apply Hk | reflexivity].
Qed.

Lemma readOnly_tryCatch {A} (m : M A) (h : string -> M A) :
  readOnly m -> (forall e, readOnly (h e)) -> readOnly (tryCatch m h).
Proof.
  intros Hm Hh db. unfold stateAfter, tryCatch.
  specialize (Hm db). unfold stateAfter in Hm.
  destruct (m db) as [[a|e] d]; simpl in Hm; subst d; [reflexivity | apply Hh].
Qed.

Lemma readOnly_await {A} (env : Env) (call : DbCall) (m : M A) :
  readOnly m -> readOnly (await env call m).
Proof.
  intros Hm. unfold await. destruct (fault env call);
    [apply readOnly_throw | exact Hm].
Qed.

Lemma readOnly_getDb : readOnly getDb.
Proof. intros db. reflexivity. Qed.

Lemma readOnly_identifier (scope : list string) (x : string) :
  readOnly (identifier scope x).
Proof.
  unfold identifier. destruct (existsb _ scope);
    [apply readOnly_ret | apply readOnly_throw].
Qed.

Lemma readOnly_reqUser (c : Context) : readOnly (reqUser c).
Proof.
  unfold reqUser. destruct (req_user c);
    [apply readOnly_ret | apply readOnly_throw].
Qed.

Lemma readOnly_setHeader (name value : string) :
  readOnly (setHeader name value).
Proof.
  unfold setHeader. destruct (validHeaderValue value);
    [apply readOnly_ret | apply readOnly_throw].
Qed.

End ReadOnlyFacts.

(** A read: the database is fetched and a value is returned. *)
Ltac reads :=
  repeat first
    [ apply readOnly_ret
    | apply readOnly_throw
    | apply readOnly_getDb
    | apply readOnly_identifier
    | apply readOnly_reqUser
    | apply readOnly_setHeader
    | apply readOnly_await
    | apply readOnly_tryCatch
    | apply readOnly_bind
    | progress cbv zeta
    | match goal with
      | |- readOnly (if ?b then _ else _) => destruct b
      | |- readOnly (match ?x with _ => _ end) => destruct x
      end
    | lazymatch goal with
      | |- readOnly _ => fail
      | |- _ => intro
      end ].

Section ReadRoutes.
Context {P : Platform}.

(** The lists, the lookups, the résumé download and the login never write:
    whatever the request and whatever fails in the database, each of these
    handlers leaves the database as it found it. *)
Theorem read_routes_write_nothing (fs : Fs) (env : Env) (c : Context) :
  readOnly (getJobs env c)
  /\ readOnly (getJob env c)
  /\ readOnly (getMyJobs env c)
  /\ readOnly (getJobApplications env c)
  /\ readOnly (getResume fs env c)
  /\ readOnly (getCompanyApplications env c)
  /\ readOnly (getMyApplications env c)
  /\ readOnly (login env c).
Proof.
  split; [|split; [|split; [|split; [|split; [|split; [|split]]]]]].
  - unfold getJobs, Job_find_populated. reads.
  - unfold getJob, getJobIn, Job_findById_populated. reads.
  - unfold getMyJobs, Job_find. reads.
  - unfold getJobApplications, Job_findOne, Application_find_withUser. reads.
  - unfold getResume, Job_distinct_id, Application_findOne. reads.
  - unfold getCompanyApplications, Job_find, Application_find_withJobAndUser.
    reads.
  - unfold getMyApplications, Application_find_withPosting. reads.
  - unfold login, User_findOne. reads.
Qed.

End ReadRoutes.

(* ===================================================================== *)
(** * Who reads a résumé, and the checks of a submission *)
(* ===================================================================== *)

Section AccessFacts.
Context {P : Platform}.
Import JsString.

Lemma readable_spec (db : Db) (u : AuthUser) (name : string) :
  existsb (readable db u name) (applications db) = true
  <-> exists a, In a (applications db) /\ resume a = name
                /\ (app_user a = id u
                    \/ exists j, In j (jobs db) /\ job_id j = app_job a
                                 /\ postedBy j = id u).
Proof.
  rewrite existsb_exists. unfold readable, mayRead. split.
  - intros (a & I & R). apply andb_prop in R as [N R].
    apply String.eqb_eq in N. exists a. repeat split; auto.
    apply orb_prop in R as [R | R].
    + left. now apply String.eqb_eq.
    + right. apply existsb_exists in R as (j & Ij & R).
      apply andb_prop in R as [O E]. apply String.eqb_eq in O, E. eauto.
  - intros (a & I & N & R). exists a. split; [exact I|].
    rewrite N, String.eqb_refl. cbn [andb]. destruct R as [R | (j & Ij & E & O)].
    + rewrite R, String.eqb_refl. reflexivity.
    + apply orb_true_iff. right. apply existsb_exists. exists j.
      split; [exact Ij|]. rewrite O, E, !String.eqb_refl. reflexivity.
Qed.

Lemma validHeaderValue_app (s t : string) :
  validHeaderValue (s ++ t) = validHeaderValue s && validHeaderValue t.
Proof.
  induction s as [|x s IH]; simpl; [reflexivity|].
  rewrite IH. now rewrite andb_assoc.
Qed.

Lemma disposition_valid (name : string) :
  validHeaderValue ("inline; filename=" ++ dquote ++ name ++ dquote)
  = validHeaderValue name.
Proof.
  rewrite !validHeaderValue_app. change (validHeaderValue dquote) with true.
  change (validHeaderValue "inline; filename=") with true.
  cbn [andb]. now rewrite andb_true_r.
Qed.

(** The résumé of an application goes to its applicant and to the poster
    of its job, and to nobody else.  For either of the two, when the file
    is stored and its name is fit for a header, the handler sets the
    content type its name gives and an inline disposition and sends the
    file, which is answered 200 when the transfer goes through and 500
    'Internal server error', by the error handler of the app, when
    [res.sendFile] refuses; a name with a character no header takes is
    answered 500 by the handler.  A requester who is neither, for every
    application with that file name, is answered 403. *)
Theorem resume_goes_to_applicant_and_poster_only
    (fs : Fs) (env : Env) (c : Context) (db : Db) (u : AuthUser)
    (name : string) :
  req_user c = Some u -> param c "filename" = Some name ->
  fault env JobFind = None -> fault env ApplicationFindOne = None ->
  let entitled :=
    exists a, In a (applications db) /\ resume a = name
              /\ (app_user a = id u
                  \/ exists j, In j (jobs db) /\ job_id j = app_job a
                               /\ postedBy j = id u) in
  (entitled -> fs (uploadsPath name) = true ->
   validHeaderValue name = true -> res_sendFile (uploadsPath name) = None ->
   getResume fs env c db
   = (Normal (mkResponse 200
                (SentFile (contentTypeOf name)
                          ("inline; filename=" ++ dquote ++ name ++ dquote)
                          (uploadsPath name))), db))
  /\ (forall e,
        entitled -> fs (uploadsPath name) = true ->
        validHeaderValue name = true ->
        res_sendFile (uploadsPath name) = Some e ->
        getResume fs env c db
        = (Normal (mkResponse 500
                     (Failure "Internal server error" (devError env e))), db))
  /\ (entitled -> fs (uploadsPath name) = true ->
      validHeaderValue name = false ->
      getResume fs env c db
      = (Normal (mkResponse 500
                   (Failure "Server error during resume download"
                      (devError env (invalidHeader "Content-Disposition")))),
         db))
  /\ ((forall a, In a (applications db) -> resume a = name ->
         app_user a <> id u
         /\ forall j, In j (jobs db) -> job_id j = app_job a ->
                      postedBy j <> id u) ->
      getResume fs env c db
      = (Normal (failure 403 "Not authorized to access this file"), db)).
Proof.
  intros U Pn F1 F2 entitled.
  rewrite (getResume_run fs env c db u name U Pn F1 F2).
  rewrite disposition_valid.
  split; [|split; [|split]].
  - intros R S V T. apply readable_spec in R. rewrite R, S, V, T. reflexivity.
  - intros e R S V T. apply readable_spec in R. rewrite R, S, V, T.
    reflexivity.
  - intros R S V. apply readable_spec in R. rewrite R, S, V. reflexivity.
  - intros N.
    destruct (existsb (readable db u name) (applications db)) eqn:R;
      [|reflexivity].
    apply readable_spec in R as (a & I & Na & [Own | (j & Ij & E & O)]);
      destruct (N a I Na) as [N1 N2]; [contradiction|].
    destruct (N2 j Ij E O).
Qed.

(** The submission handler makes its checks in a fixed order and the first
    three without the database: no file, 400; a file but no job id, 400; a
    malformed job id, 400, even when every database operation fails; and a
    well-formed id of no stored job, 404.  None of them writes. *)
Theorem submit_checks_in_order (env : Env) (c : Context) (db : Db) :
  (req_file c = None ->
   submitApplication env c db
   = (Normal (failure 400 "Resume file is required"), db))
  /\ (req_file c <> None -> truthyField (bodyField c "jobId") = false ->
      submitApplication env c db
      = (Normal (failure 400 "Job ID is required"), db))
  /\ (req_file c <> None -> truthyField (bodyField c "jobId") = true ->
      ObjectId_isValid (orEmpty (bodyField c "jobId")) = false ->
      submitApplication env c db
      = (Normal (failure 400 "Invalid job ID format"), db))
  /\ (req_file c <> None -> truthyField (bodyField c "jobId") = true ->
      ObjectId_isValid (orEmpty (bodyField c "jobId")) = true ->
      fault env JobFindById = None ->
      find (hasJobId (castObjectId (orEmpty (bodyField c "jobId")))) (jobs db)
      = None ->
      submitApplication env c db = (Normal (failure 404 "Job not found"), db)).
Proof.
  unfold submitApplication, tryCatch.
  destruct (req_file c) as [file|]; repeat split; try congruence;
    try reflexivity.
  - intros _ ->. reflexivity.
  - intros _ -> V. cbn [negb]. rewrite bind_unfold.
    change (identifier applicationRoutes_scope "mongoose" db)
      with (Normal tt, db).
    cbn iota. rewrite V. reflexivity.
  - intros _ -> V F N. cbn [negb]. rewrite bind_unfold.
    change (identifier applicationRoutes_scope "mongoose" db)
      with (Normal tt, db).
    cbn iota. rewrite V. cbn [negb]. rewrite bind_unfold.
    rewrite (Job_findById_run env _ _ F), N. reflexivity.
Qed.

End AccessFacts.

(* ===================================================================== *)
(** * Signup and login, continued *)
(* ===================================================================== *)

Module EmailFacts.
Import JsString TrimFacts RegexFacts.

Lemma noWhiteSpace_app (a b : string) :
  noWhiteSpace (a ++ b) = noWhiteSpace a && noWhiteSpace b.
Proof.
  induction a as [|x a IH]; simpl; [reflexivity|].
  now rewrite IH, andb_assoc.
Qed.

Lemma allLocal_noWhiteSpace (s : string) :
  allLocal s = true -> noWhiteSpace s = true.
Proof.
  induction s as [|x s IH]; simpl; [reflexivity|].
  intros H. apply andb_prop in H as [L H]. unfold isLocalChar in L.
  apply andb_prop in L as [L _]. rewrite L. auto.
Qed.

Lemma trimStart_noWhiteSpace (s : string) :
  noWhiteSpace s = true -> trimStart s = s.
Proof.
  destruct s as [|x s]; simpl; [reflexivity|].
  intros H. apply andb_prop in H as [L _].
  apply negb_true_iff in L. now rewrite L.
Qed.

Lemma trimEnd_noWhiteSpace (s : string) :
  noWhiteSpace s = true -> trimEnd s = s.
Proof.
  induction s as [|x s IH]; simpl; [reflexivity|].
  intros H. apply andb_prop in H as [L H]. apply negb_true_iff in L.
  rewrite (IH H), L. destruct s; reflexivity.
Qed.

Lemma allWhiteSpace_not_none (ws : string) :
  ws <> "" -> allWhiteSpace ws = true -> noWhiteSpace ws = false.
Proof.
  destruct ws as [|x ws]; [congruence|]. simpl. intros _ H.
  apply andb_prop in H as [L _]. now rewrite L.
Qed.

(** An accepted email has no white space anywhere. *)
Lemma emailRegex_noWhiteSpace (e : string) :
  emailRegex_test e = true -> noWhiteSpace e = true.
Proof.
  intros H. apply emailRegex_test_spec in H
    as (a & b & c & -> & _ & _ & _ & La & Lb & Lc).
  rewrite !noWhiteSpace_app.
  rewrite (allLocal_noWhiteSpace a La), (allLocal_noWhiteSpace b Lb),
    (allLocal_noWhiteSpace c Lc). reflexivity.
Qed.

(** The pattern of [validateSignup] accepts no email with white space
    before or after it, and [trim] changes no email it accepts: a
    variant of a registered address with blanks around it is turned down
    as an invalid format, and the trim of the email in the signup handler
    has nothing to strip. *)
Theorem accepted_email_is_already_trimmed :
  (forall e, emailRegex_test e = true -> trim e = e)
  /\ (forall e ws, ws <> "" -> allWhiteSpace ws = true ->
        emailRegex_test (ws ++ e) = false
        /\ emailRegex_test (e ++ ws) = false).
Proof.
  split.
  - intros e H. apply emailRegex_noWhiteSpace in H. unfold trim.
    rewrite (trimStart_noWhiteSpace _ H). now apply trimEnd_noWhiteSpace.
  - intros e ws N W. pose proof (allWhiteSpace_not_none ws N W) as X.
    split; apply not_true_is_false; intros H;
      apply emailRegex_noWhiteSpace in H; rewrite noWhiteSpace_app, X in H;
      [discriminate | rewrite andb_false_r in H; discriminate].
Qed.

End EmailFacts.

Section SignupFacts.
Context {P : Platform}.
Import JsString TrimFacts RegexFacts.

(** [validateSignup] never writes and never throws: it lets the request
    through or answers 400. *)
Lemma validateSignup_cases (env : Env) (c : Context) (db : Db) :
  validateSignup env c db = (Normal (inr c), db)
  \/ exists m, validateSignup env c db = (Normal (inl (failure 400 m)), db).
Proof.
  unfold validateSignup.
  destruct (negb _ || negb _ || negb _); [right; eexists; reflexivity|].
  destruct (negb (emailRegex_test _)); [right; eexists; reflexivity|].
  destruct (_ <? 6)%nat; [right; eexists; reflexivity | left; reflexivity].
Qed.

(** Of the requests whose body fields are texts, [validateSignup] lets
    through exactly those that carry a non-empty name, an email of the
    shape a@b.c, made of three non-empty runs without white space or at
    sign, and a password of six characters or more as sent; every other
    request of that kind is answered 400. *)
Theorem validateSignup_accepts_exactly (env : Env) (c : Context) (db : Db) :
  (validateSignup env c db = (Normal (inr c), db)
   <-> exists n e p,
         bodyField c "name" = Some n /\ bodyField c "email" = Some e
         /\ bodyField c "password" = Some p
         /\ n <> "" /\ emailShape e /\ 6 <= String.length p)
  /\ (validateSignup env c db = (Normal (inr c), db)
      \/ exists m,
           validateSignup env c db = (Normal (inl (failure 400 m)), db)).
Proof.
  split; [|apply validateSignup_cases]. split.
  - unfold validateSignup.
    destruct (bodyField c "name") as [n|]; [|discriminate].
    destruct (bodyField c "email") as [e|];
      [| cbn [truthyField negb orb]; rewrite orb_true_r; discriminate].
    destruct (bodyField c "password") as [p|];
      [| cbn [truthyField negb orb]; rewrite orb_true_r; discriminate].
    cbn [truthyField orEmpty].
    destruct n as [|x n]; [discriminate|].
    destruct (truthy e) eqn:Te; [|discriminate].
    destruct (truthy p) eqn:Tp; [|discriminate].
    cbn [truthy negb orb].
    destruct (emailRegex_test e) eqn:R; [|discriminate]. cbn [negb].
    destruct (Nat.ltb_spec (String.length p) 6); [discriminate|].
    intros _. exists (String x n), e, p. repeat split; auto.
    + discriminate.
    + now apply emailRegex_test_spec.
  - intros (n & e & p & Hn & He & Hp & Nn & S & L).
    apply emailRegex_test_spec in S.
    apply (validateSignup_accepts env c db n e p); auto.
    destruct n; [congruence | reflexivity].
Qed.

(** [User.create] throws and leaves the database alone, or appends the
    user with an email no stored user has. *)
Lemma User_create_cases (env : Env) (n e h r : string) (db : Db) :
  (exists x, User_create env n e h r db = (Thrown x, db))
  \/ (forall v, In v (users db) -> user_email v <> e)
     /\ User_create env n e h r db
        = (Normal (mkUser (newId env) n e h r),
           mkDb (users db ++ [mkUser (newId env) n e h r]) (jobs db)
                (applications db)).
Proof.
  unfold User_create, await.
  destruct (fault env UserCreate); [left; eexists; reflexivity|].
  destruct (userSchema_validate _); [left; eexists; reflexivity|].
  rewrite bind_unfold. cbn [getDb ret].
  destruct (existsb _ (users db)) eqn:X; [left; eexists; reflexivity|].
  right. split; [|reflexivity].
  intros v I E. assert (T : existsb
    (fun v => String.eqb (user_email v) e || String.eqb (user_id v) (newId env))
    (users db) = true); [|congruence].
  apply existsb_exists. exists v. split; [exact I|].
  rewrite E, String.eqb_refl. reflexivity.
Qed.

(** Every run of the signup handler: it answers without success and leaves
    the database alone, or it answers 201 and has appended one user, built
    from the trimmed fields, whose email no stored user had. *)
Lemma signup_cases (env : Env) (c : Context) (db : Db) :
  (exists r, signup env c db = (Normal r, db) /\ statusCode r <> 201)
  \/ exists n e p,
       bodyField c "name" = Some n /\ bodyField c "email" = Some e
       /\ bodyField c "password" = Some p
       /\ find (fun v => String.eqb (user_email v) (toLowerCase (trim e)))
               (users db) = None
       /\ let u := mkUser (newId env) (trim n) (toLowerCase (trim e))
                          (bcrypt_hash (trim p) (salt env))
                          (trim (orDefault (bodyField c "role") "jobSeeker")) in
          signup env c db
          = (Normal (mkResponse 201
                       (Authenticated
                          (jwt_sign (newId env) (user_role u) (now env))
                          (user_role u) (publicUser u)
                          "Registration successful")),
             mkDb (users db ++ [u]) (jobs db) (applications db)).
Proof.
  unfold signup, tryCatch, method.
  destruct (bodyField c "name") as [n|];
    [| left; eexists; split; [reflexivity | simpl; discriminate]].
  destruct (bodyField c "email") as [e|];
    [| left; eexists; split; [reflexivity | simpl; discriminate]].
  destruct (bodyField c "password") as [p|];
    [| left; eexists; split; [reflexivity | simpl; discriminate]].
  unfold bind, ret. unfold User_findOne, await.
  destruct (fault env UserFindOne);
    [left; eexists; split; [reflexivity | simpl; discriminate]|].
  unfold bind, getDb, ret.
  destruct (find _ (users db)) as [v|] eqn:Fv;
    [left; eexists; split; [reflexivity | simpl; discriminate]|].
  destruct (User_create_cases env (trim n) (toLowerCase (trim e))
              (bcrypt_hash (trim p) (salt env))
              (trim (orDefault (bodyField c "role") "jobSeeker")) db)
    as [[x ->] | [_ ->]].
  - left. eexists. split; [reflexivity | simpl; discriminate].
  - right. exists n, e, p. repeat split; auto.
Qed.

(** An email that is registered, compared after trimming and lower-casing,
    is refused. *)
Lemma signup_registered_email (env : Env) (c : Context) (db : Db)
    (n e p : string) (v : User) :
  bodyField c "name" = Some n -> bodyField c "email" = Some e ->
  bodyField c "password" = Some p -> fault env UserFindOne = None ->
  find (fun v => String.eqb (user_email v) (toLowerCase (trim e))) (users db)
  = Some v ->
  signup env c db = (Normal (failure 400 "Email already registered"), db).
Proof.
  intros Hn He Hp F Fv. unfold signup, tryCatch, method. rewrite Hn, He, Hp.
  unfold bind, ret.
  rewrite (User_findOne_run env _ _ F), Fv. reflexivity.
Qed.

Lemma find_app_new {A} (p : A -> bool) (l : list A) (x : A) :
  find p l = None -> p x = true -> find p (l ++ [x])%list = Some x.
Proof.
  induction l as [|y l IH]; simpl; intros N T.
  - now rewrite T.
  - destruct (p y); [discriminate | auto].
Qed.

(** Once an address is registered, a signup with the same address in
    another case, or with blanks around it, is answered 400 'Email already
    registered' by the handler and registers nothing. *)
Theorem signup_refuses_a_registered_address
    (env1 env2 : Env) (c1 c2 : Context) (db db1 : Db) (r1 : Response)
    (e1 n2 e2 p2 : string) :
  signup env1 c1 db = (Normal r1, db1) -> statusCode r1 = 201 ->
  bodyField c1 "email" = Some e1 ->
  bodyField c2 "name" = Some n2 -> bodyField c2 "email" = Some e2 ->
  bodyField c2 "password" = Some p2 ->
  toLowerCase (trim e2) = toLowerCase (trim e1) ->
  fault env2 UserFindOne = None ->
  signup env2 c2 db1
  = (Normal (failure 400 "Email already registered"), db1).
Proof.
  intros E S He1 Hn2 He2 Hp2 Eq F.
  destruct (signup_cases env1 c1 db) as [[r [E' N]] | R]; [congruence|].
  destruct R as (n & e & p & _ & He & _ & Fn & E').
  cbv zeta in E'. rewrite E in E'. inversion E'; subst r1 db1. clear E'.
  assert (e = e1) by congruence. subst e.
  eapply (signup_registered_email env2 c2 _ n2 e2 p2); eauto.
  cbn [users]. rewrite Eq. apply find_app_new; [exact Fn|].
  cbn [user_email]. apply String.eqb_refl.
Qed.

Lemma signupRoute_state (env : Env) (c : Context) (db : Db) :
  stateAfter (runStack env (route_stack signupRoute) c) db = db
  \/ stateAfter (runStack env (route_stack signupRoute) c) db
     = stateAfter (signup env c) db.
Proof.
  unfold stateAfter. rewrite signupRoute_run.
  destruct (validateSignup_cases env c db) as [-> | [m ->]];
    [| left; reflexivity].
  right. destruct (signup env c db) as [[r|e] d]; reflexivity.
Qed.

Lemma signup_keeps_emailsDistinct (env : Env) (c : Context) (db : Db) :
  emailsDistinct db -> emailsDistinct (stateAfter (signup env c) db).
Proof.
  intros D. unfold stateAfter.
  destruct (signup_cases env c db) as [[r [-> _]] | R]; [exact D|].
  destruct R as (n & e & p & _ & _ & _ & Fn & E). cbv zeta in E. rewrite E.
  unfold emailsDistinct. cbn [snd users]. rewrite map_app.
  apply NoDup_app; [exact D | repeat constructor; simpl; tauto |].
  intros x I [<- | []]. apply in_map_iff in I as (v & Ev & Iv).
  pose proof (find_none _ _ Fn v Iv) as X. cbn beta in X.
  cbn [user_email] in Ev. rewrite Ev, String.eqb_refl in X. discriminate.
Qed.

(** Over any sequence of signup requests, whatever fails in the database
    on the way, no two users come to share an email, and jobs and
    applications stay untouched. *)
Theorem signups_keep_emails_distinct (rs : list (Env * Context)) (db : Db) :
  emailsDistinct db ->
  emailsDistinct (signups rs db)
  /\ jobs (signups rs db) = jobs db
  /\ applications (signups rs db) = applications db.
Proof.
  revert db. induction rs as [|[env c] rs IH]; intros db D; [auto|].
  cbn [signups].
  assert (K : emailsDistinct
                (stateAfter (runStack env (route_stack signupRoute) c) db)
              /\ jobs (stateAfter (runStack env (route_stack signupRoute) c) db)
                 = jobs db
              /\ applications
                   (stateAfter (runStack env (route_stack signupRoute) c) db)
                 = applications db).
  { destruct (signupRoute_state env c db) as [-> | ->]; [auto|].
    split; [now apply signup_keeps_emailsDistinct|].
    unfold stateAfter.
    destruct (signup_cases env c db) as [[r [-> _]] | R]; [auto|].
    destruct R as (n & e & p & _ & _ & _ & _ & E). cbv zeta in E.
    rewrite E. auto. }
  destruct K as (D' & J' & A'). destruct (IH _ D') as (D2 & J2 & A2).
  repeat split; [exact D2 | congruence | congruence].
Qed.

(** What is registered can log in: after a signup answered 201, a login
    with the same address, in any case and with blanks around it, and the
    same password up to the white space around it is answered 200 with a
    token for the new user, provided the password has a character that is
    not white space and bcrypt accepts a password against its own hash. *)
Theorem signup_then_login
    (env1 env2 : Env) (c1 c2 : Context) (db db1 : Db) (r1 : Response)
    (e1 p1 e2 p2 : string) :
  signup env1 c1 db = (Normal r1, db1) -> statusCode r1 = 201 ->
  bodyField c1 "email" = Some e1 -> bodyField c1 "password" = Some p1 ->
  bodyField c2 "email" = Some e2 -> bodyField c2 "password" = Some p2 ->
  toLowerCase (trim e2) = toLowerCase (trim e1) -> trim p2 = trim p1 ->
  truthy (trim e1) = true -> truthy (trim p1) = true ->
  truthy (bcrypt_hash (trim p1) (salt env1)) = true ->
  bcrypt_compare (trim p1) (bcrypt_hash (trim p1) (salt env1)) = true ->
  fault env2 UserFindOne = None ->
  exists u,
    In u (users db1) /\ user_id u = newId env1
    /\ user_email u = toLowerCase (trim e1)
    /\ login env2 c2 db1
       = (Normal (mkResponse 200
                    (Authenticated
                       (jwt_sign (user_id u) (user_role u) (now env2))
                       (user_role u) (publicUser u) "Login successful")),
          db1).
Proof.
  intros E S He1 Hp1 He2 Hp2 Ee Ep Te Tp Th Cmp F.
  destruct (signup_cases env1 c1 db) as [[r [E' N]] | R]; [congruence|].
  destruct R as (n & e & p & _ & He & Hp & Fn & E').
  cbv zeta in E'. rewrite E in E'. inversion E'; subst r1 db1. clear E'.
  assert (e = e1) by congruence. assert (p = p1) by congruence. subst e p.
  eexists. split; [|split; [|split]].
  - cbn [users]. apply in_or_app. right. left. reflexivity.
  - reflexivity.
  - reflexivity.
  - unfold login, optTrim. rewrite He2, Hp2. cbn [option_map truthyField orEmpty].
    rewrite truthy_toLowerCase, Ee, Ep.
    assert (truthy (trim e2) = true) as ->.
    { rewrite <- (truthy_toLowerCase (trim e2)), Ee, truthy_toLowerCase.
      exact Te. }
    rewrite Tp. cbn [negb orb]. unfold tryCatch. rewrite bind_unfold.
    rewrite (User_findOne_run env2 _ _ F). cbn [users].
    rewrite find_app_new;
      [| exact Fn | cbn [user_email]; apply String.eqb_refl].
    cbn [user_password]. rewrite Th, Cmp. reflexivity.
Qed.



End SignupFacts.

(* ===================================================================== *)
(** * What the handlers answer *)
(* ===================================================================== *)

Section CompletionFacts.

Lemma completesWith_ret {A} (a : A) (Q : A -> Prop) (T : string -> Prop) :
  Q a -> completesWith (ret a) Q T.
Proof. intros H db. exact H. Qed.

Lemma completesWith_throw {A} (e : string) (Q : A -> Prop)
    (T : string -> Prop) :
  T e -> completesWith (@throw A e) Q T.
Proof. intros H db. exact H. Qed.

Lemma completesWith_bind {A B} (m : M A) (k : A -> M B) (Q : B -> Prop)
    (T : string -> Prop) :
  completesWith m (fun _ => True) T ->
  (forall a, completesWith (k a) Q T) ->
  completesWith (bind m k) Q T.
Proof.
  intros Hm Hk db. unfold completion. rewrite bind_unfold.
  specialize (Hm db). unfold completion in Hm.
  destruct (m db) as [[a|e] d]; [apply Hk | exact Hm].
Qed.

Lemma completesWith_tryCatch {A} (m : M A) (h : string -> M A)
    (Q : A -> Prop) (T : string -> Prop) :
  completesWith m Q (fun _ => True) ->
  (forall e, completesWith (h e) Q T) ->
  completesWith (tryCatch m h) Q T.
Proof.
  intros Hm Hh db. unfold completion, tryCatch.
  specialize (Hm db). unfold completion in Hm.
  destruct (m db) as [[a|e] d]; [exact Hm | apply Hh].
Qed.

Lemma completesWith_await {A} (env : Env) (call : DbCall) (m : M A)
    (Q : A -> Prop) :
  completesWith m Q (fun _ => True) ->
  completesWith (await env call m) Q (fun _ => True).
Proof.
  intros Hm. unfold await. destruct (fault env call); [|exact Hm].
  now apply completesWith_throw.
Qed.

Lemma completesWith_getDb (Q : Db -> Prop) (T : string -> Prop) :
  (forall db, Q db) -> completesWith getDb Q T.
Proof. intros H db. apply H. Qed.

Lemma completesWith_putDb (d : Db) (T : string -> Prop) :
  completesWith (putDb d) (fun _ => True) T.
Proof. intros db. exact I. Qed.

Lemma completesWith_identifier (scope : list string) (x : string) :
  completesWith (identifier scope x) (fun _ => True) (fun _ => True).
Proof.
  unfold identifier. destruct (existsb _ scope);
    [now apply completesWith_ret | now apply completesWith_throw].
Qed.

Lemma completesWith_reqUser (c : Context) :
  completesWith (reqUser c) (fun _ => True) (fun _ => True).
Proof.
  unfold reqUser. destruct (req_user c);
    [now apply completesWith_ret | now apply completesWith_throw].
Qed.

Lemma completesWith_method (f : option string) (m : string) :
  completesWith (method f m) (fun _ => True) (fun _ => True).
Proof.
  unfold method. destruct f;
    [now apply completesWith_ret | now apply completesWith_throw].
Qed.

(** A computation completes somehow. *)
Lemma completesWith_any {A} (m : M A) :
  completesWith m (fun _ => True) (fun _ => True).
Proof. intros db. destruct (completion m db); exact I. Qed.

End CompletionFacts.

(** The descent through a handler: the leaves, where a value is returned,
    are left to the tactic given. *)
Ltac answers leaf :=
  repeat first
    [ apply completesWith_any
    | apply completesWith_tryCatch
    | apply completesWith_bind
    | apply completesWith_ret; leaf
    | apply completesWith_throw; exact I
    | progress cbv zeta
    | match goal with
      | |- completesWith (if ?b then _ else _) _ _ => destruct b
      | |- completesWith (match ?x with _ => _ end) _ _ => destruct x
      end
    | lazymatch goal with
      | |- completesWith _ _ _ => fail
      | |- _ => intro
      end ].

Section AnswerFacts.
Context {P : Platform}.

(** A leaf of an application route: an answer other than 500, or the
    answer of a catch block or of the error handler outside development. *)
Ltac hidden H :=
  first
    [ let X := fresh in intros X; simpl in X; discriminate X
    | intros _; unfold errorHandler, devError; rewrite H;
      first [ reflexivity | left; reflexivity | right; reflexivity ] ].

(** Outside development the application routes keep the error to
    themselves: every answer with status 500 of the six handlers of
    routes/applicationRoutes.js is the failure body with the fixed message
    of the handler's catch block and no error detail; for the résumé it
    may also be the one of the error handler of the app. *)
Theorem application_routes_hide_errors (fs : Fs) (env : Env) (c : Context) :
  String.eqb (NODE_ENV env) "development" = false ->
  let hides (message : string) (r : Response) :=
    statusCode r = 500 -> body r = Failure message None in
  let hides' (message : string) (r : Reply) :=
    replyCode r = 500 ->
    r = Refused (mkResponse 500 (Failure message None)) in
  completesWith (submitApplication env c)
    (hides "Server error during application submission") (fun _ => False)
  /\ completesWith (getResume fs env c)
       (fun r => statusCode r = 500 ->
                 body r = Failure "Server error during resume download" None
                 \/ body r = Failure "Internal server error" None)
       (fun _ => False)
  /\ completesWith (getJobApplications env c)
       (hides "Server error fetching applications") (fun _ => False)
  /\ completesWith (getCompanyApplications env c)
       (hides' "Server error fetching applications") (fun _ => False)
  /\ completesWith (getMyApplications env c)
       (hides' "Server error fetching your applications") (fun _ => False)
  /\ completesWith (updateApplicationStatus env c)
       (hides' "Server error updating application status") (fun _ => False).
Proof.
  intros H hides hides'. subst hides hides'.
  repeat match goal with |- _ /\ _ => split end.
  - unfold submitApplication. answers ltac:(hidden H).
  - unfold getResume. answers ltac:(hidden H).
  - unfold getJobApplications. answers ltac:(hidden H).
  - unfold getCompanyApplications. answers ltac:(hidden H).
  - unfold getMyApplications. answers ltac:(hidden H).
  - unfold updateApplicationStatus. answers ltac:(hidden H).
Qed.

(** The job list and the auth routes send the error message in every
    environment: when the database fails on their query, GET /api/jobs,
    the login and the signup answer 500 with the message of the failure in
    the body, whatever NODE_ENV is. *)
Theorem job_and_auth_routes_send_error_messages
    (env : Env) (c : Context) (db : Db) (e : string) :
  (fault env JobFind = Some e ->
   getJobs env c db
   = (Normal (mkResponse 500 (Failure "Error fetching jobs" (Some e))), db))
  /\ (fault env UserFindOne = Some e ->
      JsString.truthyField
        (option_map JsString.toLowerCase
           (JsString.optTrim (bodyField c "email"))) = true ->
      JsString.truthyField (JsString.optTrim (bodyField c "password")) = true ->
      login env c db
      = (Normal (mkResponse 500 (Failure "Server error during login" (Some e))),
         db))
  /\ (fault env UserFindOne = Some e ->
      bodyField c "name" <> None -> bodyField c "email" <> None ->
      bodyField c "password" <> None ->
      signup env c db
      = (Normal (mkResponse 500
                   (Failure "Server error during registration" (Some e))),
         db)).
Proof.
  repeat match goal with |- _ /\ _ => split end.
  - intros F. unfold getJobs, tryCatch. rewrite bind_unfold.
    unfold Job_find_populated. rewrite (await_fails env _ _ _ e F).
    reflexivity.
  - intros F Te Tp. unfold login, tryCatch. rewrite Te, Tp. cbn [negb orb].
    rewrite bind_unfold. unfold User_findOne.
    rewrite (await_fails env _ _ _ e F). reflexivity.
  - intros F Hn He Hp. unfold signup, tryCatch, method.
    destruct (bodyField c "name"); [|congruence].
    destruct (bodyField c "email"); [|congruence].
    destruct (bodyField c "password"); [|congruence].
    unfold bind, ret. unfold User_findOne.
    rewrite (await_fails env _ _ _ e F). reflexivity.
Qed.

End AnswerFacts.

(* ===================================================================== *)
(** * routes/jobRoutes.js: the router as a whole *)
(* ===================================================================== *)

Section JobRouterFacts.
Context {P : Platform}.

(** GET /api/jobs is public: with a token or without, the router answers
    200 with every stored job, in the order of the collection, each with
    the name and email of its poster, and writes nothing. *)
Theorem job_list_is_public (env : Env) (r : Request) (db : Db) :
  req_method r = GET -> req_path r = [] -> fault env JobFind = None ->
  serve env jobRouter r db
  = (Normal (Some (mkResponse 200
                     (JobList (map (fun j => (j, populateUser db (postedBy j)))
                                   (jobs db))))), db).
Proof.
  intros Hm Hp F. unfold serve, jobRouter, jobRouterIn.
  rewrite dispatch_cons. cbn [route_method route_path route_stack req
                              req_user req_file].
  rewrite Hm, Hp. cbn [eqMethod matchPath].
  rewrite runStack_handle. unfold getJobs, tryCatch. rewrite bind_unfold.
  unfold Job_find_populated. rewrite await_ok by exact F. reflexivity.
Qed.

End JobRouterFacts.

(* ===================================================================== *)
(** * routes/jobRoutes.js: posting a job *)
(* ===================================================================== *)

Section PostFacts.
Context {P : Platform}.

(** Every run of the handler: it answers 500 and leaves the database
    alone, or it answers 201 with the job the schema built from the body
    for the caller, whose [_id] no stored job has, appended to the jobs. *)
Lemma postJob_cases (env : Env) (c : Context) (db : Db) :
  (exists e, postJob env c db
             = (Normal (mkResponse 500 (Failure "Error posting job" (Some e))),
                db))
  \/ exists u job,
       req_user c = Some u
       /\ jobSchema_build (req_body (req c)) (id u) (newId env) (now env)
          = inr job
       /\ (forall j, In j (jobs db) -> job_id j <> job_id job)
       /\ postJob env c db
          = (Normal (mkResponse 201 (JobPosted "Job posted successfully" job)),
             mkDb (users db) (jobs db ++ [job]) (applications db)).
Proof.
  unfold postJob, tryCatch, reqUser.
  destruct (req_user c) as [u|]; [|left; eexists; reflexivity].
  rewrite bind_unfold. cbn [ret].
  destruct (jobSchema_build _ _ _ _) as [e|job] eqn:B;
    [left; eexists; reflexivity|].
  rewrite bind_unfold. unfold Job_save, await.
  destruct (fault env JobSave); [left; eexists; reflexivity|].
  rewrite bind_unfold. cbn [getDb ret].
  destruct (existsb (hasJobId (job_id job)) (jobs db)) eqn:X;
    [left; eexists; reflexivity|].
  right. exists u, job. split; [reflexivity|]. split; [exact B|].
  split; [|reflexivity].
  intros j I E.
  assert (T : existsb (hasJobId (job_id job)) (jobs db) = true); [|congruence].
  apply existsb_exists. exists j. split; [exact I|].
  unfold hasJobId. rewrite E. apply String.eqb_refl.
Qed.

(** A posting that is not answered 201 stores nothing: when the schema
    turns the body down, the save fails or the [_id] is taken, the answer
    is 500 'Error posting job' with the message of the error, in every
    environment, and the database is as it was. *)
Theorem refused_posting_stores_nothing
    (env : Env) (c : Context) (db db' : Db) (r : Response) :
  postJob env c db = (Normal r, db') -> statusCode r <> 201 ->
  db' = db /\ exists e, r = mkResponse 500 (Failure "Error posting job" (Some e)).
Proof.
  intros E N.
  destruct (postJob_cases env c db) as [[e E'] | (u & job & _ & _ & _ & E')];
    rewrite E' in E; inversion E; subst.
  - split; [reflexivity | eexists; reflexivity].
  - exfalso. apply N. reflexivity.
Qed.

(** A posted job is listed: after a posting answered 201, the jobs are the
    earlier ones and the job of the answer after them, users and
    applications are as they were, and the public list of jobs ends with
    the new job. *)
Theorem posted_job_is_listed
    (env1 env2 : Env) (c1 c2 : Context) (db db1 : Db) (r : Response) :
  postJob env1 c1 db = (Normal r, db1) -> statusCode r = 201 ->
  fault env2 JobFind = None ->
  exists job l,
    body r = JobPosted "Job posted successfully" job
    /\ jobs db1 = (jobs db ++ [job])%list
    /\ users db1 = users db /\ applications db1 = applications db
    /\ getJobs env2 c2 db1
       = (Normal (mkResponse 200
                    (JobList (l ++ [(job, populateUser db1 (postedBy job))]))),
          db1)
    /\ map fst l = jobs db.
Proof.
  intros E S F.
  destruct (postJob_cases env1 c1 db) as [[e E'] | (u & job & _ & _ & _ & E')];
    rewrite E' in E; inversion E; subst; [discriminate S|].
  exists job.
  exists (map (fun j => (j, populateUser
                              (mkDb (users db) (jobs db ++ [job])
                                    (applications db)) (postedBy j)))
              (jobs db)).
  cbn [body jobs users applications].
  repeat split.
  - unfold getJobs, tryCatch. rewrite bind_unfold.
    unfold Job_find_populated. rewrite await_ok by exact F.
    rewrite bind_unfold. cbn [getDb ret jobs].
    rewrite map_app. reflexivity.
  - rewrite map_map. cbn [fst]. apply map_id.
Qed.

End PostFacts.

(* ===================================================================== *)
(** * Runs on the sample data, continued *)
(* ===================================================================== *)

Module MoreSampleRuns.
Import Sample MoreSamples.

Lemma status_update_checks_need_no_database_witness :
  updateApplicationStatus envDown (statusRequest acme appId1 "done") db1
  = (Normal (Refused (failure 400 "Invalid status value")), db1)
  /\ updateApplicationStatus envDown (statusRequest acme "1" "reviewed") db1
     = (Normal (Refused (failure 400 "Invalid application ID format")), db1).
Proof.
  split.
  - apply (proj1 (status_update_checks_need_no_database envDown _ db1)).
    reflexivity.
  - apply (proj2 (status_update_checks_need_no_database envDown _ db1));
      reflexivity.
Defined.

Lemma status_update_refuses_strangers_witness :
  updateApplicationStatus env2 (statusRequest acme appId2 "reviewed") db1
  = (Normal (Refused (failure 404 "Application not found")), db1)
  /\ updateApplicationStatus env2 (statusRequest bits appId1 "reviewed") db1
     = (Normal (Refused
                  (failure 403 "Not authorized to update this application")),
        db1).
Proof.
  split.
  - destruct (status_update_refuses_strangers
                env2 (statusRequest acme appId2 "reviewed") db1) as [A _];
      [reflexivity | reflexivity | reflexivity |].
    apply A. reflexivity.
  - destruct (status_update_refuses_strangers
                env2 (statusRequest bits appId1 "reviewed") db1) as [_ B];
      [reflexivity | reflexivity | reflexivity |].
    apply (B application1 job1counted (asUser bits));
      [reflexivity | reflexivity | reflexivity | discriminate].
Defined.

Lemma status_update_writes_one_status_witness :
  exists db' a',
    updateApplicationStatus env2 (statusRequest acme appId1 "accepted") db1
    = (Normal (Answered 200
                 (StatusUpdated "Application status updated" appId1 "accepted"
                                jobId1 None carolId)), db')
    /\ applications db' = [a'] /\ status a' = "accepted"
    /\ sameApplicationButStatus application1 a'
    /\ users db' = users db1 /\ jobs db' = jobs db1.
Proof.
  destruct (status_update_writes_one_status
              env2 (statusRequest acme appId1 "accepted") db1 application1
              job1counted (asUser acme) "accepted")
    as (db' & a' & before & after & E & A & A' & S & Same & U & J);
    try reflexivity; try discriminate.
  exists db', a'. repeat split; try assumption; try apply Same.
  destruct before as [|x [|y before]]; simpl in A; inversion A; subst.
  exact A'.
Defined.

Lemma statuses_stay_valid_in_flight_witness :
  statusesValid (snd (interleave storyTurns (map workflowTask story) db0))
  /\ map status
       (applications (snd (interleave storyTurns (map workflowTask story) db0)))
     = ["accepted"; "pending"].
Proof.
  split; [|reflexivity].
  apply (statuses_stay_valid_in_flight storyTurns story db0).
  intros a [].
Defined.


Lemma workflow_counts_exactly_witness :
  jobIdsDistinct (workflow story db0) /\ countsExact (workflow story db0).
Proof.
  apply (workflow_counts_exactly story db0).
  - repeat constructor; intros call; reflexivity.
  - repeat constructor. simpl. tauto.
  - intros j [<- | []]. reflexivity.
Defined.

Lemma company_list_is_the_applications_to_own_jobs_witness :
  exists l,
    getCompanyApplications env2 (asked acme [] []) db1
    = (Normal (Answered 200
                 (CompanyApplications
                    (length l)
                    (map (fun a =>
                            (a,
                             option_map jobCard
                               (find (hasJobId (app_job a)) (jobs db1)),
                             populateUser db1 (app_user a))) l))), db1)
    /\ Permutation l [application1].
Proof.
  destruct (company_list_is_the_applications_to_own_jobs
              env2 (asked acme [] []) db1 (asUser acme))
    as (l & E & Pm & _); try reflexivity.
  exists l. split; [exact E | exact Pm].
Defined.

Lemma own_list_is_the_callers_applications_witness :
  exists l,
    getMyApplications env2 (asked carol [] []) db1
    = (Normal (Answered 200
                 (OwnApplications
                    (length l)
                    (map (fun a =>
                            mkOwnApplication (app_id a)
                              (option_map (jobPosting db1)
                                 (find (hasJobId (app_job a)) (jobs db1)))
                              (status a) (resume a) (createdAt a)
                              (updatedAt a)) l))), db1)
    /\ Permutation l [application1].
Proof.
  destruct (own_list_is_the_callers_applications
              env2 (asked carol [] []) db1 (asUser carol))
    as (l & E & Pm & _); try reflexivity.
  exists l. split; [exact E | exact Pm].
Defined.

Lemma job_list_is_the_applications_to_the_job_witness :
  exists l,
    getJobApplications env2 (asked acme [("jobId", jobId1)] []) db1
    = (Normal (mkResponse 200
                 (JobApplications
                    (jobSummary job1counted) (length l)
                    (map (fun a => (a, populateUser db1 (app_user a))) l))),
       db1)
    /\ Permutation l [application1].
Proof.
  destruct (job_list_is_the_applications_to_the_job
              env2 (asked acme [("jobId", jobId1)] []) db1 (asUser acme)
              jobId1 job1counted)
    as (l & E & Pm & _); try reflexivity.
  exists l. split; [exact E | exact Pm].
Defined.

Lemma status_update_shows_in_own_list_witness :
  exists db' n l o,
    updateApplicationStatus env2 (statusRequest acme appId1 "accepted") db1
    = (Normal (Answered 200
                 (StatusUpdated "Application status updated" appId1 "accepted"
                                jobId1 None carolId)), db')
    /\ getMyApplications env2 (asked carol [] []) db'
       = (Normal (Answered 200 (OwnApplications n l)), db')
    /\ In o l /\ oa_id o = appId1 /\ oa_status o = "accepted".
Proof.
  eexists.
  edestruct (status_update_shows_in_own_list
               env2 env2 (statusRequest acme appId1 "accepted")
               (asked carol [] []) db1)
    as (n & l & E & o & I & Oi & Os);
    [reflexivity | reflexivity | reflexivity | reflexivity |].
  exists n, l, o. split; [reflexivity|]. repeat split; eassumption.
Defined.

Lemma submission_shows_in_company_list_witness :
  exists db' r n l a job user,
    submitApplication env0 withLetter db0 = (Normal r, db')
    /\ statusCode r = 201
    /\ getCompanyApplications env2 (asked acme [] []) db'
       = (Normal (Answered 200 (CompanyApplications n l)), db')
    /\ In (a, job, user) l
    /\ app_id a = appId1 /\ app_job a = jobId1 /\ status a = "pending".
Proof.
  eexists. eexists.
  edestruct (submission_shows_in_company_list
               env0 env2 withLetter (asked acme [] []) db0)
    as (n & l & E & a & job & user & I & Ai & Aj & _ & As);
    [reflexivity | reflexivity | reflexivity | reflexivity | reflexivity
    | reflexivity | reflexivity | reflexivity |].
  exists n, l, a, job, user.
  split; [reflexivity|]. split; [reflexivity|].
  repeat split; eassumption.
Defined.

Lemma resume_goes_to_applicant_and_poster_only_witness :
  getResume stored env2 (asked carol [("filename", "1700000000-cv.pdf")] []) db1
  = (Normal (mkResponse 200
               (SentFile "application/pdf"
                         ("inline; filename=" ++ dquote ++ "1700000000-cv.pdf"
                          ++ dquote)
                         "/srv/uploads/1700000000-cv.pdf")), db1)
  /\ getResume storedHidden env2 (asked acme [("filename", ".cv.pdf")] []) db2
     = (Normal (mkResponse 500 (Failure "Internal server error" None)), db2)
  /\ getResume stored env2 (asked bits [("filename", "1700000000-cv.pdf")] [])
               db1
     = (Normal (failure 403 "Not authorized to access this file"), db1).
Proof.
  split; [|split].
  - refine (proj1 (resume_goes_to_applicant_and_poster_only
                     stored env2
                     (asked carol [("filename", "1700000000-cv.pdf")] []) db1
                     (asUser carol) "1700000000-cv.pdf"
                     eq_refl eq_refl eq_refl eq_refl) _ _ _ _).
    + exists application1. split; [left; reflexivity|].
      split; [reflexivity | left; reflexivity].
    + reflexivity.
    + reflexivity.
    + reflexivity.
  - refine (proj1 (proj2 (resume_goes_to_applicant_and_poster_only
                     storedHidden env2
                     (asked acme [("filename", ".cv.pdf")] []) db2
                     (asUser acme) ".cv.pdf"
                     eq_refl eq_refl eq_refl eq_refl)) "Not Found" _ _ _ _).
    + exists hiddenCv. split; [right; left; reflexivity|].
      split; [reflexivity|]. right. exists job1counted.
      split; [left; reflexivity|]. split; reflexivity.
    + reflexivity.
    + reflexivity.
    + reflexivity.
  - apply (proj2 (proj2 (proj2 (resume_goes_to_applicant_and_poster_only
                    stored env2
                    (asked bits [("filename", "1700000000-cv.pdf")] []) db1
                    (asUser bits) "1700000000-cv.pdf"
                    eq_refl eq_refl eq_refl eq_refl)))).
    intros a [<- | []] _. split; [discriminate|].
    intros j [<- | []] _. discriminate.
Defined.

Lemma submit_checks_in_order_witness :
  submitApplication envDown (asked carol [] fields) db1
  = (Normal (failure 400 "Resume file is required"), db1)
  /\ submitApplication envDown (askedWith carol [] [] cv) db1
     = (Normal (failure 400 "Job ID is required"), db1)
  /\ submitApplication envDown (askedWith carol [] [("jobId", "1")] cv) db1
     = (Normal (failure 400 "Invalid job ID format"), db1)
  /\ submitApplication env2 (askedWith carol [] [("jobId", appId1)] cv) db1
     = (Normal (failure 404 "Job not found"), db1).
Proof.
  split; [|split; [|split]].
  - apply (proj1 (submit_checks_in_order envDown (asked carol [] fields) db1)).
    reflexivity.
  - apply (proj1 (proj2 (submit_checks_in_order
                           envDown (askedWith carol [] [] cv) db1)));
      [discriminate | reflexivity].
  - apply (proj1 (proj2 (proj2 (submit_checks_in_order
                           envDown (askedWith carol [] [("jobId", "1")] cv)
                           db1))));
      [discriminate | reflexivity | reflexivity].
  - apply (proj2 (proj2 (proj2 (submit_checks_in_order
                           env2 (askedWith carol [] [("jobId", appId1)] cv)
                           db1))));
      [discriminate | reflexivity | reflexivity | reflexivity | reflexivity].
Defined.

Lemma accepted_email_is_already_trimmed_witness :
  JsString.trim "carol@mail.example" = "carol@mail.example"
  /\ JsString.emailRegex_test (" " ++ "carol@mail.example") = false
  /\ JsString.emailRegex_test ("carol@mail.example" ++ " ") = false.
Proof.
  split.
  - apply (proj1 EmailFacts.accepted_email_is_already_trimmed). reflexivity.
  - apply (proj2 EmailFacts.accepted_email_is_already_trimmed);
      [discriminate | reflexivity].
Defined.

Lemma validateSignup_accepts_exactly_witness :
  validateSignup env0 (registration "Dora" "dora@mail.example" "secret1") db0
  = (Normal (inr (registration "Dora" "dora@mail.example" "secret1")), db0).
Proof.
  apply (proj1 (validateSignup_accepts_exactly
                  env0 (registration "Dora" "dora@mail.example" "secret1") db0)).
  exists "Dora", "dora@mail.example", "secret1".
  repeat split; try reflexivity; try discriminate.
  - exists "dora", "mail", "example". repeat split; try reflexivity; discriminate.
  - simpl. lia.
Defined.

Lemma signup_refuses_a_registered_address_witness :
  exists r db',
    signup env0 (registration "Dora" "dora@mail.example" "secret1") db0
    = (Normal r, db')
    /\ statusCode r = 201
    /\ signup env2 (registration "Dora" " Dora@Mail.Example " "secret2") db'
       = (Normal (failure 400 "Email already registered"), db').
Proof.
  eexists. eexists. split; [reflexivity|]. split; [reflexivity|].
  eapply (signup_refuses_a_registered_address
            env0 env2 (registration "Dora" "dora@mail.example" "secret1")
            (registration "Dora" " Dora@Mail.Example " "secret2") db0);
    reflexivity.
Defined.

Lemma signups_keep_emails_distinct_witness :
  let rs := [ (env0, registration "Dora" "dora@mail.example" "secret1");
              (env2, registration "Dora" " Dora@Mail.Example " "secret2") ] in
  emailsDistinct (signups rs db0)
  /\ jobs (signups rs db0) = jobs db0
  /\ applications (signups rs db0) = applications db0.
Proof.
  intros rs. apply (signups_keep_emails_distinct rs db0).
  repeat constructor; simpl; intuition discriminate.
Defined.

Lemma signup_then_login_witness :
  exists r db' u,
    signup env0 (registration "Dora" "dora@mail.example" "secret1") db0
    = (Normal r, db')
    /\ statusCode r = 201
    /\ In u (users db') /\ user_id u = appId1
    /\ login env2 (credentials " Dora@Mail.Example " " secret1 ") db'
       = (Normal (mkResponse 200
                    (Authenticated
                       (jwt_sign (user_id u) (user_role u) (now env2))
                       (user_role u) (publicUser u) "Login successful")),
          db').
Proof.
  eexists. eexists.
  edestruct (signup_then_login
               env0 env2 (registration "Dora" "dora@mail.example" "secret1")
               (credentials " Dora@Mail.Example " " secret1 ") db0)
    as (u & I & Ui & _ & L);
    [reflexivity | reflexivity | reflexivity | reflexivity | reflexivity
    | reflexivity | reflexivity | reflexivity | reflexivity | reflexivity
    | reflexivity | reflexivity | reflexivity |].
  exists u. split; [reflexivity|]. split; [reflexivity|].
  repeat split; eassumption.
Defined.


Lemma application_routes_hide_errors_witness :
  let hides (message : string) (r : Response) :=
    statusCode r = 500 -> body r = Failure message None in
  let hides' (message : string) (r : Reply) :=
    replyCode r = 500 ->
    r = Refused (mkResponse 500 (Failure message None)) in
  completesWith (submitApplication envDown withLetter)
    (hides "Server error during application submission") (fun _ => False)
  /\ completesWith (getResume stored envDown withLetter)
       (fun r => statusCode r = 500 ->
                 body r = Failure "Server error during resume download" None
                 \/ body r = Failure "Internal server error" None)
       (fun _ => False)
  /\ completesWith (getJobApplications envDown withLetter)
       (hides "Server error fetching applications") (fun _ => False)
  /\ completesWith (getCompanyApplications envDown withLetter)
       (hides' "Server error fetching applications") (fun _ => False)
  /\ completesWith (getMyApplications envDown withLetter)
       (hides' "Server error fetching your applications") (fun _ => False)
  /\ completesWith (updateApplicationStatus envDown withLetter)
       (hides' "Server error updating application status") (fun _ => False).
Proof.
  apply (application_routes_hide_errors stored envDown withLetter).
  reflexivity.
Defined.

Lemma job_and_auth_routes_send_error_messages_witness :
  getJobs envDown (asked acme [] []) db1
  = (Normal (mkResponse 500
               (Failure "Error fetching jobs" (Some "connection lost"))), db1)
  /\ login envDown (credentials "carol@mail.example" "hunter22") db1
     = (Normal (mkResponse 500
                  (Failure "Server error during login"
                           (Some "connection lost"))), db1)
  /\ signup envDown (registration "Dora" "dora@mail.example" "secret1") db1
     = (Normal (mkResponse 500
                  (Failure "Server error during registration"
                           (Some "connection lost"))), db1).
Proof.
  split; [|split].
  - apply (proj1 (job_and_auth_routes_send_error_messages
                    envDown (asked acme [] []) db1 "connection lost")).
    reflexivity.
  - apply (proj1 (proj2 (job_and_auth_routes_send_error_messages
                    envDown (credentials "carol@mail.example" "hunter22") db1
                    "connection lost"))); reflexivity.
  - apply (proj2 (proj2 (job_and_auth_routes_send_error_messages
                    envDown (registration "Dora" "dora@mail.example" "secret1")
                    db1 "connection lost")));
      [reflexivity | discriminate | discriminate | discriminate].
Defined.

Lemma job_list_is_public_witness :
  serve env2 jobRouter (mkRequest GET [] None [] (Uploaded None)) db1
  = (Normal (Some (mkResponse 200
                     (JobList [(job1counted,
                                Some (mkUserSummary acmeId "Acme"
                                                    "hr@acme.example"))]))),
     db1).
Proof.
  apply (job_list_is_public env2 (mkRequest GET [] None [] (Uploaded None)) db1);
    reflexivity.
Defined.

Lemma refused_posting_stores_nothing_witness :
  exists r db',
    postJob env2 (posting acme [("title", "Developer")]) db1 = (Normal r, db')
    /\ db' = db1
    /\ exists e, r = mkResponse 500 (Failure "Error posting job" (Some e)).
Proof.
  eexists. eexists. split; [reflexivity|].
  eapply (refused_posting_stores_nothing
            env2 (posting acme [("title", "Developer")]) db1);
    [reflexivity | discriminate].
Defined.

Lemma posted_job_is_listed_witness :
  exists r db' job l,
    postJob env2 (posting acme developer)
            db1
    = (Normal r, db')
    /\ statusCode r = 201
    /\ jobs db' = [job1counted; job]
    /\ getJobs env2 (mkContext (mkRequest GET [] None [] (Uploaded None))
                               [] None None) db'
       = (Normal (mkResponse 200
                    (JobList (l ++ [(job, populateUser db' (postedBy job))]))),
          db').
Proof.
  eexists. eexists.
  edestruct (posted_job_is_listed
               env2 env2
               (posting acme developer)
               (mkContext (mkRequest GET [] None [] (Uploaded None))
                          [] None None) db1)
    as (job & l & _ & J & _ & _ & G & _);
    [reflexivity | reflexivity | reflexivity |].
  exists job, l. split; [reflexivity|]. split; [reflexivity|].
  split; [exact J | exact G].
Defined.

End MoreSampleRuns.
